(** * Verification of the WhatsApp conversation segmentation pipeline

    Shallow embedding of [src/teste.py] ([WhatsAppProcessor] and
    [create_whatsapp_database]) and of the message filter of
    [src/rag.py] / [src/app.py]. Python strings are modelled as lists of
    Unicode code points ([ustr]); literals are written as UTF-8 Rocq strings
    and decoded with [u]. *)

From Stdlib Require Import String Ascii List ZArith Bool Lia.
From Stdlib Require Import Sorting.Sorted Sorting.Permutation.
Import ListNotations.
Open Scope Z_scope.

(** ** Python strings *)

Definition ustr := list Z.

(** UTF-8 decoding of a byte list (used to write literals). *)
Fixpoint utf8_decode (bs : list Z) : ustr :=
  match bs with
  | [] => []
  | b :: r =>
      if b <? 128 then b :: utf8_decode r
      else if b <? 224 then
        match r with
        | b1 :: r1 => ((b - 192) * 64 + (b1 - 128)) :: utf8_decode r1
        | [] => []
        end
      else if b <? 240 then
        match r with
        | b1 :: b2 :: r2 =>
            ((b - 224) * 4096 + (b1 - 128) * 64 + (b2 - 128)) :: utf8_decode r2
        | _ => []
        end
      else
        match r with
        | b1 :: b2 :: b3 :: r3 =>
            ((b - 240) * 262144 + (b1 - 128) * 4096 + (b2 - 128) * 64
             + (b3 - 128)) :: utf8_decode r3
        | _ => []
        end
  end.

Definition u (s : string) : ustr :=
  utf8_decode (map (fun a => Z.of_nat (nat_of_ascii a)) (list_ascii_of_string s)).

Fixpoint ustr_eqb (a b : ustr) : bool :=
  match a, b with
  | [], [] => true
  | x :: a', y :: b' => (x =? y) && ustr_eqb a' b'
  | _, _ => false
  end.

(** [str.startswith] *)
Fixpoint startswith (s p : ustr) : bool :=
  match p, s with
  | [], _ => true
  | y :: p', x :: s' => (x =? y) && startswith s' p'
  | _ :: _, [] => false
  end.

(** [sub in s] for strings *)
Fixpoint contains (s p : ustr) : bool :=
  match s with
  | [] => startswith [] p
  | _ :: s' => startswith s p || contains s' p
  end.

Definition py_len (s : ustr) : Z := Z.of_nat (length s).

(** [str.isspace] on one code point (the whitespace set used by [str.strip]
    and by the regular-expression class [\s] on [str] patterns). *)
Definition is_space (c : Z) : bool :=
  ((9 <=? c) && (c <=? 13)) || ((28 <=? c) && (c <=? 32)) || (c =? 133)
  || (c =? 160) || (c =? 5760) || ((8192 <=? c) && (c <=? 8202))
  || (c =? 8232) || (c =? 8233) || (c =? 8239) || (c =? 8287) || (c =? 12288).

Fixpoint lstrip (s : ustr) : ustr :=
  match s with
  | c :: s' => if is_space c then lstrip s' else s
  | [] => []
  end.

(** [str.strip()] *)
Definition strip (s : ustr) : ustr := rev (lstrip (rev (lstrip s))).

(** [str.lower()] on the Latin-1 range (ASCII and U+00C0..U+00DE); code points
    above U+00FF are left as they are in this model. *)
Definition lower_cp (c : Z) : Z :=
  if ((65 <=? c) && (c <=? 90)) || ((192 <=? c) && (c <=? 222) && negb (c =? 215))
  then c + 32 else c.

Definition lower (s : ustr) : ustr := map lower_cp s.

(** ASCII decimal digit (the class [\d] and [[0-9]]). *)
Definition is_digit (c : Z) : bool := (48 <=? c) && (c <=? 57).

(** [str.isalnum() or c == '_'] on the Latin-1 range: the class [\w]. *)
Definition is_word (c : Z) : bool :=
  is_digit c || ((65 <=? c) && (c <=? 90)) || ((97 <=? c) && (c <=? 122))
  || (c =? 95) || (c =? 170) || (c =? 178) || (c =? 179) || (c =? 181)
  || (c =? 185) || (c =? 186) || ((188 <=? c) && (c <=? 190))
  || ((192 <=? c) && (c <=? 255) && negb (c =? 215) && negb (c =? 247)).

(** [int()] of a string of ASCII digits (surrounding whitespace allowed) *)
Definition py_int (s : ustr) : Z :=
  fold_left (fun acc c => acc * 10 + (c - 48)) (strip s) 0.

(** ** A backtracking matcher for the regular expressions of the code

    [re.match] semantics: leftmost alternative first, greedy repetition,
    first successful path wins; [RGrp] records the captured text. *)

Inductive rx :=
| RCls (p : Z -> bool)                       (* one character of a class *)
| RSeq (r1 r2 : rx)
| RAlt (r1 r2 : rx)
| RRep (p : Z -> bool) (lo : nat) (hi : option nat)   (* greedy p{lo,hi} *)
| REnd                                        (* [$] *)
| RGrp (tag : Z) (r : rx).           (* capturing group *)

Fixpoint run_len (p : Z -> bool) (s : ustr) : nat :=
  match s with
  | c :: s' => if p c then S (run_len p s') else O
  | [] => O
  end.

(** try the continuation after [j], [j-1], ..., [lo] repetitions *)
Fixpoint rep_try {R} (j lo : nat) (s : ustr) (caps : list (Z * ustr))
    (k : ustr -> list (Z * ustr) -> option R) : option R :=
  match k (skipn j s) caps with
  | Some x => Some x
  | None =>
      match j with
      | O => None
      | S j' => if (lo <=? j')%nat then rep_try j' lo s caps k else None
      end
  end.

Fixpoint mt {R} (r : rx) (s : ustr) (caps : list (Z * ustr))
    (k : ustr -> list (Z * ustr) -> option R) : option R :=
  match r with
  | RCls p => match s with c :: s' => if p c then k s' caps else None | [] => None end
  | RSeq r1 r2 => mt r1 s caps (fun s' c' => mt r2 s' c' k)
  | RAlt r1 r2 => match mt r1 s caps k with Some x => Some x | None => mt r2 s caps k end
  | RRep p lo hi =>
      let n := run_len p s in
      let n := match hi with Some h => Nat.min n h | None => n end in
      if (lo <=? n)%nat then rep_try n lo s caps k else None
  | REnd => match s with [] => k s caps | [10] => k s caps | _ => None end
  | RGrp t r1 =>
      mt r1 s caps (fun s' c' => k s' (c' ++ [(t, firstn (length s - length s') s)]))
  end.

(** [re.match(pattern, s)]: the rest of the string and the groups *)
Definition re_match (r : rx) (s : ustr) : option (ustr * list (Z * ustr)) :=
  mt r s [] (fun rest caps => Some (rest, caps)).

(** [re.search(pattern, s)]: leftmost starting position *)
Fixpoint re_search (r : rx) (s : ustr) : option (ustr * list (Z * ustr)) :=
  match re_match r s with
  | Some x => Some x
  | None => match s with [] => None | _ :: s' => re_search r s' end
  end.

Definition chr (c : Z) : rx := RCls (Z.eqb c).
(** a literal character under [re.IGNORECASE] (ASCII letters) *)
Definition chr_i (c : Z) : rx := RCls (fun x => lower_cp x =? lower_cp c).
Fixpoint lit (s : ustr) : rx :=
  match s with
  | [] => RRep (fun _ => false) 0 (Some 0%nat)
  | [c] => chr c
  | c :: s' => RSeq (chr c) (lit s')
  end.
Definition rng (a b : Z) : rx := RCls (fun c => (a <=? c) && (c <=? b)).
Definition dig : rx := RCls is_digit.
Definition alts (rs : list rx) : rx :=
  match rs with
  | [] => RCls (fun _ => false)
  | r :: rs' => fold_left RAlt rs' r
  end.
Fixpoint seqs (rs : list rx) : rx :=
  match rs with
  | [] => RRep (fun _ => false) 0 (Some 0%nat)
  | [r] => r
  | r :: rs' => RSeq r (seqs rs')
  end.

(** ** [datetime] and [datetime.strptime] *)

Inductive exc := ValueError | StoreError.

Inductive res (A : Type) := Ret (a : A) | Raise (e : exc).
Arguments Ret {A} a.
Arguments Raise {A} e.

Record datetime := mkdt {
  dt_year : Z; dt_month : Z; dt_day : Z;
  dt_hour : Z; dt_minute : Z; dt_second : Z; dt_microsecond : Z }.

Definition is_leap (y : Z) : bool :=
  (Z.modulo y 4 =? 0) && (negb (Z.modulo y 100 =? 0) || (Z.modulo y 400 =? 0)).

Definition days_in_month (y m : Z) : Z :=
  if m =? 2 then (if is_leap y then 29 else 28)
  else if (m =? 4) || (m =? 6) || (m =? 9) || (m =? 11) then 30 else 31.

(** the constructor [datetime(year, month, day, hour, minute, second, us)]
    with its range checks *)
Definition mk_datetime (y mo d h mi s us : Z) : res datetime :=
  if (1 <=? y) && (y <=? 9999) && (1 <=? mo) && (mo <=? 12)
     && (1 <=? d) && (d <=? days_in_month y mo)
     && (0 <=? h) && (h <=? 23) && (0 <=? mi) && (mi <=? 59)
     && (0 <=? s) && (s <=? 59) && (0 <=? us) && (us <=? 999999)
  then Ret (mkdt y mo d h mi s us) else Raise ValueError.

(** The regular expressions [_strptime.TimeRE] gives the directives. *)
Definition directive_rx (c : Z) : rx :=
  RGrp c
  (if c =? 100 then (* d *)
     alts [RSeq (chr 51) (rng 48 49); RSeq (rng 49 50) dig; RSeq (chr 48) (rng 49 57);
           rng 49 57; RSeq (chr 32) (rng 49 57)]
   else if c =? 102 then (* f *) RRep is_digit 1 (Some 6%nat)
   else if c =? 72 then (* H *)
     alts [RSeq (chr 50) (rng 48 51); RSeq (rng 48 49) dig; dig]
   else if c =? 109 then (* m *)
     alts [RSeq (chr 49) (rng 48 50); RSeq (chr 48) (rng 49 57); rng 49 57]
   else if c =? 77 then (* M *) alts [RSeq (rng 48 53) dig; dig]
   else if c =? 83 then (* S *)
     alts [RSeq (chr 54) (rng 48 49); RSeq (rng 48 53) dig; dig]
   else if c =? 121 then (* y *) RSeq dig dig
   else if c =? 89 then (* Y *) seqs [dig; dig; dig; dig]
   else RCls (fun _ => false)).

(** [TimeRE.pattern]: directives replaced, whitespace runs become [\s+],
    other characters literal (compiled with [re.IGNORECASE]). *)
Fixpoint fmt_rx (f : ustr) (prev_space : bool) : list rx :=
  match f with
  | 37 :: c :: f' => directive_rx c :: fmt_rx f' false
  | c :: f' =>
      if is_space c then
        (if prev_space then fmt_rx f' true else RRep is_space 1 None :: fmt_rx f' true)
      else chr_i c :: fmt_rx f' false
  | [] => []
  end.

Fixpoint lookup_cap (t : Z) (caps : list (Z * ustr)) : option ustr :=
  match caps with
  | [] => None
  | (t', v) :: caps' => if t =? t' then Some v else lookup_cap t caps'
  end.

Definition cap_int (t dflt : Z) (caps : list (Z * ustr)) : Z :=
  match lookup_cap t caps with Some v => py_int v | None => dflt end.

(** [datetime.strptime(s, fmt)]; every format of the code carries a year. *)
Definition strptime (s fmt : ustr) : res datetime :=
  match re_match (seqs (fmt_rx fmt false)) s with
  | None => Raise ValueError                       (* does not match format *)
  | Some (rest, caps) =>
      match rest with
      | _ :: _ => Raise ValueError                 (* unconverted data remains *)
      | [] =>
          let year :=
            match lookup_cap 89 caps with
            | Some v => py_int v
            | None =>
                match lookup_cap 121 caps with
                | Some v => let y := py_int v in if y <=? 68 then y + 2000 else y + 1900
                | None => 1900
                end
            end in
          let fraction :=
            match lookup_cap 102 caps with
            | Some v => py_int (v ++ repeat 48 (6 - length v))
            | None => 0
            end in
          mk_datetime year (cap_int 109 1 caps) (cap_int 100 1 caps)
            (cap_int 72 0 caps) (cap_int 77 0 caps) (cap_int 83 0 caps) fraction
      end
  end.

(** ** [WhatsAppProcessor.parse_timestamp] *)

Definition formats : list ustr :=
  [u "%d/%m/%Y, %H:%M"; u "%d/%m/%y, %H:%M"; u "%m/%d/%Y, %H:%M";
   u "%Y-%m-%d %H:%M:%S"; u "%d-%m-%Y %H:%M"; u "%d/%m/%Y %H:%M:%S";
   u "%Y-%m-%dT%H:%M:%S"; u "%Y-%m-%dT%H:%M:%S.%f"].

(** [r'(\d{1,2})[/\-](\d{1,2})[/\-](\d{2,4})'] *)
Definition date_rx : rx :=
  let sep := RCls (fun c => (c =? 47) || (c =? 45)) in
  seqs [RGrp 1 (RRep is_digit 1 (Some 2%nat)); sep;
        RGrp 2 (RRep is_digit 1 (Some 2%nat)); sep;
        RGrp 3 (RRep is_digit 2 (Some 4%nat))].

(** [r'(\d{1,2}):(\d{2})'] *)
Definition time_rx : rx :=
  seqs [RGrp 1 (RRep is_digit 1 (Some 2%nat)); chr 58;
        RGrp 2 (RRep is_digit 2 (Some 2%nat))].

(** the loop [for fmt in formats: try: return datetime.strptime(...)
    except ValueError: continue] *)
Fixpoint try_formats (s : ustr) (fs : list ustr) : option datetime :=
  match fs with
  | [] => None
  | f :: fs' => match strptime s f with Ret d => Some d | Raise _ => try_formats s fs' end
  end.

(** the regular-expression fallback, with its [except ValueError: pass] *)
Definition fallback_parse (ts : ustr) : option datetime :=
  match re_search date_rx ts, re_search time_rx ts with
  | Some (_, dcaps), Some (_, tcaps) =>
      let day := cap_int 1 0 dcaps in
      let month := cap_int 2 0 dcaps in
      let year0 := cap_int 3 0 dcaps in
      let year := if year0 <? 100 then year0 + 2000 else year0 in
      match mk_datetime year month day (cap_int 1 0 tcaps) (cap_int 2 0 tcaps) 0 0 with
      | Ret d => Some d
      | Raise _ => None
      end
  | _, _ => None
  end.

Definition parse_timestamp (ts : ustr) : option datetime :=
  match ts with
  | [] => None
  | _ =>
      match try_formats (strip ts) formats with
      | Some d => Some d
      | None => fallback_parse ts
      end
  end.

(** ** Message filtering and cleaning *)

(** a record of the exported JSON file; a missing key is [None] *)
Record raw_item := mkraw {
  ri_author : option ustr; ri_message : option ustr; ri_timestamp : option ustr }.

(** [item.get(key, default)] *)
Definition get_or (o : option ustr) (d : ustr) : ustr :=
  match o with Some v => v | None => d end.

(** the dicts appended to [valid_messages] *)
Record vmsg := mkvmsg {
  author : ustr; message : ustr; original_message : ustr; timestamp : ustr; index : Z }.

(** [WhatsAppProcessor.__init__]: [self.system_messages] *)
Definition system_messages : list ustr :=
  [u "mensagem apagada"; u "media omitted"; u "audio omitted"; u "image omitted";
   u "document omitted"; u "video omitted"; u "sticker omitted"; u "gif omitted";
   u "contact card omitted"; u "location omitted"; u "você foi adicionado"; u "saiu";
   u "entrou no grupo"; u "mudou o assunto"; u "mudou a descrição";
   u "criou o grupo"; u "removeu"; u "adicionado"; u "chamada de voz";
   u "chamada de vídeo"; u "perdida"; u "ocupado"; u "rejeitada"].

Definition not_nl : Z -> bool := fun c => negb (c =? 10).
Definition dotstar : rx := RRep not_nl 0 None.

(** [system_patterns] of [is_system_message] *)
Definition system_patterns : list rx :=
  [ (* ^\s*\[.*\]\s*$ *)
    seqs [RRep is_space 0 None; chr 91; dotstar; chr 93; RRep is_space 0 None; REnd];
    (* ^chamada (perdida|rejeitada)$ *)
    seqs [lit (u "chamada "); RGrp 1 (RAlt (lit (u "perdida")) (lit (u "rejeitada"))); REnd];
    (* ^você foi adicionado$ *)
    seqs [lit (u "você foi adicionado"); REnd];
    (* ^.* saiu$ *)
    seqs [dotstar; lit (u " saiu"); REnd];
    (* ^.* mudou .*para.*$ *)
    seqs [dotstar; lit (u " mudou "); dotstar; lit (u "para"); dotstar; REnd] ].

Definition is_some {A} (o : option A) : bool := match o with Some _ => true | None => false end.

(** [WhatsAppProcessor.is_system_message] *)
Definition is_system_message (m : ustr) : bool :=
  match m with
  | [] => true
  | _ =>
      if py_len (strip m) <? 2 then true
      else
        let message_lower := strip (lower m) in
        existsb (fun sys_msg => ustr_eqb message_lower sys_msg
                                || startswith message_lower sys_msg) system_messages
        || existsb (fun pat => is_some (re_match pat message_lower)) system_patterns
  end.

(** [r'[\x00-\x08\x0b\x0c\x0e-\x1f\x7f]'] *)
Definition is_ctrl (c : Z) : bool :=
  ((0 <=? c) && (c <=? 8)) || (c =? 11) || (c =? 12) || ((14 <=? c) && (c <=? 31))
  || (c =? 127).

(** [re.sub(r'\s+', ' ', m)] *)
Fixpoint collapse_ws (in_ws : bool) (s : ustr) : ustr :=
  match s with
  | [] => []
  | c :: s' =>
      if is_space c then (if in_ws then collapse_ws true s' else 32 :: collapse_ws true s')
      else c :: collapse_ws false s'
  end.

(** [r'http[s]?://[^\s]{100,}'] *)
Definition link_rx : rx :=
  seqs [lit (u "http"); RRep (Z.eqb 115) 0 (Some 1%nat); lit (u "://");
        RRep (fun c => negb (is_space c)) 100 None].

(** [re.sub(link_rx, '[link_longo]', m)]; every match is non-empty *)
Fixpoint sub_links (fuel : nat) (s : ustr) : ustr :=
  match fuel with
  | O => s
  | S f =>
      match s with
      | [] => []
      | c :: s' =>
          match re_match link_rx s with
          | Some (rest, _) => u "[link_longo]" ++ sub_links f rest
          | None => c :: sub_links f s'
          end
      end
  end.

(** [WhatsAppProcessor.clean_message] *)
Definition clean_message (m : ustr) : ustr :=
  match m with
  | [] => []
  | _ =>
      let m1 := filter (fun c => negb (is_ctrl c)) m in
      let m2 := collapse_ws false m1 in
      let m3 := if (200 <? py_len m2) && contains m2 (u "http")
                then sub_links (length m2) m2 else m2 in
      strip m3
  end.

(** Stage 2 of [create_whatsapp_database] ("filtragem conservadora"):
    [valid_messages]; [i] is the position in the JSON list. The counters
    [system_count] and [empty_count] are only printed. *)
Fixpoint filter_messages (i : Z) (data : list raw_item) : list vmsg :=
  match data with
  | [] => []
  | item :: rest =>
      let author := get_or (ri_author item) (u "Desconhecido") in
      let message := strip (get_or (ri_message item) []) in
      let timestamp := get_or (ri_timestamp item) [] in
      if py_len message <? 1 then filter_messages (i + 1) rest
      else if is_system_message message then filter_messages (i + 1) rest
      else mkvmsg author (clean_message message) message timestamp i
           :: filter_messages (i + 1) rest
  end.

Definition valid_messages (data : list raw_item) : list vmsg := filter_messages 0 data.

(** The message filter of [preprocess_whatsapp_data] in [src/rag.py]
    (lines 46-67; [src/app.py] has the same one): minimum length 3 and a
    substring test against six phrases. *)
Definition rag_system_messages : list ustr :=
  [u "mensagem apagada"; u "media omitted"; u "audio omitted"; u "image omitted";
   u "document omitted"; u "video omitted"].

Definition rag_keeps (item : raw_item) : bool :=
  let message := strip (get_or (ri_message item) []) in
  if py_len message <? 3 then false
  else negb (existsb (fun sys_msg => contains (lower message) sys_msg) rag_system_messages).

(** ** [WhatsAppProcessor.detect_conversation_boundaries_conservative] *)

(** [date.toordinal()] *)
Definition days_before_year (y : Z) : Z :=
  let y1 := y - 1 in y1 * 365 + y1 / 4 - y1 / 100 + y1 / 400.

Fixpoint days_before_month_aux (y m : Z) (k : nat) : Z :=
  match k with
  | O => 0
  | S k' => days_in_month y m + days_before_month_aux y (m + 1) k'
  end.

Definition days_before_month (y m : Z) : Z := days_before_month_aux y 1 (Z.to_nat (m - 1)).

Definition toordinal (d : datetime) : Z :=
  days_before_year (dt_year d) + days_before_month (dt_year d) (dt_month d) + dt_day d.

(** a [datetime] in microseconds *)
Definition to_us (d : datetime) : Z :=
  ((toordinal d * 86400 + dt_hour d * 3600 + dt_minute d * 60 + dt_second d) * 1000000
   + dt_microsecond d).

(** [(current_time - last_time).total_seconds() / 3600 > 24]. The difference
    is a whole number of microseconds [x]; the float [x / 10^6 / 3600] exceeds
    [24] exactly when [x > 24 * 3600 * 10^6] (near the threshold the rounding
    error is far below the distance to [24]). *)
Definition gap_over_24h (current_time last_time : datetime) : bool :=
  86400000000 <? to_us current_time - to_us last_time.

Fixpoint mem (x : ustr) (l : list ustr) : bool :=
  match l with [] => false | y :: l' => ustr_eqb x y || mem x l' end.

(** the elements of [set(l)] (order irrelevant for [len] and [in]) *)
Fixpoint nub (l : list ustr) : list ustr :=
  match l with [] => [] | x :: l' => if mem x l' then nub l' else x :: nub l' end.

(** [l[-n:]] *)
Definition lastn {A} (n : nat) (l : list A) : list A := skipn (length l - n) l.

(** the three criteria computing [should_split] *)
Definition should_split (last_msg : vmsg) (current_conversation : list vmsg)
    (message : vmsg) : bool :=
  let current_time := parse_timestamp (timestamp message) in
  let last_time := parse_timestamp (timestamp last_msg) in
  let c1 := match current_time, last_time with
            | Some ct, Some lt => gap_over_24h ct lt
            | _, _ => false
            end in
  let c2 := (100 <? length current_conversation)%nat in
  let recent_authors := nub (map author (lastn 20 current_conversation)) in
  let c3 := (2 <? length recent_authors)%nat && negb (mem (author message) recent_authors) in
  c1 || c2 || c3.

(** state of the loop: ([conversations], [current_conversation]) *)
Definition seg_state := (list (list vmsg) * list vmsg)%type.

Definition seg_step (st : seg_state) (message : vmsg) : seg_state :=
  let (conversations, current_conversation) := st in
  match rev current_conversation with
  | [] => (conversations, [message])
  | last_msg :: _ =>
      if should_split last_msg current_conversation message
         && (5 <=? length current_conversation)%nat
      then (conversations ++ [current_conversation], [message])
      else (conversations, current_conversation ++ [message])
  end.

Definition seg_run (messages : list vmsg) : seg_state := fold_left seg_step messages ([], []).

Definition detect_conversation_boundaries_conservative (messages : list vmsg)
    : list (list vmsg) :=
  match messages with
  | [] => []
  | _ =>
      let (conversations, current_conversation) := seg_run messages in
      if (5 <=? length current_conversation)%nat
      then conversations ++ [current_conversation] else conversations
  end.

(** ** [WhatsAppProcessor.create_overlapping_chunks] *)

(** [l[a:b]] *)
Definition py_slice {A} (l : list A) (a b : Z) : list A :=
  let n := Z.of_nat (length l) in
  let norm x := if x <? 0 then Z.max 0 (x + n) else Z.min x n in
  let a' := norm a in
  let b' := norm b in
  if a' <? b' then firstn (Z.to_nat (b' - a')) (skipn (Z.to_nat a') l) else [].

(** [range(0, n, step)] for [n >= 0] *)
Definition py_range0 (n step : Z) : res (list Z) :=
  if step =? 0 then Raise ValueError
  else if step <? 0 then Ret []
  else Ret (map (fun j => step * Z.of_nat j) (seq 0 (Z.to_nat ((n + step - 1) / step)))).

Definition create_overlapping_chunks {A} (messages : list A) (chunk_size overlap : Z)
    : res (list (list A)) :=
  match messages with
  | [] => Ret []
  | _ =>
      match py_range0 (Z.of_nat (length messages)) (chunk_size - overlap) with
      | Raise e => Raise e
      | Ret starts =>
          Ret (filter (fun chunk => (5 <=? length chunk)%nat)
                 (map (fun i => py_slice messages i (i + chunk_size)) starts))
      end
  end.

(** ** [WhatsAppProcessor.extract_keywords] *)

(** [re.findall(r'\b\w+\b', s)]: the maximal runs of word characters *)
Fixpoint findall_words (s : ustr) (cur : ustr) : list ustr :=
  match s with
  | [] => match cur with [] => [] | _ => [rev cur] end
  | c :: s' =>
      if is_word c then findall_words s' (c :: cur)
      else match cur with
           | [] => findall_words s' []
           | _ => rev cur :: findall_words s' []
           end
  end.

Definition stopwords : list ustr :=
  [u "de"; u "a"; u "o"; u "que"; u "e"; u "do"; u "da"; u "em"; u "um"; u "para";
   u "é"; u "com"; u "não"; u "uma"; u "os"; u "no"; u "se"; u "na"; u "por";
   u "mais"; u "as"; u "dos"; u "como"; u "mas"; u "foi"; u "ao"; u "ele"; u "das";
   u "tem"; u "à"; u "seu"; u "sua"; u "ou"; u "ser"; u "quando"; u "muito";
   u "nos"; u "já"; u "eu"; u "também"; u "só"; u "pelo"; u "pela"; u "até";
   u "isso"; u "ela"; u "entre"; u "era"; u "depois"; u "sem"; u "mesmo"; u "aos";
   u "ter"; u "seus"; u "suas"; u "você"; u "vocês"; u "meu"; u "minha";
   u "nosso"; u "nossa"; u "dele"; u "dela"; u "vou"; u "vai"; u "vamos";
   u "então"; u "aqui"; u "lá"; u "onde"; u "porque"; u "ainda"; u "bem"; u "só";
   u "sim"; u "não"; u "né"; u "ok"; u "kkk"; u "kkkk"; u "rs"; u "rsrs"].

(** [word_count[word] += 1] on a [defaultdict] kept in insertion order *)
Fixpoint incr (w : ustr) (wc : list (ustr * nat)) : list (ustr * nat) :=
  match wc with
  | [] => [(w, 1%nat)]
  | (k, n) :: wc' => if ustr_eqb k w then (k, S n) :: wc' else (k, n) :: incr w wc'
  end.

(** insertion behind every entry of greater or equal count: the stable
    [sorted(..., key=word_count.get, reverse=True)] *)
Fixpoint insert_desc (e : ustr * nat) (l : list (ustr * nat)) : list (ustr * nat) :=
  match l with
  | [] => [e]
  | e' :: l' => if (snd e <=? snd e')%nat then e' :: insert_desc e l' else e :: l
  end.

Definition sort_desc (wc : list (ustr * nat)) : list (ustr * nat) :=
  fold_left (fun acc e => insert_desc e acc) wc [].

Definition count_words (words : list ustr) : list (ustr * nat) :=
  fold_left (fun wc word =>
               if (2 <? length word)%nat && negb (mem word stopwords) then incr word wc
               else wc) words [].

Definition extract_keywords (text : ustr) : list ustr :=
  map fst (sort_desc (count_words (findall_words (lower text) []))).

(** ** Python sets: [list(set(authors))]

    The iteration order of a [set] of [str] is left open by the language.
    [set_list] below is CPython 3.11's [setobject.c] ([set_add_entry],
    [set_insert_clean], [set_table_resize] of an open-addressing table with
    linear probes of 9 and perturbation shift 5), parametrised by the string
    hash seen as an unsigned 64-bit number. *)

Definition slot := option (ustr * Z).

Inductive probe_res := PFound | PEmpty (j : nat) | PNone.

(** the entries [j .. j+cnt]; [cmp] compares keys (as [set_add_entry]),
    without it only an empty entry is searched (as [set_insert_clean]) *)
Fixpoint scan (cmp : bool) (t : list slot) (key : ustr) (hash : Z) (j cnt : nat)
    : probe_res :=
  match nth j t None with
  | None => PEmpty j
  | Some (k, hk) =>
      if cmp && (hk =? hash) && ustr_eqb k key then PFound
      else match cnt with O => PNone | S c => scan cmp t key hash (S j) c end
  end.

Fixpoint probe (fuel : nat) (cmp : bool) (t : list slot) (key : ustr) (hash mask i perturb : Z)
    : probe_res :=
  match fuel with
  | O => PNone
  | S f =>
      let probes := if i + 9 <=? mask then 9%nat else 0%nat in
      match scan cmp t key hash (Z.to_nat i) probes with
      | PNone =>
          let perturb' := Z.shiftr perturb 5 in
          probe f cmp t key hash mask (Z.land (i * 5 + 1 + perturb') mask) perturb'
      | r => r
      end
  end.

Definition set_replace (t : list slot) (j : nat) (v : slot) : list slot :=
  firstn j t ++ v :: skipn (S j) t.

Record pyset := mkset { table : list slot; fill : nat; used : nat }.

Definition probe_from (cmp : bool) (t : list slot) (key : ustr) (hash : Z) : probe_res :=
  let mask := Z.of_nat (length t) - 1 in
  probe (length t + 64) cmp t key hash mask (Z.land hash mask) hash.

Definition set_insert_clean (t : list slot) (key : ustr) (hash : Z) : list slot :=
  match probe_from false t key hash with
  | PEmpty j => set_replace t j (Some (key, hash))
  | _ => t
  end.

Fixpoint grow_size (fuel : nat) (minused n : nat) : nat :=
  match fuel with
  | O => n
  | S f => if (n <=? minused)%nat then grow_size f minused (2 * n) else n
  end.

Definition set_table_resize (so : pyset) (minused : nat) : pyset :=
  let newtable :=
    fold_left (fun t e => match e with
                          | Some (k, hk) => set_insert_clean t k hk
                          | None => t
                          end)
              (table so) (repeat None (grow_size 64 minused 8)) in
  mkset newtable (used so) (used so).

Definition set_add_entry (h : ustr -> Z) (so : pyset) (key : ustr) : pyset :=
  let hash := h key in
  let t := table so in
  let mask := Z.of_nat (length t) - 1 in
  match probe_from true t key hash with
  | PEmpty j =>
      let so' := mkset (set_replace t j (Some (key, hash))) (S (fill so)) (S (used so)) in
      if Z.of_nat (fill so') * 5 <? mask * 3 then so'
      else set_table_resize so'
             (if 50000 <? Z.of_nat (used so') then used so' * 2 else used so' * 4)
  | _ => so
  end.

(** [list(set(xs))] *)
Definition set_list (h : ustr -> Z) (xs : list ustr) : list ustr :=
  let so := fold_left (set_add_entry h) xs (mkset (repeat None 8) 0 0) in
  flat_map (fun e => match e with Some (k, _) => [k] | None => [] end) (table so).

(** [hash(name) % 2**64] of CPython 3.11 with [PYTHONHASHSEED=0], for the
    names used in the examples (other strings are not used). *)
Definition hash_seed0 (s : ustr) : Z :=
  if ustr_eqb s (u "Ana") then 6285944062859337145
  else if ustr_eqb s (u "Bia") then 17173576415739820121
  else if ustr_eqb s (u "Duda") then 13342589584863211069
  else if ustr_eqb s (u "Eva") then 15348642103277069614
  else if ustr_eqb s (u "Caio") then 17160484867070740566
  else if ustr_eqb s (u "Gil") then 3562092963962008690
  else if ustr_eqb s (u "Lia") then 7403811354307406300
  else 0.

(** ** Document builder of [create_whatsapp_database] *)

(** [sep.join(l)] *)
Fixpoint py_join (sep : ustr) (l : list ustr) : ustr :=
  match l with
  | [] => []
  | [x] => x
  | x :: l' => x ++ sep ++ py_join sep l'
  end.

Fixpoint digits_of (fuel : nat) (n : Z) (acc : ustr) : ustr :=
  match fuel with
  | O => acc
  | S f => let acc' := (48 + n mod 10) :: acc in
           if n <? 10 then acc' else digits_of f (n / 10) acc'
  end.

(** [str(n)] for [n >= 0] *)
Definition py_str_int (n : Z) : ustr := digits_of 64 n [].

(** the scalar metadata of a document ([start_time]/[end_time] of the
    conversation documents are not modelled) *)
Record metadata := mkmeta {
  md_type : ustr; md_doc_id : ustr; md_participants : ustr;
  md_message_count : nat; md_keywords : ustr }.

(** The set iteration is a parameter [lset] ([list(set(...))]). *)
Definition doc_metadata (lset : list ustr -> list ustr) (kind : ustr) (doc_id : Z)
    (unit : list vmsg) : metadata :=
  let participants := lset (map author unit) in
  let all_text := py_join (u " ") (map message unit) in
  let keywords := extract_keywords all_text in
  mkmeta kind (py_str_int doc_id) (py_join (u ", ") participants) (length unit)
    (py_join (u ", ") (firstn 10 keywords)).

(** Stage 4: natural conversations (those under 5 messages skipped), then
    overlapping chunks, one [doc_id] counter for both. *)
Fixpoint conv_docs (lset : list ustr -> list ustr) (doc_id : Z) (cs : list (list vmsg))
    : list metadata * Z :=
  match cs with
  | [] => ([], doc_id)
  | c :: cs' =>
      if (length c <? 5)%nat then conv_docs lset doc_id cs'
      else let (ds, n) := conv_docs lset (doc_id + 1) cs' in
           (doc_metadata lset (u "conversation") doc_id c :: ds, n)
  end.

Fixpoint chunk_docs (lset : list ustr -> list ustr) (doc_id : Z) (cs : list (list vmsg))
    : list metadata :=
  match cs with
  | [] => []
  | c :: cs' => doc_metadata lset (u "chunk") doc_id c :: chunk_docs lset (doc_id + 1) cs'
  end.

Definition build_documents (lset : list ustr -> list ustr)
    (conversations chunks : list (list vmsg)) : list metadata :=
  let (ds, n) := conv_docs lset 0 conversations in ds ++ chunk_docs lset n chunks.

(** ** Stage 5 of [create_whatsapp_database]: batched submission

    The vector store is a stub: [fails b] says whether the store call for
    batch number [b] (numbered from 1 as the code prints it) raises. The
    store content is the list of documents it received. *)

Inductive event :=
| EvConfig (total_docs batch_size total_batches : Z)  (* "Total de documentos" ... *)
| EvCreateFirst                                       (* "Criando banco com primeiro batch" *)
| EvFirstOk                                           (* "Primeiro batch criado!" *)
| EvCreateErr                                         (* "Erro ao criar banco" *)
| EvBatch (k total start last : Z)                    (* "Batch k/total (docs start-last)" *)
| EvProgress (k total : Z)                            (* "Progresso: (k/total)*100 %" *)
| EvBatchErr (k : Z)                                  (* "Erro no batch k" *)
| EvDone.                                             (* "BANCO CRIADO COM SUCESSO!" *)

Section Ingest.
Context {D : Type}.

(** one iteration of [for batch_num in range(1, total_batches)] *)
Definition batch_step (fails : Z -> bool) (documents : list D) (total_batches : Z)
    (st : list D * list event) (batch_num : Z) : list D * list event :=
  let (store, log) := st in
  let batch_size := 10 in
  let start_idx := batch_num * batch_size in
  let end_idx := Z.min (start_idx + batch_size) (Z.of_nat (length documents)) in
  let log := log ++ [EvBatch (batch_num + 1) total_batches start_idx (end_idx - 1)] in
  if fails (batch_num + 1) then (store, log ++ [EvBatchErr (batch_num + 1)])
  else (store ++ py_slice documents start_idx end_idx,
        log ++ [EvProgress (batch_num + 1) total_batches]).

(** [range(a, b)] *)
Definition py_range (a b : Z) : list Z := map (fun j => a + Z.of_nat j) (seq 0 (Z.to_nat (b - a))).

(** The returned [vector_db] ([None] when the first batch fails) and the
    printed lines. *)
Definition ingest (fails : Z -> bool) (documents : list D) : option (list D) * list event :=
  let batch_size := 10 in
  let n := Z.of_nat (length documents) in
  let total_batches := (n + batch_size - 1) / batch_size in
  let log := [EvConfig n batch_size total_batches; EvCreateFirst] in
  if fails 1 then (None, log ++ [EvCreateErr])
  else
    let vector_db := py_slice documents 0 batch_size in
    let (store, log) :=
      fold_left (batch_step fails documents total_batches) (py_range 1 total_batches)
        (vector_db, log ++ [EvFirstOk]) in
    (Some store, log ++ [EvDone]).

(** [create_vector_database_with_logging] of [src/app.py]: batches of 5, the
    first one outside any [try] (its failure propagates), the later ones
    with [except Exception: print]. Here [fails i] concerns the batch
    starting at document [i]; the log lists the failed batch numbers. *)
Definition create_vector_database_with_logging (fails : Z -> bool) (documents : list D)
    : res (list D * list Z) :=
  let batch_size := 5 in
  let total_docs := Z.of_nat (length documents) in
  if fails 0 then Raise StoreError
  else
    let starts := filter (fun i => Z.eqb (i mod batch_size) 0) (py_range batch_size total_docs) in
    Ret (fold_left (fun (st : list D * list Z) (i : Z) =>
                      let (store, errs) := st in
                      if fails i then (store, errs ++ [i / batch_size + 1])
                      else (store ++ py_slice documents i (i + batch_size), errs))
                   starts (py_slice documents 0 batch_size, ([] : list Z))).

End Ingest.

(** ** Definitions following the spec's words (for comparison) *)

(** The participants string the spec describes: authors deduplicated in
    first-seen order. *)
Fixpoint first_seen_aux (seen : list ustr) (l : list ustr) : list ustr :=
  match l with
  | [] => []
  | x :: l' => if mem x seen then first_seen_aux seen l' else x :: first_seen_aux (x :: seen) l'
  end.

Definition first_seen (l : list ustr) : list ustr := first_seen_aux [] l.

(** The window count the spec gives: [ceil(max(0, N - overlap) / (size - overlap))]
    for size 40 and overlap 15. *)
Definition spec_window_count (n : Z) : Z := (Z.max 0 (n - 15) + 24) / 25.

(** a segment or window of the minimum length 5 *)
Definition long_enough (c : list vmsg) : Prop := (5 <= length c)%nat.

(** placeholder for [last] of an empty list *)
Definition no_msg : vmsg := mkvmsg [] [] [] [] 0.

(** example messages *)
Definition ex_msg (a : string) (i : Z) : vmsg :=
  mkvmsg (u a) (u "ola") (u "ola") (u "15/03/2023, 14:30") i.

Definition ex_conv : list vmsg :=
  [ex_msg "Duda" 0; ex_msg "Ana" 1; ex_msg "Duda" 2; ex_msg "Ana" 3; ex_msg "Duda" 4].

Definition ex_pre : list vmsg :=
  [ex_msg "Ana" 0; ex_msg "Bia" 1; ex_msg "Caio" 2; ex_msg "Ana" 3; ex_msg "Bia" 4].

Definition ex_next : vmsg := ex_msg "Duda" 5.

(** message [k] of the stream lies in a window of [ws], the slice
    [messages[i:i+size]] *)
Definition window_covers (size : nat) (ws : list (list vmsg)) (messages : list vmsg)
    (k : nat) : Prop :=
  exists w i, In w ws /\ w = firstn size (skipn i messages)
              /\ (i <= k)%nat /\ (k < i + length w)%nat.

(** ** Further code of the repository *)

(** the characters a regular expression can consume all satisfy [q] *)
Fixpoint rx_cls (q : Z -> Prop) (r : rx) : Prop :=
  match r with
  | RCls p => forall c, p c = true -> q c
  | RRep p _ _ => forall c, p c = true -> q c
  | RSeq r1 r2 | RAlt r1 r2 => rx_cls q r1 /\ rx_cls q r2
  | REnd => True
  | RGrp _ r1 => rx_cls q r1
  end.

(** no two adjacent whitespace characters *)
Fixpoint no_double_space (s : ustr) : Prop :=
  match s with
  | c :: ((d :: _) as t) => (is_space c = false \/ is_space d = false) /\ no_double_space t
  | _ => True
  end.

(** whitespace normalised: every whitespace character is a blank, no two
    are adjacent, and none starts or ends the text *)
Definition ws_normal (s : ustr) : Prop :=
  (forall c, In c s -> is_space c = true -> c = 32)
  /\ no_double_space s
  /\ (forall c t, s = c :: t -> is_space c = false)
  /\ (forall c t, s = t ++ [c] -> is_space c = false).

(** [clean_message] of [src/rag.py] and [src/app.py]:
    [re.sub(r'[^\w\s\.,!?;:()\-áàâãéèêíïóôõöúçñ]', ' ', m)], then
    [re.sub(r'\s+', ' ', m)] and [strip()]. The class [\w] of a [str]
    pattern covers all Unicode letters and digits; it is a parameter
    [is_w] here. *)
Section RagClean.
Variable is_w : Z -> bool.

Definition rag_kept_chars : ustr := u ".,!?;:()-áàâãéèêíïóôõöúçñ".

Definition rag_allowed (c : Z) : bool :=
  is_w c || is_space c || existsb (Z.eqb c) rag_kept_chars.

Definition rag_clean_message (m : ustr) : ustr :=
  strip (collapse_ws false (map (fun c => if rag_allowed c then c else 32) m)).
End RagClean.

(** the message dicts of [preprocess_whatsapp_data] ([src/rag.py] and
    [src/app.py]) *)
Record rmsg := mkrmsg { r_author : ustr; r_message : ustr; r_timestamp : ustr; r_index : Z }.

(** a [Document] of [preprocess_whatsapp_data]: its metadata, and the
    messages its [page_content] ([create_conversation_context]) is built
    from *)
Record rdoc := mkrdoc {
  rd_conversation_id : ustr; rd_start_time : ustr; rd_end_time : ustr;
  rd_message_count : nat; rd_participants : ustr; rd_messages : list rmsg }.

Definition rag_doc (lset : list ustr -> list ustr) (conversation_id : Z) (w : list rmsg)
    : rdoc :=
  mkrdoc (py_str_int conversation_id) (r_timestamp (hd (mkrmsg [] [] [] 0) w))
    (r_timestamp (last w (mkrmsg [] [] [] 0))) (length w)
    (py_join (u ", ") (lset (map r_author w))) w.

Definition rag_msg (i : Z) (item : raw_item) : rmsg :=
  mkrmsg (get_or (ri_author item) (u "Desconhecido")) (strip (get_or (ri_message item) []))
    (get_or (ri_timestamp item) []) i.

(** [should_start_new_conversation] of [src/rag.py] *)
Definition should_start_new_conversation (last_time current_time : ustr) (window_size : nat)
    : bool := (20 <? window_size)%nat.

(** the loop state of [src/rag.py]'s [preprocess_whatsapp_data]:
    documents, [conversation_window], [last_timestamp] ([None] and [''] are
    both the empty text: only its truth value is used) and
    [conversation_id] *)
Record rag_state := mkrag {
  rg_docs : list rdoc; rg_window : list rmsg; rg_last : ustr; rg_id : Z }.

Definition rag_step (lset : list ustr -> list ustr) (st : rag_state) (i : Z) (item : raw_item)
    : rag_state :=
  if negb (rag_keeps item) then st
  else
    let m := rag_msg i item in
    let current_time := r_timestamp m in
    let st :=
      match rg_last st with
      | _ :: _ =>
          if should_start_new_conversation (rg_last st) current_time (length (rg_window st))
          then
            if (3 <=? length (rg_window st))%nat
            then mkrag (rg_docs st ++ [rag_doc lset (rg_id st) (rg_window st)]) []
                   (rg_last st) (rg_id st + 1)
            else mkrag (rg_docs st) [] (rg_last st) (rg_id st)
          else st
      | [] => st
      end in
    mkrag (rg_docs st) (rg_window st ++ [m]) current_time (rg_id st).

Fixpoint rag_loop (lset : list ustr -> list ustr) (st : rag_state) (i : Z)
    (data : list raw_item) : rag_state :=
  match data with
  | [] => st
  | item :: data' => rag_loop lset (rag_step lset st i item) (i + 1) data'
  end.

(** [preprocess_whatsapp_data] of [src/rag.py], after [json.load] *)
Definition rag_preprocess (lset : list ustr -> list ustr) (data : list raw_item) : list rdoc :=
  let st := rag_loop lset (mkrag [] [] [] 0) 0 data in
  if (3 <=? length (rg_window st))%nat
  then rg_docs st ++ [rag_doc lset (rg_id st) (rg_window st)]
  else rg_docs st.

(** [preprocess_whatsapp_data] of [src/app.py], after [json.load]: fixed
    windows of 10 messages, and the set of all authors other than
    ["Desconhecido"], skipped messages included *)
Record app_state := mkapp {
  ap_docs : list rdoc; ap_participants : list ustr; ap_window : list rmsg; ap_id : Z }.

Definition app_step (lset : list ustr -> list ustr) (st : app_state) (i : Z) (item : raw_item)
    : app_state :=
  let author := get_or (ri_author item) (u "Desconhecido") in
  let ps := if negb (ustr_eqb author (u "Desconhecido")) then ap_participants st ++ [author]
            else ap_participants st in
  if negb (rag_keeps item) then mkapp (ap_docs st) ps (ap_window st) (ap_id st)
  else
    let w := ap_window st ++ [rag_msg i item] in
    if (10 <=? length w)%nat then mkapp (ap_docs st ++ [rag_doc lset (ap_id st) w]) ps [] (ap_id st + 1)
    else mkapp (ap_docs st) ps w (ap_id st).

Fixpoint app_loop (lset : list ustr -> list ustr) (st : app_state) (i : Z)
    (data : list raw_item) : app_state :=
  match data with
  | [] => st
  | item :: data' => app_loop lset (app_step lset st i item) (i + 1) data'
  end.

(** the returned [(documents, list(participants))]; [participants] is a
    [set] filled by [add] in input order, which ends up as [set(added)] *)
Definition app_preprocess (lset : list ustr -> list ustr) (data : list raw_item)
    : list rdoc * list ustr :=
  let st := app_loop lset (mkapp [] [] [] 0) 0 data in
  let docs := if (3 <=? length (ap_window st))%nat
              then ap_docs st ++ [rag_doc lset (ap_id st) (ap_window st)]
              else ap_docs st in
  (docs, lset (ap_participants st)).

(** [create_vector_database_with_logging] of [src/rag.py]: batches of 10,
    no [try] around any store call; [fails i] concerns the batch starting
    at document [i]. *)
Definition rag_create_vector_database (fails : Z -> bool) {D} (documents : list D)
    : res (list D) :=
  let batch_size := 10 in
  let total_docs := Z.of_nat (length documents) in
  if fails 0 then Raise StoreError
  else
    fold_left (fun (st : res (list D)) (i : Z) =>
                 match st with
                 | Raise e => Raise e
                 | Ret store =>
                     if fails i then Raise StoreError
                     else Ret (store ++ py_slice documents i (i + batch_size))
                 end)
      (filter (fun i => Z.eqb (i mod batch_size) 0) (py_range batch_size total_docs))
      (Ret (py_slice documents 0 batch_size)).

(** the number of occurrences of [w] in [ws] *)
Definition word_occ (w : ustr) (ws : list ustr) : nat := length (filter (ustr_eqb w) ws).

(** the exception raised by the statistics line of [create_whatsapp_database]
    ([len(valid_messages)/len(data)]) on an empty message list *)
Inductive py_exc := ZeroDivisionError.

(** [create_whatsapp_database] after [json.load]: filtering, the two
    strategies, the document builder and the batched submission; the
    result is the exception raised or the returned [vector_db] *)
Definition create_whatsapp_database (lset : list ustr -> list ustr) (fails : Z -> bool)
    (data : list raw_item) : py_exc + option (list metadata) :=
  let valid := valid_messages data in
  match data with
  | [] => inl ZeroDivisionError
  | _ =>
      let conversations := detect_conversation_boundaries_conservative valid in
      match create_overlapping_chunks valid 40 15 with
      | Raise _ => inr None  (* unreachable: the step 40 - 15 is not 0 *)
      | Ret chunks =>
          inr (fst (ingest fails (build_documents lset conversations chunks)))
      end
  end.

(** the test of [word_count[word] += 1] in [extract_keywords] *)
Definition kw_good (w : ustr) : bool := (2 <? length w)%nat && negb (mem w stopwords).

(** what the word counter holds after reading [prefix] *)
Definition wc_inv (prefix : list ustr) (wc : list (ustr * nat)) : Prop :=
  NoDup (map fst wc)
  /\ (forall k, In k (map fst wc) <-> In k prefix /\ kw_good k = true)
  /\ (forall k n, In (k, n) wc -> n = word_occ k prefix).

(** the order [sorted(..., key=word_count.get, reverse=True)] produces *)
Definition cnt_ge (a b : ustr * nat) : Prop := (snd b <= snd a)%nat.

(** the messages of [preprocess_whatsapp_data] ([src/rag.py], [src/app.py])
    that pass its filter, in input order, numbered from [i] *)
Fixpoint rag_kept (i : Z) (data : list raw_item) : list rmsg :=
  match data with
  | [] => []
  | item :: data' =>
      if rag_keeps item then rag_msg i item :: rag_kept (i + 1) data' else rag_kept (i + 1) data'
  end.

(** what the loop of rag.py's [preprocess_whatsapp_data] keeps: every
    document it has emitted has more than 20 messages, and the ids run
    [0, 1, ...] *)
Definition rag_inv (st : rag_state) : Prop :=
  Forall (fun d => (21 <= length (rd_messages d))%nat /\ rd_message_count d = length (rd_messages d))
    (rg_docs st)
  /\ map rd_conversation_id (rg_docs st) = map py_str_int (py_range 0 (Z.of_nat (length (rg_docs st))))
  /\ rg_id st = Z.of_nat (length (rg_docs st)).

(** the same loop when no kept message has an empty timestamp: no window
    grows beyond 21 messages *)
Definition rag_inv21 (st : rag_state) : Prop :=
  Forall (fun d => (length (rd_messages d) <= 21)%nat) (rg_docs st)
  /\ (length (rg_window st) <= 21)%nat
  /\ (rg_last st = [] -> rg_window st = []).

(** what the loop of app.py's [preprocess_whatsapp_data] keeps: documents
    of exactly 10 messages, a window of fewer than 10, ids [0, 1, ...] *)
Definition app_inv (st : app_state) : Prop :=
  Forall (fun d => length (rd_messages d) = 10%nat /\ rd_message_count d = length (rd_messages d))
    (ap_docs st)
  /\ (length (ap_window st) < 10)%nat
  /\ map rd_conversation_id (ap_docs st) = map py_str_int (py_range 0 (Z.of_nat (length (ap_docs st))))
  /\ ap_id st = Z.of_nat (length (ap_docs st)).

(** ** [format_response] of [src/app.py] *)

(** [s.replace(p, '')]: the occurrences of [p] are removed from left to
    right, without overlap; [fuel] bounds the number of steps *)
Fixpoint replace_empty_aux (fuel : nat) (p s : ustr) : ustr :=
  match fuel with
  | O => s
  | S f =>
      match s with
      | [] => []
      | c :: s' =>
          if startswith s p then replace_empty_aux f p (skipn (length p) s)
          else c :: replace_empty_aux f p s'
      end
  end.

Definition py_replace_empty (p s : ustr) : ustr := replace_empty_aux (length s) p s.

Definition technical_phrases : list ustr :=
  [u "Baseado nas conversas analisadas,";
   u "De acordo com o contexto fornecido,";
   u "Analisando as informações disponíveis,";
   u "Com base nos dados apresentados,";
   u "Segundo as conversas examinadas,"].

Definition default_reply : ustr := u "Não encontrei informações sobre isso nas conversas.".

(** ASCII capital, the class [[A-Z]] *)
Definition is_AZ (c : Z) : bool := (65 <=? c) && (c <=? 90).

(** from the start of [s], the longest run of whitespace is followed by a
    capital: the part [\s+(?=[A-Z])] of the split pattern (a shorter run
    is followed by whitespace, so backtracking finds no other match) *)
Fixpoint run_then_upper (s : ustr) : bool :=
  match s with
  | [] => false
  | d :: t => if is_space d then run_then_upper t else is_AZ d
  end.

(** [re.split(r'(?<=\.)\s+(?=[A-Z])', s)]: [prev] is the character before
    [s] (-1 at the start of the text), [skip] holds inside a matched run,
    [cur] is the current piece, reversed *)
Fixpoint split_sent (prev : Z) (skip : bool) (cur : ustr) (s : ustr) : list ustr :=
  match s with
  | [] => [rev cur]
  | c :: s' =>
      if skip && is_space c then split_sent c true cur s'
      else if negb skip && (prev =? 46) && is_space c && run_then_upper s
      then rev cur :: split_sent c true [] s'
      else split_sent c false (c :: cur) s'
  end.

(** [s.endswith('.') or s.endswith('!') or s.endswith('?')] *)
Definition ends_punct (s : ustr) : bool :=
  match rev s with
  | c :: _ => (c =? 46) || (c =? 33) || (c =? 63)
  | [] => false
  end.

(** the loop over [sentences]; [cur] is [current_paragraph] *)
Fixpoint para_loop (sentences : list ustr) (cur : list ustr) : list ustr :=
  match sentences with
  | [] => match cur with [] => [] | _ => [py_join [32] cur] end
  | s0 :: rest =>
      match strip s0 with
      | [] => para_loop rest cur
      | s =>
          let cur' := cur ++ [s] in
          if (2 <=? length cur')%nat && ends_punct s
          then py_join [32] cur' :: para_loop rest []
          else para_loop rest cur'
      end
  end.

(** [re.sub(r'\n{3,}', '\n\n', s)]; [n] newlines are pending *)
Fixpoint squeeze_nl (n : nat) (s : ustr) : ustr :=
  match s with
  | [] => repeat 10 (if (3 <=? n)%nat then 2%nat else n)
  | c :: s' =>
      if c =? 10 then squeeze_nl (S n) s'
      else repeat 10 (if (3 <=? n)%nat then 2%nat else n) ++ c :: squeeze_nl 0 s'
  end.

(** [str.islower()] and [str.upper()] on one character cover all of
    Unicode; they are parameters [is_lower] and [upper] here. *)
Section FormatResponse.
Variable is_lower : Z -> bool.
Variable upper : Z -> ustr.

(** [if response and response[0].islower(): response = response[0].upper() + response[1:]] *)
Definition capitalize_first (r : ustr) : ustr :=
  match r with
  | c :: r' => if is_lower c then upper c ++ r' else r
  | [] => []
  end.

(** the response before it is cut into sentences *)
Definition fr_clean (raw : ustr) : ustr :=
  let r := py_replace_empty (u "**") (py_replace_empty (u "*") raw) in
  let r := fold_left (fun r ph => py_replace_empty ph r) technical_phrases r in
  capitalize_first (strip (collapse_ws false r)).

Definition format_response (raw : ustr) : ustr :=
  match raw with
  | [] => default_reply
  | _ =>
      let sentences := split_sent (-1) false [] (fr_clean raw) in
      let paragraphs := para_loop sentences [] in
      strip (squeeze_nl 0 (py_join [10; 10] paragraphs))
  end.

End FormatResponse.

(** a piece of the sentence split: nonempty, no whitespace at either end *)
Definition sent_ok (p : ustr) : Prop :=
  p <> [] /\ (forall c t, p = c :: t -> is_space c = false)
  /\ (forall c t, p = t ++ [c] -> is_space c = false).

(** ** General lemmas *)

(** the windower's length filter, once reduced by [simpl], folded back *)
Ltac fold_leb5 :=
  lazymatch goal with
  | |- ?lhs = ?b =>
      lazymatch lhs with context [length ?w] => change ((5 <=? length w)%nat = b) end
  end.

Lemma ustr_eqb_eq : forall a b, ustr_eqb a b = true <-> a = b.
Proof.
  induction a as [|x a IH]; destruct b as [|y b]; simpl; split; intro H;
    try discriminate; try reflexivity.
  - apply andb_prop in H as [H1 H2]. apply Z.eqb_eq in H1. apply IH in H2. subst; reflexivity.
  - injection H as -> ->. rewrite Z.eqb_refl. simpl. apply IH. reflexivity.
Qed.

Lemma mem_In : forall x l, mem x l = true <-> In x l.
Proof.
  induction l as [|y l IH]; simpl; split; intro H; try contradiction; try discriminate.
  - apply orb_prop in H as [H|H].
    + left. symmetry. apply ustr_eqb_eq. exact H.
    + right. apply IH. exact H.
  - apply orb_true_intro. destruct H as [<-|H].
    + left. apply ustr_eqb_eq. reflexivity.
    + right. apply IH. exact H.
Qed.

Lemma nub_In : forall x l, In x (nub l) <-> In x l.
Proof.
  induction l as [|y l IH]; simpl; [tauto|].
  destruct (mem y l) eqn:E.
  - apply mem_In in E. rewrite IH. split; [tauto|]. intros [<-|H]; auto.
  - simpl. rewrite IH. tauto.
Qed.

Lemma nub_NoDup : forall l, NoDup (nub l).
Proof.
  induction l as [|y l IH]; simpl; [constructor|].
  destruct (mem y l) eqn:E; [exact IH|].
  constructor; [|exact IH].
  rewrite nub_In. intro H. apply mem_In in H. congruence.
Qed.

(** two duplicate-free lists with the same elements have the same length *)
Lemma NoDup_same_length : forall (a b : list ustr),
  NoDup a -> NoDup b -> (forall x, In x a <-> In x b) -> length a = length b.
Proof.
  intros a b Ha Hb H. apply Nat.le_antisymm; apply NoDup_incl_length; auto;
    intros x Hx; apply H; exact Hx.
Qed.

(** ** Boundary detector: the loop invariant *)

Lemma rev_last : forall {A} (l : list A) d, l <> [] -> exists t, rev l = last l d :: t.
Proof.
  intros A l d H. destruct (exists_last H) as [l' [x ->]].
  exists (rev l'). rewrite rev_app_distr, last_last. reflexivity.
Qed.

Lemma seg_step_spec : forall cs cur m cs' cur',
  Forall long_enough cs -> seg_step (cs, cur) m = (cs', cur') ->
  concat cs' ++ cur' = concat cs ++ cur ++ [m]
  /\ Forall long_enough cs' /\ cur' <> [] /\ (forall d, last cur' d = m).
Proof.
  intros cs cur m cs' cur' Hf Hs. unfold seg_step in Hs.
  destruct (rev cur) as [|lm t] eqn:Er.
  - apply (f_equal (@rev vmsg)) in Er. rewrite rev_involutive in Er. subst cur.
    injection Hs as <- <-. simpl.
    split; [reflexivity|]. split; [exact Hf|]. split; [discriminate|reflexivity].
  - destruct (should_split lm cur m && (5 <=? length cur)%nat) eqn:E;
      injection Hs as <- <-.
    + apply andb_prop in E as [_ E]. apply Nat.leb_le in E.
      rewrite concat_app. simpl. rewrite <- !app_assoc.
      split; [reflexivity|]. split; [|split; [discriminate|reflexivity]].
      apply Forall_app. split; [exact Hf|]. constructor; [exact E|constructor].
    + rewrite app_assoc. split; [reflexivity|]. split; [exact Hf|]. split.
      * intro H. destruct cur; discriminate.
      * intro d. apply last_last.
Qed.

Lemma seg_fold_spec : forall l cs cur cs' cur',
  Forall long_enough cs -> fold_left seg_step l (cs, cur) = (cs', cur') ->
  concat cs' ++ cur' = concat cs ++ cur ++ l
  /\ Forall long_enough cs'
  /\ (l <> [] -> cur' <> [] /\ forall d, last cur' d = last l d).
Proof.
  induction l as [|m l IH]; intros cs cur cs' cur' Hf Hr; cbn [fold_left] in Hr.
  - injection Hr as <- <-. rewrite !app_nil_r. split; [reflexivity|].
    split; [exact Hf|]. intro H; contradiction.
  - destruct (seg_step (cs, cur) m) as [cs1 cur1] eqn:E.
    destruct (seg_step_spec cs cur m cs1 cur1 Hf E) as [H1 [H2 [H3 H4]]].
    destruct (IH cs1 cur1 cs' cur' H2 Hr) as [I1 [I2 I3]].
    split; [|split].
    + rewrite I1, app_assoc, H1, <- !app_assoc. reflexivity.
    + exact I2.
    + intros _. destruct l as [|m' l'].
      * cbn [fold_left] in Hr. injection Hr as <- <-. split; [exact H3|].
        intro d. apply H4.
      * destruct (I3 ltac:(discriminate)) as [J1 J2]. split; [exact J1|].
        intro d. rewrite J2. reflexivity.
Qed.

Lemma seg_run_spec : forall messages cs cur,
  seg_run messages = (cs, cur) ->
  concat cs ++ cur = messages /\ Forall long_enough cs
  /\ (messages <> [] -> cur <> [] /\ forall d, last cur d = last messages d).
Proof.
  intros messages cs cur H.
  destruct (seg_fold_spec messages [] [] cs cur (Forall_nil _) H) as [H1 [H2 H3]].
  split; [exact H1|]. split; [exact H2|exact H3].
Qed.

Lemma seg_run_snoc : forall pre m, seg_run (pre ++ [m]) = seg_step (seg_run pre) m.
Proof. intros. unfold seg_run. rewrite fold_left_app. reflexivity. Qed.

Lemma detect_remainder : forall messages,
  exists rest,
    concat (detect_conversation_boundaries_conservative messages) ++ rest = messages
    /\ (length rest < 5)%nat
    /\ Forall (fun c => (5 <= length c)%nat)
         (detect_conversation_boundaries_conservative messages).
Proof.
  intros messages. destruct messages as [|m0 ms] eqn:Em.
  - exists []. simpl. split; [reflexivity|]. split; [lia|constructor].
  - rewrite <- Em. unfold detect_conversation_boundaries_conservative. rewrite Em.
    rewrite <- Em.
    destruct (seg_run messages) as [cs cur] eqn:Er.
    destruct (seg_run_spec messages cs cur Er) as [H1 [H2 _]].
    destruct (5 <=? length cur)%nat eqn:El.
    + exists []. rewrite app_nil_r, concat_app. simpl. rewrite app_nil_r.
      split; [exact H1|]. split; [lia|].
      apply Forall_app. split; [exact H2|]. constructor; [|constructor].
      apply Nat.leb_le. exact El.
    + exists cur. split; [exact H1|]. split; [apply Nat.leb_gt; exact El|exact H2].
Qed.

(** [C10] Concatenating the segments of the boundary detector, in order,
    gives the input list minus a trailing remainder of fewer than 5
    messages; every segment has at least 5 messages. *)
Theorem detect_partition : forall messages,
  exists rest,
    concat (detect_conversation_boundaries_conservative messages) ++ rest = messages
    /\ (length rest < 5)%nat
    /\ Forall (fun c => (5 <= length c)%nat)
         (detect_conversation_boundaries_conservative messages).
Proof. exact detect_remainder. Qed.

(** [C2] When the current accumulator holds at least 5 messages a forced
    split closes it and starts a new one with the incoming message;
    otherwise the message is appended. At the end of the stream the final
    accumulator is emitted when it has at least 5 messages, dropped
    otherwise. *)
Theorem split_honoured : forall pre m, pre <> [] ->
  match seg_run pre with
  | (cs, cur) =>
      (should_split (last cur no_msg) cur m = true -> (5 <= length cur)%nat ->
       seg_run (pre ++ [m]) = (cs ++ [cur], [m]))
      /\ ((should_split (last cur no_msg) cur m = false \/ (length cur < 5)%nat) ->
          seg_run (pre ++ [m]) = (cs, cur ++ [m]))
      /\ ((5 <= length cur)%nat ->
          detect_conversation_boundaries_conservative pre = cs ++ [cur])
      /\ ((length cur < 5)%nat -> detect_conversation_boundaries_conservative pre = cs)
  end.
Proof.
  intros pre m Hne. destruct (seg_run pre) as [cs cur] eqn:Er.
  destruct (seg_run_spec pre cs cur Er) as [_ [_ H3]].
  destruct (H3 Hne) as [Hc _].
  destruct (rev_last cur no_msg Hc) as [t Ht].
  assert (Hd : detect_conversation_boundaries_conservative pre =
               if (5 <=? length cur)%nat then cs ++ [cur] else cs).
  { unfold detect_conversation_boundaries_conservative.
    destruct pre; [contradiction|]. rewrite Er. reflexivity. }
  rewrite !seg_run_snoc, Er. unfold seg_step. rewrite Ht.
  split; [|split; [|split]].
  - intros Hs Hl. rewrite Hs. apply Nat.leb_le in Hl. rewrite Hl. reflexivity.
  - intros [Hs|Hl].
    + rewrite Hs. reflexivity.
    + apply Nat.leb_gt in Hl. rewrite Hl, andb_false_r. reflexivity.
  - intro Hl. rewrite Hd. apply Nat.leb_le in Hl. rewrite Hl. reflexivity.
  - intro Hl. rewrite Hd. apply Nat.leb_gt in Hl. rewrite Hl. reflexivity.
Qed.

(** [C1] For the message after a non-empty prefix of the stream, the last
    accumulated message is the previous message of the stream, and a split
    is forced exactly when (1) both messages have a parsed time more than
    24 hours apart, or (2) the accumulator holds more than 100 messages, or
    (3) the last 20 accumulated messages have more than 2 distinct authors
    and the incoming author is not among them. *)
Theorem split_criteria : forall pre m, pre <> [] ->
  match seg_run pre with
  | (cs, cur) =>
      last cur no_msg = last pre no_msg
      /\ (should_split (last cur no_msg) cur m = true <->
          (exists ct lt,
             parse_timestamp (timestamp m) = Some ct
             /\ parse_timestamp (timestamp (last pre no_msg)) = Some lt
             /\ to_us ct - to_us lt > 24 * 3600 * 1000000)
          \/ (length cur > 100)%nat
          \/ (exists authors,
                NoDup authors
                /\ (forall a, In a authors <-> In a (map author (lastn 20 cur)))
                /\ (length authors > 2)%nat
                /\ ~ In (author m) (map author (lastn 20 cur))))
  end.
Proof.
  intros pre m Hne. destruct (seg_run pre) as [cs cur] eqn:Er.
  destruct (seg_run_spec pre cs cur Er) as [_ [_ H3]].
  destruct (H3 Hne) as [_ Hl]. rewrite (Hl no_msg).
  split; [reflexivity|].
  unfold should_split. set (ra := map author (lastn 20 cur)).
  split.
  - intro H. apply orb_prop in H as [H|H]; [apply orb_prop in H as [H|H]|].
    + left. destruct (parse_timestamp (timestamp m)) as [ct|] eqn:E1;
        [|discriminate].
      destruct (parse_timestamp (timestamp (last pre no_msg))) as [lt|] eqn:E2;
        [|discriminate].
      exists ct, lt. split; [reflexivity|]. split; [reflexivity|].
      unfold gap_over_24h in H. apply Z.ltb_lt in H. lia.
    + right; left. apply Nat.ltb_lt in H. lia.
    + right; right. apply andb_prop in H as [H1 H2].
      exists (nub ra). split; [apply nub_NoDup|]. split; [intro a; apply nub_In|].
      split; [apply Nat.ltb_lt in H1; lia|].
      intro Hin. apply negb_true_iff in H2. rewrite <- nub_In, <- mem_In in Hin.
      congruence.
  - intros [[ct [lt [E1 [E2 H]]]]|[H|[authors [Hnd [Heq [Hlen Hnin]]]]]].
    + rewrite E1, E2. unfold gap_over_24h.
      assert ((86400000000 <? to_us ct - to_us lt) = true) as ->
        by (apply Z.ltb_lt; lia).
      reflexivity.
    + apply orb_true_intro. left. apply orb_true_intro. right. apply Nat.ltb_lt. lia.
    + apply orb_true_intro. right.
      assert (Hn : length (nub ra) = length authors).
      { apply NoDup_same_length; [apply nub_NoDup|exact Hnd|].
        intro a. rewrite nub_In, Heq. reflexivity. }
      rewrite Hn.
      apply andb_true_intro. split; [apply Nat.ltb_lt; lia|].
      apply negb_true_iff. destruct (mem (author m) (nub ra)) eqn:Em; [|reflexivity].
      rewrite mem_In, nub_In in Em. contradiction.
Qed.

(** ** Overlap windower *)

Lemma Ret_inj : forall {A} (a b : A), Ret a = Ret b -> b = a.
Proof. intros A a b H. injection H as ->. reflexivity. Qed.

Lemma py_slice_nat : forall {A} (l : list A) (i c : nat),
  py_slice l (Z.of_nat i) (Z.of_nat i + Z.of_nat c) = firstn c (skipn i l).
Proof.
  intros A l i c. unfold py_slice.
  rewrite (proj2 (Z.ltb_ge (Z.of_nat i) 0)) by lia.
  rewrite (proj2 (Z.ltb_ge (Z.of_nat i + Z.of_nat c) 0)) by lia.
  set (n := length l).
  destruct (Z.min (Z.of_nat i) (Z.of_nat n) <? Z.min (Z.of_nat i + Z.of_nat c) (Z.of_nat n))
    eqn:E.
  - apply Z.ltb_lt in E.
    assert (Hi : (i < n)%nat) by lia.
    rewrite (Z.min_l (Z.of_nat i) (Z.of_nat n)) by lia. rewrite Nat2Z.id.
    assert (Hk : Z.to_nat (Z.min (Z.of_nat i + Z.of_nat c) (Z.of_nat n) - Z.of_nat i)
                 = Nat.min c (length (skipn i l))).
    { rewrite length_skipn. fold n. lia. }
    rewrite Hk, <- firstn_firstn, firstn_all. reflexivity.
  - apply Z.ltb_ge in E.
    destruct c as [|c]; [reflexivity|].
    rewrite skipn_all2; [destruct c; reflexivity|]. fold n. lia.
Qed.

Lemma windows_40_15 : forall (messages : list vmsg), messages <> [] ->
  create_overlapping_chunks messages 40 15 =
  Ret (filter (fun chunk => (5 <=? length chunk)%nat)
         (map (fun j => firstn 40 (skipn (25 * j) messages))
              (seq 0 ((length messages + 24) / 25)))).
Proof.
  intros messages Hne. unfold create_overlapping_chunks.
  destruct messages as [|m0 ms]; [contradiction|].
  set (l := m0 :: ms). simpl (40 - 15). unfold py_range0. change (25 <? 0) with false. change (25 =? 0) with false. cbn iota beta.
  rewrite map_map. f_equal. f_equal.
  replace (Z.to_nat ((Z.of_nat (length l) + 25 - 1) / 25)) with ((length l + 24) / 25)%nat.
  - apply map_ext. intro j.
    replace (25 * Z.of_nat j) with (Z.of_nat (25 * j)) by lia.
    replace (Z.of_nat (25 * j) + 40) with (Z.of_nat (25 * j) + Z.of_nat 40) by reflexivity.
    apply py_slice_nat.
  - apply Nat2Z.inj. rewrite Z2Nat.id by (apply Z.div_pos; lia).
    rewrite Nat2Z.inj_div. f_equal. lia.
Qed.

Lemma window_length : forall (l : list vmsg) i,
  length (firstn 40 (skipn i l)) = Nat.min 40 (length l - i).
Proof. intros. rewrite length_firstn, length_skipn. reflexivity. Qed.

Lemma windows_cover : forall (messages : list vmsg) ws,
  create_overlapping_chunks messages 40 15 = Ret ws ->
  (5 <= length messages)%nat ->
  forall k, (k < length messages)%nat -> window_covers 40 ws messages k.
Proof.
  intros messages ws Hw H5 k Hk.
  assert (Hne : messages <> []) by (intro E; subst; simpl in H5; lia).
  rewrite (windows_40_15 messages Hne) in Hw. apply Ret_inj in Hw. subst ws.
  set (N := length messages) in *.
  set (j := (k / 25)%nat).
  assert (Hj1 : (25 * j <= k)%nat) by (apply Nat.Div0.mul_div_le).
  assert (Hj2 : (k < 25 * j + 25)%nat).
  { pose proof (Nat.div_mod k 25 ltac:(lia)). pose proof (Nat.mod_upper_bound k 25 ltac:(lia)).
    fold j in H. lia. }
  assert (Hin : forall j', (25 * j' < N)%nat -> In j' (seq 0 ((N + 24) / 25))).
  { intros j' Hj'. apply in_seq. split; [lia|].
    assert (S j' <= (N + 24) / 25)%nat; [|lia].
    apply Nat.div_le_lower_bound; lia. }
  destruct (Nat.le_gt_cases (25 * j + 5) N) as [Hc|Hc].
  - exists (firstn 40 (skipn (25 * j) messages)), (25 * j)%nat.
    split; [|split; [reflexivity|]].
    + apply filter_In. split.
      * apply (in_map (fun j => firstn 40 (skipn (25 * j) messages))). apply Hin. lia.
      * fold_leb5. apply Nat.leb_le. rewrite window_length. fold N. lia.
    + rewrite window_length. fold N. lia.
  - assert (Hj0 : (1 <= j)%nat) by lia.
    exists (firstn 40 (skipn (25 * (j - 1)) messages)), (25 * (j - 1))%nat.
    split; [|split; [reflexivity|]].
    + apply filter_In. split.
      * apply (in_map (fun j => firstn 40 (skipn (25 * j) messages))). apply Hin. lia.
      * fold_leb5. apply Nat.leb_le. rewrite window_length. fold N. lia.
    + rewrite window_length. fold N. lia.
Qed.

Lemma create_chunks_ret : forall (messages : list vmsg),
  exists ws, create_overlapping_chunks messages 40 15 = Ret ws.
Proof.
  intros [|m ms].
  - exists []. reflexivity.
  - eexists. apply windows_40_15. discriminate.
Qed.

Lemma filter_all_false : forall {A} (f : A -> bool) l,
  (forall x, In x l -> f x = false) -> filter f l = [].
Proof.
  intros A f l H. induction l as [|x l IH]; [reflexivity|].
  simpl. rewrite (H x (or_introl eq_refl)). apply IH. intros y Hy. apply H. right. exact Hy.
Qed.

Lemma short_stream_no_window : forall (messages : list vmsg) ws,
  create_overlapping_chunks messages 40 15 = Ret ws ->
  (length messages < 5)%nat -> ws = [].
Proof.
  intros messages ws Hw H5.
  destruct messages as [|m ms]; [injection Hw as <-; reflexivity|].
  rewrite windows_40_15 in Hw by discriminate. apply Ret_inj in Hw. subst ws.
  apply filter_all_false. intros w Hin. apply in_map_iff in Hin as [j [<- _]].
  fold_leb5. apply Nat.leb_gt. rewrite window_length. lia.
Qed.

Lemma concat_prefix : forall (messages : list vmsg) segs rest,
  concat segs ++ rest = messages ->
  concat segs = firstn (length messages - length rest) messages.
Proof.
  intros messages segs rest E. subst messages.
  rewrite length_app, Nat.add_sub, firstn_app, firstn_all, Nat.sub_diag.
  simpl. rewrite app_nil_r. reflexivity.
Qed.

(** [C3] Each partitioning strategy leaves at most one trailing group of
    fewer than 5 messages uncovered: the segments of the boundary detector
    are the stream minus a suffix of [rs < 5] messages, every message before
    the last [rw < 5] lies in a window of the 40/15 windower, and so every
    message lies in a segment or in a window unless it is in both
    trailing groups. *)
Theorem coverage : forall messages : list vmsg,
  exists ws rs rw,
    create_overlapping_chunks messages 40 15 = Ret ws
    /\ (rs < 5)%nat /\ (rw < 5)%nat
    /\ concat (detect_conversation_boundaries_conservative messages)
       = firstn (length messages - rs) messages
    /\ (forall k, (k < length messages - rw)%nat -> window_covers 40 ws messages k)
    /\ (forall k, (k < length messages)%nat ->
          (k < length messages - rs)%nat \/ window_covers 40 ws messages k
          \/ (length messages - rs <= k /\ length messages - rw <= k)%nat).
Proof.
  intros messages.
  destruct (create_chunks_ret messages) as [ws Hw].
  destruct (detect_remainder messages) as [rest [Hc [Hr _]]].
  set (N := length messages).
  destruct (Nat.lt_ge_cases N 5) as [Hs|Hl].
  - exists ws, (length rest), N.
    split; [exact Hw|]. split; [exact Hr|]. split; [exact Hs|].
    split; [apply concat_prefix; exact Hc|].
    split; [intros k Hk; lia|]. intros k Hk. lia.
  - exists ws, (length rest), 0%nat.
    split; [exact Hw|]. split; [exact Hr|]. split; [lia|].
    split; [apply concat_prefix; exact Hc|].
    split.
    + intros k Hk. apply windows_cover; [exact Hw|exact Hl|lia].
    + intros k Hk. right; left. apply windows_cover; [exact Hw|exact Hl|exact Hk].
Qed.

Lemma length_filter_map : forall {A B} (f : B -> bool) (g : A -> B) l,
  length (filter f (map g l)) = length (filter (fun x => f (g x)) l).
Proof.
  intros A B f g l. induction l as [|x l IH]; [reflexivity|].
  simpl. destruct (f (g x)); simpl; rewrite IH; reflexivity.
Qed.

Lemma length_filter_prefix : forall (p : nat -> bool) K M,
  (forall j, p j = true <-> (j < K)%nat) ->
  length (filter p (seq 0 M)) = Nat.min K M.
Proof.
  intros p K M Hp. induction M as [|M IH]; [simpl; lia|].
  rewrite seq_S, filter_app, length_app, IH. simpl.
  destruct (p M) eqn:E.
  - apply Hp in E. simpl. lia.
  - assert (~ (M < K)%nat) by (intro H; apply Hp in H; congruence). simpl. lia.
Qed.

(** [C4] With size 40 and overlap 15 the windower emits one window per
    cursor 0, 25, 50, ... below N whose slice holds at least 5 messages:
    none when N < 5, and (N - 5) / 25 + 1 otherwise (4 for N = 100). *)
Theorem window_count : forall messages : list vmsg,
  exists ws,
    create_overlapping_chunks messages 40 15 = Ret ws
    /\ length ws = (if (length messages <? 5)%nat then 0
                    else (length messages - 5) / 25 + 1)%nat.
Proof.
  intros messages. destruct (create_chunks_ret messages) as [ws Hw].
  exists ws. split; [exact Hw|].
  destruct (Nat.ltb_spec (length messages) 5) as [Hs|Hl].
  - rewrite (short_stream_no_window messages ws Hw Hs). reflexivity.
  - assert (Hne : messages <> []) by (intro E; subst; simpl in Hl; lia).
    rewrite windows_40_15 in Hw by exact Hne. apply Ret_inj in Hw. subst ws.
    rewrite length_filter_map.
    set (N := length messages) in *.
    set (K := ((N - 5) / 25 + 1)%nat).
    assert (HK : (K <= (N + 24) / 25)%nat).
    { unfold K. apply Nat.div_le_lower_bound; [lia|].
      pose proof (Nat.Div0.mul_div_le (N - 5) 25). lia. }
    rewrite (length_filter_prefix _ K).
    + lia.
    + intros j. rewrite Nat.leb_le, window_length. fold N. unfold K.
      split; intro H.
      * assert (25 * j <= N - 5)%nat by lia.
        assert (j <= (N - 5) / 25)%nat; [|lia].
        apply Nat.div_le_lower_bound; lia.
      * assert (25 * j <= N - 5)%nat; [|lia].
        assert (j <= (N - 5) / 25)%nat by lia.
        pose proof (Nat.Div0.mul_div_le (N - 5) 25). nia.
Qed.

(** [C4] The count [ceil(max(0, N - 15) / 25)] is not the number of
    windows: for N = 40 the windower emits the windows at cursors 0 and 25
    (the second one holds 15 messages), while the formula gives 1. *)
Lemma window_count_cex :
  exists ws,
    create_overlapping_chunks (repeat no_msg 40) 40 15 = Ret ws
    /\ Z.of_nat (length ws) <> spec_window_count (Z.of_nat (length (repeat no_msg 40))).
Proof.
  eexists. split; [reflexivity|]. vm_compute. discriminate.
Qed.

(** ** Keyword extractor *)

Lemma incr_keys : forall w wc k,
  In k (map fst (incr w wc)) -> k = w \/ In k (map fst wc).
Proof.
  intros w wc k. induction wc as [|[k' n] wc IH]; simpl.
  - intros [H|[]]. left. symmetry. exact H.
  - destruct (ustr_eqb k' w) eqn:E; simpl.
    + intros [H|H]; [right; left; exact H|right; right; exact H].
    + intros [H|H]; [right; left; exact H|].
      destruct (IH H) as [H'|H']; [left; exact H'|right; right; exact H'].
Qed.

Lemma insert_desc_keys : forall e l k,
  In k (map fst (insert_desc e l)) -> k = fst e \/ In k (map fst l).
Proof.
  intros e l k. induction l as [|e' l IH]; simpl.
  - intros [H|[]]. left. symmetry. exact H.
  - destruct (snd e <=? snd e')%nat; simpl.
    + intros [H|H]; [right; left; exact H|].
      destruct (IH H) as [H'|H']; [left; exact H'|right; right; exact H'].
    + intros [H|H]; [left; symmetry; exact H|right; exact H].
Qed.

Lemma sort_desc_keys : forall wc acc k,
  In k (map fst (fold_left (fun acc e => insert_desc e acc) wc acc)) ->
  In k (map fst acc) \/ In k (map fst wc).
Proof.
  induction wc as [|e wc IH]; cbn [fold_left map In]; intros acc k H; [left; exact H|].
  destruct (IH _ _ H) as [H1|H1]; [|right; right; exact H1].
  destruct (insert_desc_keys _ _ _ H1) as [H2|H2]; [right; left; symmetry; exact H2|].
  left. exact H2.
Qed.

Lemma count_words_keys : forall words wc k,
  In k (map fst (fold_left (fun wc word =>
               if (2 <? length word)%nat && negb (mem word stopwords) then incr word wc
               else wc) words wc)) ->
  In k (map fst wc) \/ ((2 < length k)%nat /\ mem k stopwords = false).
Proof.
  induction words as [|word words IH]; cbn [fold_left]; intros wc k H; [left; exact H|].
  destruct (IH _ _ H) as [H1|H1]; [|right; exact H1].
  destruct ((2 <? length word)%nat && negb (mem word stopwords)) eqn:E; cbn iota in H1; [|left; exact H1].
  destruct (incr_keys _ _ _ H1) as [->|H2]; [|left; exact H2].
  apply andb_prop in E as [E1 E2]. apply Nat.ltb_lt in E1. apply negb_true_iff in E2.
  right. split; assumption.
Qed.

(** [C6] Every keyword returned has more than 2 characters and is not in
    the stoplist. The stoplist holds the accented [também], so the
    unaccented [tambem] of ["eu vou e ele tambem"] is returned as the only
    keyword, while ["eu vou e ele também"] yields no keyword. *)
Theorem keywords_exclude :
  (forall text w, In w (extract_keywords text) ->
     (2 < length w)%nat /\ ~ In w stopwords)
  /\ extract_keywords (u "eu vou e ele tambem") = [u "tambem"]
  /\ extract_keywords (u "eu vou e ele também") = [].
Proof.
  split; [|split; vm_compute; reflexivity].
  intros text w H. unfold extract_keywords, sort_desc in H.
  destruct (sort_desc_keys _ _ _ H) as [[]|H1].
  unfold count_words in H1.
  destruct (count_words_keys _ _ _ H1) as [[]|[H2 H3]].
  split; [exact H2|]. intro Hin. apply mem_In in Hin. congruence.
Qed.

Lemma keywords_exclude_witness :
  In (u "tambem") (extract_keywords (u "eu vou e ele tambem"))
  /\ (2 < length (u "tambem"))%nat /\ ~ In (u "tambem") stopwords.
Proof.
  split; [vm_compute; left; reflexivity|].
  apply (proj1 keywords_exclude (u "eu vou e ele tambem")). vm_compute. left. reflexivity.
Defined.

(** [C6] The input ["eu vou e ele tambem"] does not give an empty keyword
    list. *)
Lemma keywords_tambem_cex : extract_keywords (u "eu vou e ele tambem") <> [].
Proof. vm_compute. discriminate. Qed.

(** ** Message filter *)

Lemma filter_messages_index : forall data i v,
  In v (filter_messages i data) ->
  exists k item, nth_error data k = Some item /\ index v = i + Z.of_nat k
    /\ is_system_message (strip (get_or (ri_message item) [])) = false.
Proof.
  induction data as [|item data IH]; cbn [filter_messages]; intros i v H; [contradiction|].
  destruct (py_len (strip (get_or (ri_message item) [])) <? 1).
  - destruct (IH _ _ H) as [k [it [H1 [H2 H3]]]].
    exists (S k), it. split; [exact H1|]. split; [lia|exact H3].
  - destruct (is_system_message (strip (get_or (ri_message item) []))) eqn:E.
    + destruct (IH _ _ H) as [k [it [H1 [H2 H3]]]].
      exists (S k), it. split; [exact H1|]. split; [lia|exact H3].
    + destruct H as [<-|H].
      * exists 0%nat, item. split; [reflexivity|]. split; [simpl; lia|exact E].
      * destruct (IH _ _ H) as [k [it [H1 [H2 H3]]]].
        exists (S k), it. split; [exact H1|]. split; [lia|exact H3].
Qed.

Lemma is_system_message_rule : forall m,
  (exists sys_msg, In sys_msg system_messages
     /\ (strip (lower m) = sys_msg \/ startswith (strip (lower m)) sys_msg = true))
  \/ (exists pat, In pat system_patterns /\ re_match pat (strip (lower m)) <> None) ->
  is_system_message m = true.
Proof.
  intros m H. unfold is_system_message.
  destruct m as [|c m]; [reflexivity|].
  destruct (py_len (strip (c :: m)) <? 2); [reflexivity|].
  apply orb_true_iff. destruct H as [[p [Hp Hm]]|[pat [Hp Hm]]].
  - left. apply existsb_exists. exists p. split; [exact Hp|].
    destruct Hm as [Hm|Hm]; apply orb_true_iff; [left; apply ustr_eqb_eq; exact Hm|right; exact Hm].
  - right. apply existsb_exists. exists pat. split; [exact Hp|].
    destruct (re_match pat (strip (lower (c :: m)))); [reflexivity|contradiction].
Qed.

(** [C7] The normalization of [create_whatsapp_database] drops every
    item whose trimmed, lowercased text equals or starts with a phrase of
    the list, or matches a system pattern: no kept message carries its
    index. ["mensagem apagada"] is dropped in any letter case and with
    surrounding blanks; ["oi"] is kept (minimum length 1), while the filter
    of [src/rag.py] (minimum length 3) drops it. *)
Theorem system_filter_rule :
  (forall data k item, nth_error data k = Some item ->
     (exists sys_msg, In sys_msg system_messages
        /\ (strip (lower (strip (get_or (ri_message item) []))) = sys_msg
            \/ startswith (strip (lower (strip (get_or (ri_message item) [])))) sys_msg = true))
     \/ (exists pat, In pat system_patterns
           /\ re_match pat (strip (lower (strip (get_or (ri_message item) [])))) <> None) ->
     forall v, In v (valid_messages data) -> index v <> Z.of_nat k)
  /\ valid_messages [mkraw None (Some (u "mensagem apagada")) None] = []
  /\ valid_messages [mkraw None (Some (u "MENSAGEM Apagada")) None] = []
  /\ valid_messages [mkraw None (Some (u "  Mensagem apagada ")) None] = []
  /\ valid_messages [mkraw (Some (u "Ana")) (Some (u "oi")) None]
     = [mkvmsg (u "Ana") (u "oi") (u "oi") [] 0]
  /\ rag_keeps (mkraw (Some (u "Ana")) (Some (u "oi")) None) = false.
Proof.
  split; [|repeat split; vm_compute; reflexivity].
  intros data k item Hk Hsys v Hv Hi.
  destruct (filter_messages_index data 0 v Hv) as [k' [it [H1 [H2 H3]]]].
  assert (k' = k) as -> by lia.
  rewrite Hk in H1. injection H1 as <-.
  rewrite (is_system_message_rule _ Hsys) in H3. discriminate.
Qed.

Lemma system_filter_rule_witness :
  nth_error [mkraw None (Some (u "Mensagem apagada")) None] 0
    = Some (mkraw None (Some (u "Mensagem apagada")) None)
  /\ forall v, In v (valid_messages [mkraw None (Some (u "Mensagem apagada")) None]) ->
     index v <> Z.of_nat 0.
Proof.
  split; [reflexivity|].
  apply (proj1 system_filter_rule _ 0%nat (mkraw None (Some (u "Mensagem apagada")) None)).
  - reflexivity.
  - left. exists (u "mensagem apagada"). split.
    + left. reflexivity.
    + left. vm_compute. reflexivity.
Defined.

(** [C7] ["<Media omitted>"] is not dropped by [create_whatsapp_database]:
    it neither equals nor starts with ["media omitted"] (it starts with
    ["<"]) and matches no pattern, so it is kept, while the filters of
    [src/rag.py] and [src/app.py], which test for the phrase as a substring,
    drop it. *)
Lemma media_omitted_kept :
  valid_messages [mkraw (Some (u "Ana")) (Some (u "<Media omitted>")) None]
    = [mkvmsg (u "Ana") (u "<Media omitted>") (u "<Media omitted>") [] 0]
  /\ rag_keeps (mkraw (Some (u "Ana")) (Some (u "<Media omitted>")) None) = false.
Proof. split; vm_compute; reflexivity. Qed.

(** ** Timestamp parser *)

Lemma try_formats_none : forall s fs,
  (forall f, In f fs -> exists e, strptime s f = Raise e) -> try_formats s fs = None.
Proof.
  intros s fs. induction fs as [|f fs IH]; intros H; [reflexivity|].
  simpl. destruct (H f (or_introl eq_refl)) as [e ->].
  apply IH. intros f' Hf'. apply H. right. exact Hf'.
Qed.

(** [C8] ["15/03/2023, 14:30"] parses to 2023-03-15 14:30 and
    ["15/03/23, 14:30"] to the same instant. For ["15/03/YY, 14:30"] with
    any two digits [YY], the year is read by the [%y] format, whose pivot
    gives 2000 + YY for YY in 00-68 and 1900 + YY for YY in 69-99. A string
    accepted by no format, in which the date or the time pattern of the
    fallback is not found, gives no instant. *)
Theorem parse_timestamp_spec :
  parse_timestamp (u "15/03/2023, 14:30") = Some (mkdt 2023 3 15 14 30 0 0)
  /\ parse_timestamp (u "15/03/23, 14:30") = Some (mkdt 2023 3 15 14 30 0 0)
  /\ (forall y, 0 <= y < 100 ->
        parse_timestamp (u "15/03/" ++ [48 + y / 10; 48 + y mod 10] ++ u ", 14:30")
        = Some (mkdt (if y <=? 68 then 2000 + y else 1900 + y) 3 15 14 30 0 0))
  /\ (forall ts, (forall f, In f formats -> exists e, strptime (strip ts) f = Raise e) ->
        re_search date_rx ts = None \/ re_search time_rx ts = None ->
        parse_timestamp ts = None).
Proof.
  split; [vm_compute; reflexivity|].
  split; [vm_compute; reflexivity|].
  split.
  { intros y Hy.
    assert (E : exists n, y = Z.of_nat n /\ (n < 100)%nat) by (exists (Z.to_nat y); lia).
    destruct E as [n [-> Hn]].
    do 100 (destruct n as [|n]; [vm_compute; reflexivity|]). lia. }
  intros ts Hf Hr. unfold parse_timestamp.
  destruct ts as [|c ts]; [reflexivity|].
  rewrite (try_formats_none _ _ Hf). unfold fallback_parse.
  destruct Hr as [-> | ->]; [reflexivity|].
  destruct (re_search date_rx (c :: ts)) as [[? ?]|]; reflexivity.
Qed.

Lemma parse_timestamp_spec_witness :
  parse_timestamp (u "15/03/" ++ [55; 53] ++ u ", 14:30") = Some (mkdt 1975 3 15 14 30 0 0)
  /\ (forall f, In f formats -> exists e, strptime (strip (u "hello")) f = Raise e)
  /\ parse_timestamp (u "hello") = None.
Proof.
  assert (Hf : forall f, In f formats -> exists e, strptime (strip (u "hello")) f = Raise e).
  { intros f Hin. unfold formats in Hin.
    repeat (destruct Hin as [<-|Hin]; [exists ValueError; vm_compute; reflexivity|]).
    destruct Hin. }
  split; [exact (proj1 (proj2 (proj2 parse_timestamp_spec)) 75 ltac:(lia))|].
  split; [exact Hf|].
  apply (proj2 (proj2 (proj2 parse_timestamp_spec)) (u "hello") Hf).
  left. vm_compute. reflexivity.
Defined.

(** [C8] A two-digit year under 100 does not always resolve to 2000 or
    later: ["15/03/75, 14:30"] parses to 1975. *)
Lemma two_digit_year_cex :
  exists d, parse_timestamp (u "15/03/75, 14:30") = Some d /\ dt_year d < 2000.
Proof. exists (mkdt 1975 3 15 14 30 0 0). split; [vm_compute; reflexivity|simpl; lia]. Qed.

(** ** Participants *)

Lemma conv_docs_in : forall lset cs doc_id md,
  In md (fst (conv_docs lset doc_id cs)) ->
  exists c i, In c cs /\ md = doc_metadata lset (u "conversation") i c.
Proof.
  intros lset cs. induction cs as [|c cs IH]; intros doc_id md H; [contradiction|].
  cbn [conv_docs] in H.
  destruct (length c <? 5)%nat.
  - destruct (IH _ _ H) as [c' [i [H1 H2]]]. exists c', i. split; [right; exact H1|exact H2].
  - destruct (conv_docs lset (doc_id + 1) cs) as [ds n] eqn:E. simpl in H.
    destruct H as [<-|H].
    + exists c, doc_id. split; [left; reflexivity|reflexivity].
    + assert (H' : In md (fst (conv_docs lset (doc_id + 1) cs))) by (rewrite E; exact H).
      destruct (IH _ _ H') as [c' [i [H1 H2]]]. exists c', i. split; [right; exact H1|exact H2].
Qed.

Lemma chunk_docs_in : forall lset cs doc_id md,
  In md (chunk_docs lset doc_id cs) ->
  exists c i, In c cs /\ md = doc_metadata lset (u "chunk") i c.
Proof.
  intros lset cs. induction cs as [|c cs IH]; intros doc_id md H; [contradiction|].
  destruct H as [<-|H].
  - exists c, doc_id. split; [left; reflexivity|reflexivity].
  - destruct (IH _ _ H) as [c' [i [H1 H2]]]. exists c', i. split; [right; exact H1|exact H2].
Qed.

(** [C9] The participants field of every document is [", ".join] of
    [list(set(authors))] of the conversation or chunk it was built from:
    for any iteration order [lset] of Python's sets (each name once, exactly
    the unit's authors) the field lists the unit's distinct authors, each
    once, in the order of the set, which is not the first-seen order. *)
Theorem participants_set : forall lset : list ustr -> list ustr,
  (forall xs, NoDup (lset xs) /\ forall x, In x (lset xs) <-> In x xs) ->
  forall conversations chunks md,
    In md (build_documents lset conversations chunks) ->
    exists unit names,
      (In unit conversations \/ In unit chunks)
      /\ names = lset (map author unit)
      /\ md_participants md = py_join (u ", ") names
      /\ NoDup names /\ (forall x, In x names <-> In x (map author unit)).
Proof.
  intros lset Hset conversations chunks md H.
  unfold build_documents in H.
  destruct (conv_docs lset 0 conversations) as [ds n] eqn:E.
  apply in_app_or in H as [H|H].
  - assert (H' : In md (fst (conv_docs lset 0 conversations))) by (rewrite E; exact H).
    destruct (conv_docs_in _ _ _ _ H') as [c [i [H1 ->]]].
    exists c, (lset (map author c)). split; [left; exact H1|].
    split; [reflexivity|]. split; [reflexivity|]. apply Hset.
  - destruct (chunk_docs_in _ _ _ _ H) as [c [i [H1 ->]]].
    exists c, (lset (map author c)). split; [right; exact H1|].
    split; [reflexivity|]. split; [reflexivity|]. apply Hset.
Qed.

Lemma participants_set_witness :
  (forall xs, NoDup (nub xs) /\ forall x, In x (nub xs) <-> In x xs)
  /\ exists unit names,
       (In unit [ex_conv] \/ In unit [])
       /\ names = nub (map author unit)
       /\ md_participants (doc_metadata nub (u "conversation") 0 ex_conv) = py_join (u ", ") names
       /\ NoDup names /\ (forall x, In x names <-> In x (map author unit)).
Proof.
  assert (Hset : forall xs, NoDup (nub xs) /\ forall x, In x (nub xs) <-> In x xs).
  { intros xs. split; [apply nub_NoDup|intros x; apply nub_In]. }
  split; [exact Hset|].
  apply (participants_set nub Hset [ex_conv] []).
  vm_compute. left. reflexivity.
Defined.

(** [C9] Under CPython 3.11's set (string hashes of [PYTHONHASHSEED=0]),
    the conversation with authors Duda, Ana, Duda, Ana, Duda gets the
    participants ["Ana, Duda"], not the first-seen ["Duda, Ana"]. *)
Lemma participants_not_first_seen :
  build_documents (set_list hash_seed0) [ex_conv] []
    = [doc_metadata (set_list hash_seed0) (u "conversation") 0 ex_conv]
  /\ md_participants (doc_metadata (set_list hash_seed0) (u "conversation") 0 ex_conv)
     = u "Ana, Duda"
  /\ py_join (u ", ") (first_seen (map author ex_conv)) = u "Duda, Ana".
Proof. split; [reflexivity|]. split; vm_compute; reflexivity. Qed.

(** ** Batched submission *)

Lemma batch_fold : forall {D} (fails : Z -> bool) (documents : list D) total_batches l store log,
  fold_left (batch_step fails documents total_batches) l (store, log)
  = (store ++ concat (map (fun b => if fails (b + 1) then []
                                    else py_slice documents (b * 10)
                                           (Z.min (b * 10 + 10) (Z.of_nat (length documents)))) l),
     log ++ flat_map (fun b =>
              [EvBatch (b + 1) total_batches (b * 10)
                 (Z.min (b * 10 + 10) (Z.of_nat (length documents)) - 1);
               if fails (b + 1) then EvBatchErr (b + 1) else EvProgress (b + 1) total_batches]) l).
Proof.
  intros D fails documents total_batches l.
  induction l as [|b l IH]; intros store log; cbn [fold_left map concat flat_map].
  - rewrite !app_nil_r. reflexivity.
  - unfold batch_step at 2. destruct (fails (b + 1)); rewrite IH; f_equal;
      rewrite <- !app_assoc; reflexivity.
Qed.




(** ** Examples of the boundary detector *)

Lemma split_honoured_witness :
  ex_pre <> [] /\ seg_run (ex_pre ++ [ex_next]) = ([ex_pre], [ex_next]).
Proof.
  split; [discriminate|].
  pose proof (split_honoured ex_pre ex_next ltac:(discriminate)) as H.
  replace (seg_run ex_pre) with (([] : list (list vmsg)), ex_pre) in H
    by (vm_compute; reflexivity).
  destruct H as [H _]. apply H.
  - vm_compute. reflexivity.
  - apply Nat.leb_le. vm_compute. reflexivity.
Defined.

Lemma split_criteria_witness :
  ex_pre <> []
  /\ ((exists ct lt,
         parse_timestamp (timestamp ex_next) = Some ct
         /\ parse_timestamp (timestamp (last ex_pre no_msg)) = Some lt
         /\ to_us ct - to_us lt > 24 * 3600 * 1000000)
      \/ (length ex_pre > 100)%nat
      \/ (exists authors,
            NoDup authors
            /\ (forall a, In a authors <-> In a (map author (lastn 20 ex_pre)))
            /\ (length authors > 2)%nat
            /\ ~ In (author ex_next) (map author (lastn 20 ex_pre)))).
Proof.
  split; [discriminate|].
  pose proof (split_criteria ex_pre ex_next ltac:(discriminate)) as H.
  replace (seg_run ex_pre) with (([] : list (list vmsg)), ex_pre) in H
    by (vm_compute; reflexivity).
  destruct H as [_ H]. apply H. vm_compute. reflexivity.
Defined.

(** ** Regular-expression matcher: what a match consumes *)

Lemma firstn_run_len : forall p s j,
  (j <= run_len p s)%nat -> Forall (fun c => p c = true) (firstn j s).
Proof.
  intros p s. induction s as [|c s IH]; intros j Hj; destruct j as [|j]; simpl in *;
    [constructor|constructor|constructor|].
  destruct (p c) eqn:E; [|lia]. constructor; [exact E|]. apply IH. lia.
Qed.

Lemma rep_try_consumes : forall {R} (q : Z -> Prop) p j lo s caps
    (k : ustr -> list (Z * ustr) -> option R) x,
  (forall c, p c = true -> q c) -> (j <= run_len p s)%nat ->
  rep_try j lo s caps k = Some x ->
  exists pre s', s = pre ++ s' /\ Forall q pre /\ k s' caps = Some x.
Proof.
  intros R q p j lo s caps k x Hq. induction j as [|j IH]; intros Hj H; cbn [rep_try] in H.
  - destruct (k (skipn 0 s) caps) eqn:E; [|discriminate]. exists [], s.
    split; [reflexivity|]. split; [constructor|injection H as <-; exact E].
  - destruct (k (skipn (S j) s) caps) eqn:E.
    + exists (firstn (S j) s), (skipn (S j) s).
      split; [symmetry; apply firstn_skipn|]. split; [|injection H as <-; exact E].
      eapply Forall_impl; [|apply (firstn_run_len p)]; [intros c Hc; apply Hq; exact Hc|exact Hj].
    + destruct (lo <=? j)%nat; [|discriminate]. apply IH; [lia|exact H].
Qed.

Lemma mt_consumes : forall {R} (q : Z -> Prop) r s caps
    (k : ustr -> list (Z * ustr) -> option R) x,
  rx_cls q r -> mt r s caps k = Some x ->
  exists pre s' caps', s = pre ++ s' /\ Forall q pre /\ k s' caps' = Some x.
Proof.
  intros R q r. induction r as [p|r1 IH1 r2 IH2|r1 IH1 r2 IH2|p lo hi| |t r1 IH1];
    intros s caps k x Hr H; simpl in Hr, H.
  - destruct s as [|c s]; [discriminate|]. destruct (p c) eqn:E; [|discriminate].
    exists [c], s, caps. split; [reflexivity|]. split; [constructor; [apply Hr; exact E|constructor]|exact H].
  - destruct Hr as [Hr1 Hr2].
    destruct (IH1 _ _ _ _ Hr1 H) as [pre1 [s1 [c1 [E1 [F1 H1]]]]].
    destruct (IH2 _ _ _ _ Hr2 H1) as [pre2 [s2 [c2 [E2 [F2 H2]]]]].
    exists (pre1 ++ pre2), s2, c2. split; [rewrite E1, E2, app_assoc; reflexivity|].
    split; [apply Forall_app; split; assumption|exact H2].
  - destruct Hr as [Hr1 Hr2].
    destruct (mt r1 s caps k) eqn:E.
    + injection H as ->. exact (IH1 _ _ _ _ Hr1 E).
    + exact (IH2 _ _ _ _ Hr2 H).
  - destruct (lo <=? match hi with Some h => Nat.min (run_len p s) h | None => run_len p s end)%nat;
      [|discriminate].
    destruct (rep_try_consumes q p _ lo s caps k x Hr
                (ltac:(destruct hi; lia) : (match hi with Some h => Nat.min (run_len p s) h
                                                   | None => run_len p s end <= run_len p s)%nat)
                H) as [pre [s' [E [F H']]]].
    exists pre, s', caps. split; [exact E|]. split; assumption.
  - exists [], s, caps. split; [reflexivity|]. split; [constructor|].
    destruct s as [|c s]; [exact H|].
    destruct c as [|c|c]; try discriminate;
      repeat (destruct c as [c|c|]; try discriminate);
      destruct s; try discriminate; exact H.
  - destruct (IH1 _ _ _ _ Hr H) as [pre [s' [c' [E [F H']]]]].
    exists pre, s', (c' ++ [(t, firstn (length s - length s') s)]).
    split; [exact E|]. split; [exact F|exact H'].
Qed.

(** ** Whitespace normalisation *)

Lemma no_double_space_cons : forall c t,
  no_double_space (c :: t) <->
  (forall d t', t = d :: t' -> is_space c = false \/ is_space d = false) /\ no_double_space t.
Proof.
  intros c [|d t]; simpl; split.
  - intros _. split; [intros d t' H; discriminate|exact I].
  - intros _. exact I.
  - intros [H1 H2]. split; [intros d' t' H; injection H as <- <-; exact H1|exact H2].
  - intros [H1 H2]. split; [apply (H1 d t eq_refl)|exact H2].
Qed.

Lemma no_double_space_app : forall a b,
  no_double_space (a ++ b) -> no_double_space a /\ no_double_space b.
Proof.
  induction a as [|c a IH]; intros b H; [split; [exact I|exact H]|].
  simpl in H. apply no_double_space_cons in H as [H1 H2].
  destruct (IH b H2) as [Ha Hb]. split; [|exact Hb].
  apply no_double_space_cons. split; [|exact Ha].
  intros d t' ->. apply (H1 d (t' ++ b)). reflexivity.
Qed.

Lemma no_double_space_app_ns : forall a b,
  no_double_space a -> no_double_space b ->
  Forall (fun c => is_space c = false) a -> no_double_space (a ++ b).
Proof.
  induction a as [|c a IH]; intros b Ha Hb F; [exact Hb|].
  inversion F as [|? ? Fc Fa]; subst.
  apply no_double_space_cons in Ha as [Ha1 Ha2].
  simpl. apply no_double_space_cons. split; [|apply IH; assumption].
  intros d t' _. left. exact Fc.
Qed.

Lemma lstrip_spec : forall s,
  (exists a, s = a ++ lstrip s) /\ (forall c t, lstrip s = c :: t -> is_space c = false).
Proof.
  induction s as [|c s IH]; simpl.
  - split; [exists []; reflexivity|intros c t H; discriminate].
  - destruct (is_space c) eqn:E.
    + destruct IH as [[a Ha] H2]. split; [exists (c :: a); simpl; f_equal; exact Ha|exact H2].
    + split; [exists []; reflexivity|intros c' t H; injection H as <- _; exact E].
Qed.

Lemma strip_spec : forall s,
  (exists a b, s = a ++ strip s ++ b)
  /\ (forall c t, strip s = c :: t -> is_space c = false)
  /\ (forall c t, strip s = t ++ [c] -> is_space c = false).
Proof.
  intros s. unfold strip.
  destruct (lstrip_spec s) as [[a Ha] Hh].
  destruct (lstrip_spec (rev (lstrip s))) as [[a' Ha'] Hh'].
  set (x := lstrip s) in *. set (y := lstrip (rev x)) in *.
  assert (Hx : x = rev y ++ rev a').
  { rewrite <- (rev_involutive x), Ha', rev_app_distr. reflexivity. }
  split; [|split].
  - exists a, (rev a'). rewrite Ha at 1. rewrite Hx. reflexivity.
  - intros c t H. apply (Hh c (t ++ rev a')). rewrite Hx, H. reflexivity.
  - intros c t H. apply (Hh' c (rev t)).
    rewrite <- (rev_involutive y), H, rev_app_distr. reflexivity.
Qed.

Lemma in_strip : forall c s, In c (strip s) -> In c s.
Proof.
  intros c s H. destruct (strip_spec s) as [[a [b E]] _].
  rewrite E. apply in_or_app. right. apply in_or_app. left. exact H.
Qed.

Lemma no_double_space_strip : forall s, no_double_space s -> no_double_space (strip s).
Proof.
  intros s H. destruct (strip_spec s) as [[a [b E]] _]. rewrite E in H.
  apply no_double_space_app in H as [_ H]. apply no_double_space_app in H as [H _]. exact H.
Qed.

Lemma strip_id : forall s,
  (forall c t, s = c :: t -> is_space c = false) ->
  (forall c t, s = t ++ [c] -> is_space c = false) -> strip s = s.
Proof.
  intros s H1 H2. unfold strip.
  assert (L : forall x, (forall c t, x = c :: t -> is_space c = false) -> lstrip x = x).
  { intros [|c x] H; [reflexivity|]. simpl. rewrite (H c x eq_refl). reflexivity. }
  rewrite (L s H1). rewrite L; [apply rev_involutive|].
  intros c t E. apply (H2 c (rev t)). rewrite <- (rev_involutive s), E. reflexivity.
Qed.

Lemma collapse_ws_spec : forall s b,
  (forall c, In c (collapse_ws b s) -> c = 32 \/ (In c s /\ is_space c = false))
  /\ no_double_space (collapse_ws b s)
  /\ (b = true -> forall c t, collapse_ws b s = c :: t -> is_space c = false).
Proof.
  induction s as [|c s IH]; intros b; simpl.
  - split; [intros c []|split; [exact I|intros _ c t H; discriminate]].
  - destruct (IH true) as [T1 [T2 T3]]. destruct (IH false) as [F1 [F2 F3]].
    destruct (is_space c) eqn:E; [destruct b|].
    + split; [intros c' H; destruct (T1 c' H) as [H'|[H' H'']]; [left; exact H'|right; split; [right; exact H'|exact H'']]|].
      split; [exact T2|intros _; exact (T3 eq_refl)].
    + split.
      * intros c' [<-|H]; [left; reflexivity|].
        destruct (T1 c' H) as [H'|[H' H'']]; [left; exact H'|right; split; [right; exact H'|exact H'']].
      * split; [|intros H; discriminate].
        apply no_double_space_cons. split; [|exact T2].
        intros d t' H. right. exact (T3 eq_refl d t' H).
    + split.
      * intros c' [<-|H]; [right; split; [left; reflexivity|exact E]|].
        destruct (F1 c' H) as [H'|[H' H'']]; [left; exact H'|right; split; [right; exact H'|exact H'']].
      * split; [|intros _ c' t H; injection H as <- _; exact E].
        apply no_double_space_cons. split; [|exact F2].
        intros d t' _. left. exact E.
Qed.

Lemma collapse_ws_id : forall s b,
  (forall c, In c s -> is_space c = true -> c = 32) -> no_double_space s ->
  (b = true -> forall c t, s = c :: t -> is_space c = false) ->
  collapse_ws b s = s.
Proof.
  induction s as [|c s IH]; intros b Hs Hn Hb; [reflexivity|].
  apply no_double_space_cons in Hn as [Hn1 Hn2]. simpl.
  assert (Hs' : forall c', In c' s -> is_space c' = true -> c' = 32)
    by (intros c' H; apply Hs; right; exact H).
  destruct (is_space c) eqn:E.
  - destruct b; [rewrite (Hb eq_refl c s eq_refl) in E; discriminate|].
    rewrite (Hs c (or_introl eq_refl) E). f_equal. apply IH; [exact Hs'|exact Hn2|].
    intros _ d t H. destruct (Hn1 d t H) as [H'|H']; [congruence|exact H'].
  - f_equal. apply IH; [exact Hs'|exact Hn2|intros H; discriminate].
Qed.

(** ** [WhatsAppProcessor.clean_message]: the long-link replacement *)

Lemma rx_cls_lit : forall (q : Z -> Prop) s, Forall q s -> rx_cls q (lit s).
Proof.
  intros q s F. induction F as [|c s Hc F IH]; [intros c H; discriminate|].
  assert (Hch : rx_cls q (chr c)) by (intros c' H; apply Z.eqb_eq in H; subst c'; exact Hc).
  destruct s as [|d s]; [exact Hch|split; [exact Hch|exact IH]].
Qed.

Lemma link_rx_cls : rx_cls (fun c => is_space c = false) link_rx.
Proof.
  unfold link_rx. cbn [seqs rx_cls].
  split; [apply rx_cls_lit; vm_compute; repeat constructor|].
  split; [intros c H; apply Z.eqb_eq in H; subst c; reflexivity|].
  split; [apply rx_cls_lit; vm_compute; repeat constructor|].
  intros c H. apply negb_true_iff in H. exact H.
Qed.

Lemma link_match : forall s rest caps,
  re_match link_rx s = Some (rest, caps) ->
  exists pre, s = pre ++ rest /\ Forall (fun c => is_space c = false) pre.
Proof.
  intros s rest caps H. unfold re_match in H.
  destruct (mt_consumes _ _ _ _ _ _ link_rx_cls H) as [pre [s' [c' [E [F H']]]]].
  injection H' as -> _. exists pre. split; assumption.
Qed.

Lemma link_longo_ns : Forall (fun c => is_space c = false) (u "[link_longo]").
Proof. vm_compute. repeat constructor. Qed.

Lemma sub_links_spec : forall f s,
  (forall c, In c (sub_links f s) -> In c s \/ In c (u "[link_longo]"))
  /\ (no_double_space s -> no_double_space (sub_links f s))
  /\ (forall c t, sub_links f s = c :: t -> is_space c = true -> exists t', s = c :: t').
Proof.
  induction f as [|f IH]; intros s.
  - split; [intros c H; left; exact H|split; [intros H; exact H|intros c t H _; exists t; exact H]].
  - destruct s as [|c s].
    + split; [intros c []|split; [intros _; exact I|intros c t H; discriminate]].
    + cbn [sub_links]. destruct (re_match link_rx (c :: s)) as [[rest caps]|] eqn:Em.
      * destruct (link_match _ _ _ Em) as [pre [E F]].
        destruct (IH rest) as [R1 [R2 R3]].
        split; [|split].
        -- intros c' H. apply in_app_or in H as [H|H]; [right; exact H|].
           destruct (R1 c' H) as [H'|H']; [|right; exact H'].
           left. rewrite E. apply in_or_app. right. exact H'.
        -- intros Hn. apply no_double_space_app_ns; [vm_compute; tauto| |exact link_longo_ns].
           apply R2. rewrite E in Hn. apply no_double_space_app in Hn as [_ Hn]. exact Hn.
        -- intros c' t H Hs. vm_compute in H. injection H as <- _. discriminate.
      * destruct (IH s) as [R1 [R2 R3]].
        split; [|split].
        -- intros c' [<-|H]; [left; left; reflexivity|].
           destruct (R1 c' H) as [H'|H']; [left; right; exact H'|right; exact H'].
        -- intros Hn. apply no_double_space_cons in Hn as [Hn1 Hn2].
           apply no_double_space_cons. split; [|exact (R2 Hn2)].
           intros d t' H. destruct (is_space d) eqn:Ed; [|right; reflexivity].
           destruct (R3 d t' H Ed) as [t'' Ht]. rewrite <- Ed. exact (Hn1 d t'' Ht).
        -- intros c' t H _. injection H as <- _. exists s. reflexivity.
Qed.

Lemma link_longo_not_ctrl : Forall (fun c => is_ctrl c = false) (u "[link_longo]").
Proof. vm_compute. repeat constructor. Qed.

Lemma ws_normal_strip : forall s,
  (forall c, In c s -> is_space c = true -> c = 32) -> no_double_space s -> ws_normal (strip s).
Proof.
  intros s H1 H2. destruct (strip_spec s) as [_ [H3 H4]].
  split; [intros c Hin; apply H1; apply in_strip; exact Hin|].
  split; [apply no_double_space_strip; exact H2|split; assumption].
Qed.

(** teste.py, [WhatsAppProcessor.clean_message]: for every input, the cleaned
    text has no leading or trailing whitespace, no two adjacent whitespace
    characters, every whitespace character in it is a plain space (code 32),
    and it contains no control character removed by the first [re.sub]. *)
Theorem clean_message_normal : forall m,
  ws_normal (clean_message m) /\ (forall c, In c (clean_message m) -> is_ctrl c = false).
Proof.
  intros [|c0 m0].
  { split; [|intros c []].
    split; [intros c []|split; [exact I|split; intros c t H; [discriminate|destruct t; discriminate]]]. }
  unfold clean_message. cbv iota beta zeta.
  set (m1 := filter (fun c => negb (is_ctrl c)) (c0 :: m0)).
  destruct (collapse_ws_spec m1 false) as [C1 [C2 _]].
  set (m2 := collapse_ws false m1) in *.
  assert (H3 : forall m3,
    (forall c, In c m3 -> c = 32 \/ (In c m1 /\ is_space c = false) \/ In c (u "[link_longo]")) ->
    no_double_space m3 ->
    ws_normal (strip m3) /\ (forall c, In c (strip m3) -> is_ctrl c = false)).
  { intros m3 Hc Hn. split.
    - apply ws_normal_strip; [|exact Hn]. intros c Hin Hs.
      destruct (Hc c Hin) as [->|[[_ H]|H]]; [reflexivity|congruence|].
      pose proof (proj1 (Forall_forall _ _) link_longo_ns c H). congruence.
    - intros c Hin. apply in_strip in Hin.
      destruct (Hc c Hin) as [->|[[H _]|H]]; [reflexivity| |].
      + unfold m1 in H. apply filter_In in H as [_ H]. apply negb_true_iff in H. exact H.
      + exact (proj1 (Forall_forall _ _) link_longo_not_ctrl c H). }
  destruct ((200 <? py_len m2) && contains m2 (u "http")).
  - destruct (sub_links_spec (length m2) m2) as [S1 [S2 _]]. apply H3; [|exact (S2 C2)].
    intros c Hin. destruct (S1 c Hin) as [H|H]; [|right; right; exact H].
    destruct (C1 c H) as [H'|H']; [left; exact H'|right; left; exact H'].
  - apply H3; [|exact C2]. intros c Hin.
    destruct (C1 c Hin) as [H|H]; [left; exact H|right; left; exact H].
Qed.

(** rag.py and app.py, [clean_message]: for every word-character class
    [is_w], the cleaned text is whitespace-normal (no leading, trailing or
    doubled whitespace, only plain spaces), consists of allowed characters
    only, and cleaning it again changes nothing. *)
Theorem rag_clean_message_normal : forall (is_w : Z -> bool) m,
  ws_normal (rag_clean_message is_w m)
  /\ (forall c, In c (rag_clean_message is_w m) -> rag_allowed is_w c = true)
  /\ rag_clean_message is_w (rag_clean_message is_w m) = rag_clean_message is_w m.
Proof.
  intros is_w m.
  set (m1 := map (fun c => if rag_allowed is_w c then c else 32) m).
  destruct (collapse_ws_spec m1 false) as [C1 [C2 _]].
  assert (Hc : forall c, In c (rag_clean_message is_w m) ->
                 c = 32 \/ (In c m1 /\ is_space c = false)).
  { intros c Hin. apply in_strip in Hin. exact (C1 c Hin). }
  assert (Hsp : forall c, In c (rag_clean_message is_w m) -> is_space c = true -> c = 32).
  { intros c Hin Hs. destruct (Hc c Hin) as [H|[_ H]]; [exact H|congruence]. }
  assert (Hw : ws_normal (rag_clean_message is_w m)).
  { apply ws_normal_strip; [|exact C2]. intros c Hin Hs.
    destruct (C1 c Hin) as [H|[_ H]]; [exact H|congruence]. }
  assert (Ha : forall c, In c (rag_clean_message is_w m) -> rag_allowed is_w c = true).
  { intros c Hin. destruct (Hc c Hin) as [->|[H _]].
    - unfold rag_allowed. destruct (is_w 32); reflexivity.
    - unfold m1 in H. apply in_map_iff in H as [x [Ex _]].
      destruct (rag_allowed is_w x) eqn:E; subst c; [exact E|].
      unfold rag_allowed. destruct (is_w 32); reflexivity. }
  split; [exact Hw|split; [exact Ha|]].
  destruct Hw as [_ [Hn [Hh Hl]]].
  set (r := rag_clean_message is_w m) in *.
  unfold rag_clean_message.
  rewrite (map_ext_in _ (fun c => c) r) by (intros c Hin; rewrite (Ha c Hin); reflexivity).
  rewrite map_id, collapse_ws_id; [|exact Hsp|exact Hn|intros H; discriminate].
  apply strip_id; assumption.
Qed.

(** ** The conservative filter ([valid_messages]) *)

Lemma filter_messages_sound : forall data i v,
  In v (filter_messages i data) ->
  exists k item, nth_error data k = Some item /\ index v = i + Z.of_nat k
    /\ original_message v = strip (get_or (ri_message item) [])
    /\ is_system_message (original_message v) = false
    /\ message v = clean_message (original_message v)
    /\ author v = get_or (ri_author item) (u "Desconhecido")
    /\ timestamp v = get_or (ri_timestamp item) [].
Proof.
  induction data as [|item data IH]; cbn [filter_messages]; intros i v H; [contradiction|].
  assert (Step : In v (filter_messages (i + 1) data) ->
    exists k item', nth_error (item :: data) k = Some item' /\ index v = i + Z.of_nat k
    /\ original_message v = strip (get_or (ri_message item') [])
    /\ is_system_message (original_message v) = false
    /\ message v = clean_message (original_message v)
    /\ author v = get_or (ri_author item') (u "Desconhecido")
    /\ timestamp v = get_or (ri_timestamp item') []).
  { intros H'. destruct (IH _ _ H') as [k [it [H1 [H2 H3]]]].
    exists (S k), it. split; [exact H1|]. split; [lia|exact H3]. }
  destruct (py_len (strip (get_or (ri_message item) [])) <? 1); [exact (Step H)|].
  destruct (is_system_message (strip (get_or (ri_message item) []))) eqn:E; [exact (Step H)|].
  destruct H as [<-|H]; [|exact (Step H)].
  exists 0%nat, item. split; [reflexivity|]. split; [simpl; lia|].
  repeat split; [exact E].
Qed.

(** teste.py, the filtering loop of [create_whatsapp_database]: every entry
    of [valid_messages] comes from the JSON item at position [index]; its
    [original_message] is that item's stripped text, which is nonempty and
    not a system message; its [message] is [clean_message] of it; author and
    timestamp are the item's fields, with the defaults ["Desconhecido"] and
    [""]. *)
Theorem valid_messages_sound : forall data v,
  In v (valid_messages data) ->
  exists item, 0 <= index v /\ nth_error data (Z.to_nat (index v)) = Some item
    /\ original_message v = strip (get_or (ri_message item) [])
    /\ original_message v <> []
    /\ is_system_message (original_message v) = false
    /\ message v = clean_message (original_message v)
    /\ author v = get_or (ri_author item) (u "Desconhecido")
    /\ timestamp v = get_or (ri_timestamp item) [].
Proof.
  intros data v H. unfold valid_messages in H.
  destruct (filter_messages_sound _ _ _ H) as [k [item [H1 [H2 [H3 [H4 H5]]]]]].
  exists item. split; [lia|]. split; [replace (Z.to_nat (index v)) with k by lia; exact H1|].
  split; [exact H3|]. split; [|exact (conj H4 H5)].
  intros E. rewrite E in H4. discriminate.
Qed.

(** witness: the first entry of a two-item export *)
Lemma valid_messages_sound_witness :
  In (mkvmsg (u "Ana") (u "oi tudo bem") (u "oi tudo bem") (u "x") 1)
     (valid_messages [mkraw (Some (u "Ana")) (Some (u " ")) None;
                      mkraw (Some (u "Ana")) (Some (u "oi tudo bem")) (Some (u "x"))])
  /\ exists item, 0 <= 1 /\ nth_error [mkraw (Some (u "Ana")) (Some (u " ")) None;
                      mkraw (Some (u "Ana")) (Some (u "oi tudo bem")) (Some (u "x"))] 1 = Some item
    /\ u "oi tudo bem" = strip (get_or (ri_message item) [])
    /\ u "oi tudo bem" <> []
    /\ is_system_message (u "oi tudo bem") = false
    /\ u "oi tudo bem" = clean_message (u "oi tudo bem")
    /\ u "Ana" = get_or (ri_author item) (u "Desconhecido")
    /\ u "x" = get_or (ri_timestamp item) [].
Proof.
  assert (H : In (mkvmsg (u "Ana") (u "oi tudo bem") (u "oi tudo bem") (u "x") 1)
     (valid_messages [mkraw (Some (u "Ana")) (Some (u " ")) None;
                      mkraw (Some (u "Ana")) (Some (u "oi tudo bem")) (Some (u "x"))]))
    by (vm_compute; left; reflexivity).
  split; [exact H|]. exact (valid_messages_sound _ _ H).
Defined.

Lemma filter_messages_lower : forall data i v, In v (filter_messages i data) -> i <= index v.
Proof.
  intros data i v H. destruct (filter_messages_sound _ _ _ H) as [k [_ [_ [E _]]]]. lia.
Qed.

(** teste.py, the filtering loop of [create_whatsapp_database]: the indices
    of [valid_messages] are strictly increasing (the input order is kept and
    no item appears twice) and all lie in [0, len(data)). *)
Theorem valid_messages_indices : forall data,
  StronglySorted Z.lt (map index (valid_messages data))
  /\ Forall (fun v => 0 <= index v < Z.of_nat (length data)) (valid_messages data).
Proof.
  intros data. split.
  - unfold valid_messages. generalize 0.
    induction data as [|item data IH]; intros i; cbn [filter_messages]; [constructor|].
    destruct (py_len (strip (get_or (ri_message item) [])) <? 1); [apply IH|].
    destruct (is_system_message (strip (get_or (ri_message item) []))); [apply IH|].
    cbn [map index]. constructor; [apply IH|].
    apply Forall_forall. intros j Hj. apply in_map_iff in Hj as [v [<- Hv]].
    pose proof (filter_messages_lower _ _ _ Hv); simpl; lia.
  - apply Forall_forall. intros v H.
    destruct (filter_messages_sound _ _ _ H) as [k [item [H1 [H2 _]]]].
    assert (k < length data)%nat by (apply nth_error_Some; congruence). lia.
Qed.

(** teste.py, the filtering loop of [create_whatsapp_database]: nothing else
    is dropped; every JSON item whose stripped text is not a system message
    (in particular, is nonempty) yields an entry of [valid_messages] with its
    position as [index]. *)
Theorem valid_messages_complete : forall data k item,
  nth_error data k = Some item ->
  is_system_message (strip (get_or (ri_message item) [])) = false ->
  exists v, In v (valid_messages data) /\ index v = Z.of_nat k.
Proof.
  intros data k item Hk Hs. unfold valid_messages.
  replace (Z.of_nat k) with (0 + Z.of_nat k) by lia. generalize 0.
  revert k Hk. induction data as [|it data IH]; intros k Hk i; [destruct k; discriminate|].
  cbn [filter_messages].
  assert (Step : forall k', k = S k' -> exists v,
    In v (filter_messages (i + 1) data) /\ index v = i + Z.of_nat k).
  { intros k' ->. simpl in Hk. destruct (IH k' Hk (i + 1)) as [v [H1 H2]].
    exists v. split; [exact H1|lia]. }
  destruct k as [|k].
  - injection Hk as ->. rewrite Hs.
    destruct (py_len (strip (get_or (ri_message item) [])) <? 1) eqn:E.
    + destruct (strip (get_or (ri_message item) [])); [discriminate|].
      unfold py_len in E. apply Z.ltb_lt in E. cbn [length] in E. lia.
    + eexists. split; [left; reflexivity|simpl; lia].
  - destruct (Step k eq_refl) as [v [H1 H2]].
    destruct (py_len (strip (get_or (ri_message it) [])) <? 1); [exists v; split; assumption|].
    destruct (is_system_message (strip (get_or (ri_message it) []))); [exists v; split; assumption|].
    exists v. split; [right; exact H1|exact H2].
Qed.

(** witness: the second item of a two-item export is kept *)
Lemma valid_messages_complete_witness :
  exists v, In v (valid_messages [mkraw (Some (u "Ana")) (Some (u " ")) None;
                      mkraw None (Some (u "bom dia")) None]) /\ index v = Z.of_nat 1.
Proof.
  apply (valid_messages_complete _ 1 (mkraw None (Some (u "bom dia")) None));
    vm_compute; reflexivity.
Defined.

(** ** Segment sizes of the detector *)

Lemma seg_step_bound : forall cs cur m cs' cur',
  Forall (fun c => (length c <= 101)%nat) cs -> (length cur <= 101)%nat ->
  seg_step (cs, cur) m = (cs', cur') ->
  Forall (fun c => (length c <= 101)%nat) cs' /\ (length cur' <= 101)%nat.
Proof.
  intros cs cur m cs' cur' Hf Hc Hs. unfold seg_step in Hs.
  destruct (rev cur) as [|last_msg r] eqn:Er.
  - injection Hs as <- <-. split; [exact Hf|simpl; lia].
  - destruct (should_split last_msg cur m && (5 <=? length cur)%nat) eqn:E.
    + injection Hs as <- <-. split; [|simpl; lia].
      apply Forall_app. split; [exact Hf|constructor; [exact Hc|constructor]].
    + injection Hs as <- <-. split; [exact Hf|].
      destruct (Nat.eq_dec (length cur) 101) as [H101|H101]; [|rewrite length_app; simpl; lia].
      exfalso. unfold should_split in E. cbv zeta in E.
      rewrite (proj2 (Nat.ltb_lt 100 (length cur))) in E by lia.
      rewrite (proj2 (Nat.leb_le 5 (length cur))) in E by lia.
      rewrite orb_true_r in E. discriminate.
Qed.

(** teste.py, [detect_conversation_boundaries_conservative]: every
    conversation it returns has between 5 and 101 messages; the size
    criterion ([len(current_conversation) > 100]) caps each one. *)
Theorem detect_segment_sizes : forall messages,
  Forall (fun c => (5 <= length c <= 101)%nat)
    (detect_conversation_boundaries_conservative messages).
Proof.
  intros messages.
  destruct (detect_remainder messages) as [rest [_ [_ H5]]].
  assert (Hu : Forall (fun c => (length c <= 101)%nat)
                 (detect_conversation_boundaries_conservative messages)).
  { unfold detect_conversation_boundaries_conservative.
    destruct messages as [|m0 ms]; [constructor|].
    assert (G : forall l cs cur cs' cur',
      Forall (fun c => (length c <= 101)%nat) cs -> (length cur <= 101)%nat ->
      fold_left seg_step l (cs, cur) = (cs', cur') ->
      Forall (fun c => (length c <= 101)%nat) cs' /\ (length cur' <= 101)%nat).
    { induction l as [|m l IH]; intros cs cur cs' cur' Hf Hc H.
      - injection H as <- <-. split; assumption.
      - cbn [fold_left] in H. destruct (seg_step (cs, cur) m) as [cs1 cur1] eqn:E.
        destruct (seg_step_bound _ _ _ _ _ Hf Hc E) as [H1 H2].
        exact (IH _ _ _ _ H1 H2 H). }
    unfold seg_run.
    destruct (fold_left seg_step (m0 :: ms) ([], [])) as [cs cur] eqn:E.
    destruct (G _ _ _ _ _ (Forall_nil _) (ltac:(simpl; lia) : (length (@nil vmsg) <= 101)%nat) E) as [H1 H2].
    destruct (5 <=? length cur)%nat; [|exact H1].
    apply Forall_app. split; [exact H1|constructor; [exact H2|constructor]]. }
  apply Forall_forall. intros c Hc.
  pose proof (proj1 (Forall_forall _ _) H5 c Hc).
  pose proof (proj1 (Forall_forall _ _) Hu c Hc). simpl in *. lia.
Qed.

(** ** [create_overlapping_chunks] for any window size and overlap *)

(** teste.py, [create_overlapping_chunks]: on a nonempty list, a zero step
    ([chunk_size == overlap]) makes [range] raise [ValueError], and a
    negative step ([chunk_size < overlap]) yields no window at all. *)
Theorem create_overlapping_chunks_bad_step : forall {A} (messages : list A) chunk_size overlap,
  messages <> [] ->
  (chunk_size = overlap -> create_overlapping_chunks messages chunk_size overlap = Raise ValueError)
  /\ (chunk_size < overlap -> create_overlapping_chunks messages chunk_size overlap = Ret []).
Proof.
  intros A messages chunk_size overlap Hne.
  destruct messages as [|m0 ms]; [contradiction|].
  unfold create_overlapping_chunks, py_range0. cbn iota beta.
  split; intros H.
  - rewrite (proj2 (Z.eqb_eq _ _)) by lia. reflexivity.
  - rewrite (proj2 (Z.eqb_neq _ _)) by lia. rewrite (proj2 (Z.ltb_lt _ _)) by lia. reflexivity.
Qed.

(** witness: a one-message list with windows 10/10 and 10/15 *)
Lemma create_overlapping_chunks_bad_step_witness :
  (10 = 10 -> create_overlapping_chunks [1] 10 10 = Raise ValueError)
  /\ (10 < 15 -> create_overlapping_chunks [1] 10 15 = Ret []).
Proof.
  split.
  - apply (create_overlapping_chunks_bad_step [1] 10 10). discriminate.
  - apply (create_overlapping_chunks_bad_step [1] 10 15). discriminate.
Defined.

(** teste.py, [create_overlapping_chunks]: on a nonempty list with
    [0 <= chunk_size] and a positive step [chunk_size - overlap], the windows
    are the slices of [chunk_size] messages starting at the multiples of the
    step below the length, in that order, keeping those with at least 5
    messages; each returned window has between 5 and [chunk_size] messages. *)
Theorem create_overlapping_chunks_shape : forall {A} (messages : list A) chunk_size overlap,
  messages <> [] -> 0 <= chunk_size -> overlap < chunk_size ->
  let step := Z.to_nat (chunk_size - overlap) in
  create_overlapping_chunks messages chunk_size overlap =
    Ret (filter (fun chunk => (5 <=? length chunk)%nat)
           (map (fun j => firstn (Z.to_nat chunk_size) (skipn (j * step) messages))
                (seq 0 ((length messages + step - 1) / step))))
  /\ forall ws, create_overlapping_chunks messages chunk_size overlap = Ret ws ->
       Forall (fun w => (5 <= length w <= Z.to_nat chunk_size)%nat) ws.
Proof.
  intros A messages chunk_size overlap Hne H0 Hlt step.
  assert (E : create_overlapping_chunks messages chunk_size overlap =
    Ret (filter (fun chunk => (5 <=? length chunk)%nat)
           (map (fun j => firstn (Z.to_nat chunk_size) (skipn (j * step) messages))
                (seq 0 ((length messages + step - 1) / step))))).
  { destruct messages as [|m0 ms]; [contradiction|].
    unfold create_overlapping_chunks, py_range0. cbn iota beta.
    set (l := m0 :: ms).
    rewrite (proj2 (Z.eqb_neq _ _)) by lia. rewrite (proj2 (Z.ltb_ge _ _)) by lia.
    rewrite map_map. f_equal. f_equal.
    replace (Z.to_nat ((Z.of_nat (length l) + (chunk_size - overlap) - 1) / (chunk_size - overlap)))
      with ((length l + step - 1) / step)%nat.
    - apply map_ext. intro j.
      replace ((chunk_size - overlap) * Z.of_nat j) with (Z.of_nat (j * step)) by (unfold step; lia).
      replace (Z.of_nat (j * step) + chunk_size)
        with (Z.of_nat (j * step) + Z.of_nat (Z.to_nat chunk_size)) by lia.
      apply py_slice_nat.
    - apply Nat2Z.inj. rewrite Z2Nat.id by (apply Z.div_pos; lia).
      rewrite Nat2Z.inj_div. unfold step. f_equal; lia. }
  split; [exact E|]. intros ws Hw. rewrite E in Hw. apply Ret_inj in Hw. subst ws.
  apply Forall_forall. intros w Hw. apply filter_In in Hw as [Hw H5].
  apply in_map_iff in Hw as [j [<- _]]. apply Nat.leb_le in H5.
  rewrite length_firstn in *. lia.
Qed.

(** witness: seven messages, windows of 6 with overlap 2 *)
Lemma create_overlapping_chunks_shape_witness :
  create_overlapping_chunks [1; 2; 3; 4; 5; 6; 7] 6 2 =
    Ret (filter (fun chunk => (5 <=? length chunk)%nat)
           (map (fun j => firstn (Z.to_nat 6) (skipn (j * Z.to_nat (6 - 2)) [1; 2; 3; 4; 5; 6; 7]))
                (seq 0 ((length [1; 2; 3; 4; 5; 6; 7] + Z.to_nat (6 - 2) - 1) / Z.to_nat (6 - 2)))))
  /\ forall ws, create_overlapping_chunks [1; 2; 3; 4; 5; 6; 7] 6 2 = Ret ws ->
       Forall (fun w => (5 <= length w <= Z.to_nat 6)%nat) ws.
Proof.
  apply (create_overlapping_chunks_shape [1; 2; 3; 4; 5; 6; 7] 6 2); [discriminate|lia|lia].
Defined.

(** ** [extract_keywords]: counting and sorting *)

Lemma word_occ_snoc : forall k a w,
  word_occ k (a ++ [w]) = (word_occ k a + if ustr_eqb k w then 1 else 0)%nat.
Proof.
  intros k a w. unfold word_occ. rewrite filter_app, length_app. simpl.
  destruct (ustr_eqb k w); reflexivity.
Qed.

Lemma word_occ_absent : forall k l, ~ In k l -> word_occ k l = 0%nat.
Proof.
  intros k l H. unfold word_occ. rewrite filter_all_false; [reflexivity|].
  intros x Hx. destruct (ustr_eqb k x) eqn:E; [|reflexivity].
  apply ustr_eqb_eq in E. subst. contradiction.
Qed.

Lemma ustr_eqb_neq : forall a b, a <> b -> ustr_eqb a b = false.
Proof. intros a b H. destruct (ustr_eqb a b) eqn:E; [apply ustr_eqb_eq in E; contradiction|reflexivity]. Qed.

Lemma incr_spec : forall w wc, NoDup (map fst wc) ->
  NoDup (map fst (incr w wc))
  /\ (forall k, In k (map fst (incr w wc)) <-> k = w \/ In k (map fst wc))
  /\ (forall k n, In (k, n) (incr w wc) ->
        (k = w /\ ((~ In w (map fst wc) /\ n = 1%nat) \/ exists m, n = S m /\ In (w, m) wc))
        \/ (k <> w /\ In (k, n) wc)).
Proof.
  intros w wc. induction wc as [|[k' n'] wc IH]; intros Hd.
  - simpl. split; [constructor; [intros []|constructor]|]. split.
    + intros k. split; [intros [H|[]]; left; symmetry; exact H|intros [H|[]]; left; symmetry; exact H].
    + intros k n [H|[]]. injection H as <- <-. left. split; [reflexivity|left; split; [intros []|reflexivity]].
  - cbn [map] in Hd. inversion Hd as [|? ? Hk' Hd']; subst.
    cbn [incr]. destruct (ustr_eqb k' w) eqn:E.
    + apply ustr_eqb_eq in E. subst k'. cbn [map].
      split; [exact Hd|]. split.
      * intros k. split; [intros H; right; exact H|intros [->|H]; [left; reflexivity|exact H]].
      * intros k n [H|H].
        -- injection H as <- <-. left. split; [reflexivity|right; exists n'; split; [reflexivity|left; reflexivity]].
        -- right. split; [|right; exact H]. intros ->. apply Hk'. apply (in_map fst _ _ H).
    + assert (Hne : k' <> w) by (intros ->; rewrite (proj2 (ustr_eqb_eq w w) eq_refl) in E; discriminate).
      destruct (IH Hd') as [I1 [I2 I3]]. cbn [map].
      split; [|split].
      * constructor; [|exact I1]. intros H. apply I2 in H as [H|H]; [exact (Hne H)|exact (Hk' H)].
      * intros k. split.
        -- intros [<-|H]; [right; left; reflexivity|]. apply I2 in H as [H|H]; [left; exact H|right; right; exact H].
        -- intros [->|[<-|H]]; [right; apply I2; left; reflexivity|left; reflexivity|right; apply I2; right; exact H].
      * intros k n [H|H].
        -- injection H as <- <-. right. split; [exact Hne|left; reflexivity].
        -- destruct (I3 k n H) as [[-> [[Hn ->]|[m [-> Hm]]]]|[Hk Hin]].
           ++ left. split; [reflexivity|left; split; [|reflexivity]].
              intros [H'|H']; [exact (Hne H')|exact (Hn H')].
           ++ left. split; [reflexivity|right; exists m; split; [reflexivity|right; exact Hm]].
           ++ right. split; [exact Hk|right; exact Hin].
Qed.

Lemma count_words_inv : forall words prefix wc,
  wc_inv prefix wc ->
  wc_inv (prefix ++ words)
    (fold_left (fun wc word =>
       if (2 <? length word)%nat && negb (mem word stopwords) then incr word wc
       else wc) words wc).
Proof.
  induction words as [|w words IH]; intros prefix wc Hi; cbn [fold_left].
  - rewrite app_nil_r. exact Hi.
  - replace (prefix ++ w :: words) with ((prefix ++ [w]) ++ words) by (rewrite <- app_assoc; reflexivity).
    apply IH. destruct Hi as [H1 [H2 H3]].
    change ((2 <? length w)%nat && negb (mem w stopwords)) with (kw_good w).
    destruct (kw_good w) eqn:G.
    + destruct (incr_spec w wc H1) as [I1 [I2 I3]].
      split; [exact I1|split].
      * intros k. rewrite I2, H2. split.
        -- intros [->|[Hk Gk]]; [split; [apply in_or_app; right; left; reflexivity|exact G]|].
           split; [apply in_or_app; left; exact Hk|exact Gk].
        -- intros [Hk Gk]. apply in_app_or in Hk as [Hk|[<-|[]]]; [right; split; assumption|left; reflexivity].
      * intros k n Hkn. rewrite word_occ_snoc.
        destruct (I3 k n Hkn) as [[-> [[Hn ->]|[m [-> Hm]]]]|[Hk Hin]].
        -- rewrite (proj2 (ustr_eqb_eq w w) eq_refl).
           rewrite word_occ_absent; [reflexivity|]. intros Hw. apply Hn. apply H2. split; assumption.
        -- rewrite (proj2 (ustr_eqb_eq w w) eq_refl), (H3 w m Hm). lia.
        -- rewrite (ustr_eqb_neq _ _ Hk), (H3 k n Hin). lia.
    + split; [exact H1|split].
      * intros k. rewrite H2. split.
        -- intros [Hk Gk]. split; [apply in_or_app; left; exact Hk|exact Gk].
        -- intros [Hk Gk]. apply in_app_or in Hk as [Hk|[<-|[]]]; [split; assumption|congruence].
      * intros k n Hkn. rewrite word_occ_snoc.
        assert (Hk : k <> w).
        { intros ->. assert (Hw : In w (map fst wc)) by exact (in_map fst _ _ Hkn).
          apply H2 in Hw as [_ Hw]. congruence. }
        rewrite (ustr_eqb_neq _ _ Hk), (H3 k n Hkn). lia.
Qed.

Lemma insert_desc_perm : forall e l, Permutation (insert_desc e l) (e :: l).
Proof.
  intros e l. induction l as [|e' l IH]; [reflexivity|]. cbn [insert_desc].
  destruct (snd e <=? snd e')%nat; [|reflexivity].
  transitivity (e' :: e :: l); [constructor; exact IH|constructor].
Qed.

Lemma insert_desc_sorted : forall e l, Sorted cnt_ge l -> Sorted cnt_ge (insert_desc e l).
Proof.
  intros e l. induction l as [|e' l IH]; intros Hs; [repeat constructor|].
  cbn [insert_desc]. destruct (snd e <=? snd e')%nat eqn:E.
  - apply Nat.leb_le in E. inversion Hs as [|? ? Hs' Hh]; subst.
    constructor; [exact (IH Hs')|].
    destruct l as [|e'' l]; [constructor; exact E|]. cbn [insert_desc].
    destruct (snd e <=? snd e'')%nat; constructor; [inversion Hh; assumption|exact E].
  - apply Nat.leb_gt in E. constructor; [exact Hs|constructor; unfold cnt_ge; lia].
Qed.

Lemma sort_desc_fold : forall wc acc, Sorted cnt_ge acc ->
  Sorted cnt_ge (fold_left (fun acc e => insert_desc e acc) wc acc)
  /\ Permutation (fold_left (fun acc e => insert_desc e acc) wc acc) (wc ++ acc).
Proof.
  induction wc as [|e wc IH]; intros acc Hs; cbn [fold_left]; [split; [exact Hs|reflexivity]|].
  destruct (IH _ (insert_desc_sorted e acc Hs)) as [H1 H2]. split; [exact H1|].
  rewrite H2. rewrite insert_desc_perm. apply Permutation_sym, Permutation_middle.
Qed.

Lemma sorted_map_fst : forall (f : ustr -> nat) l, Sorted cnt_ge l ->
  (forall x, In x l -> snd x = f (fst x)) ->
  Sorted (fun a b => (f b <= f a)%nat) (map fst l).
Proof.
  intros f l Hs. induction Hs as [|x l Hs IH Hh]; intros Hf; [constructor|].
  cbn [map]. constructor; [apply IH; intros y Hy; apply Hf; right; exact Hy|].
  destruct l as [|y l]; [constructor|]. cbn [map]. constructor.
  inversion Hh as [|? ? Hxy]; subst. unfold cnt_ge in Hxy.
  rewrite <- (Hf x (or_introl eq_refl)), <- (Hf y (or_intror (or_introl eq_refl))). exact Hxy.
Qed.

(** teste.py, [extract_keywords]: the keywords of [text] are exactly the
    distinct words of [re.findall(r'\b\w+\b', text.lower())] that are longer
    than two characters and not in the stoplist, each listed once, and every
    keyword occurs in the text at least as often as every keyword after it. *)
Theorem extract_keywords_spec : forall text,
  let words := findall_words (lower text) [] in
  NoDup (extract_keywords text)
  /\ (forall w, In w (extract_keywords text) <->
        In w words /\ (2 < length w)%nat /\ ~ In w stopwords)
  /\ StronglySorted (fun a b => (word_occ b words <= word_occ a words)%nat)
       (extract_keywords text).
Proof.
  intros text words. unfold extract_keywords. fold words.
  assert (Hi : wc_inv words (count_words words)).
  { unfold count_words. rewrite <- (app_nil_l words) at 1. apply count_words_inv.
    split; [constructor|split; [intros k; split; [intros []|intros [[] _]]|intros k n []]]. }
  destruct Hi as [H1 [H2 H3]].
  destruct (sort_desc_fold (count_words words) [] (Sorted_nil _)) as [S1 S2].
  rewrite app_nil_r in S2. fold (sort_desc (count_words words)) in S1, S2.
  set (S := sort_desc (count_words words)) in *.
  assert (Hin : forall k, In k (map fst S) <-> In k (map fst (count_words words))).
  { intros k. split; apply Permutation_in; [|apply Permutation_sym]; apply Permutation_map; exact S2. }
  split; [|split].
  - apply (Permutation_NoDup (Permutation_sym (Permutation_map fst S2))). exact H1.
  - intros w. rewrite Hin, H2. unfold kw_good.
    rewrite andb_true_iff, Nat.ltb_lt, negb_true_iff.
    split; intros [Hw [Hl Hs]]; (split; [exact Hw|split; [exact Hl|]]).
    + intros Hm. apply mem_In in Hm. congruence.
    + destruct (mem w stopwords) eqn:E; [apply mem_In in E; contradiction|reflexivity].
  - apply Sorted_StronglySorted; [intros a b c Hab Hbc; lia|].
    apply sorted_map_fst; [exact S1|]. intros [k n] Hx. apply H3.
    apply (Permutation_in _ S2). exact Hx.
Qed.

(** ** Batched ingestion without failures *)

Lemma py_range_cons : forall a b, a < b -> py_range a b = a :: py_range (a + 1) b.
Proof.
  intros a b H. unfold py_range.
  replace (Z.to_nat (b - a)) with (S (Z.to_nat (b - (a + 1)))) by lia.
  cbn [seq map]. f_equal; [lia|]. rewrite <- seq_shift, map_map.
  apply map_ext. intro j. lia.
Qed.

Lemma py_range_nil : forall a b, b <= a -> py_range a b = [].
Proof. intros a b H. unfold py_range. replace (Z.to_nat (b - a)) with 0%nat by lia. reflexivity. Qed.

Lemma py_range_In : forall a b i, In i (py_range a b) <-> a <= i < b.
Proof.
  intros a b i. unfold py_range. rewrite in_map_iff. split.
  - intros [j [<- Hj]]. apply in_seq in Hj. lia.
  - intros H. exists (Z.to_nat (i - a)). split; [lia|]. apply in_seq. lia.
Qed.

Lemma slice_app_skipn : forall {A} (l : list A) (i c : nat),
  py_slice l (Z.of_nat i) (Z.of_nat i + Z.of_nat c) ++ skipn (i + c) l = skipn i l.
Proof.
  intros A l i c. rewrite py_slice_nat.
  rewrite <- (firstn_skipn c (skipn i l)) at 2. rewrite skipn_skipn.
  f_equal. f_equal. lia.
Qed.

Lemma slice_app_skipn_Z : forall {A} (l : list A) a c, 0 <= a -> 0 <= c ->
  py_slice l a (a + c) ++ skipn (Z.to_nat (a + c)) l = skipn (Z.to_nat a) l.
Proof.
  intros A l a c Ha Hc. pose proof (slice_app_skipn l (Z.to_nat a) (Z.to_nat c)) as H.
  rewrite !Z2Nat.id in H by lia. rewrite <- H. f_equal. f_equal. lia.
Qed.

Lemma py_slice_min : forall {A} (l : list A) x c, 0 <= x -> 0 <= c ->
  py_slice l x (Z.min (x + c) (Z.of_nat (length l))) = py_slice l x (x + c).
Proof.
  intros A l x c Hx Hc. unfold py_slice. cbv zeta.
  rewrite (proj2 (Z.ltb_ge x 0)) by lia.
  rewrite (proj2 (Z.ltb_ge (Z.min (x + c) (Z.of_nat (length l))) 0)) by lia.
  rewrite (proj2 (Z.ltb_ge (x + c) 0)) by lia.
  replace (Z.min (Z.min (x + c) (Z.of_nat (length l))) (Z.of_nat (length l)))
    with (Z.min (x + c) (Z.of_nat (length l))) by lia.
  reflexivity.
Qed.

(** batches [a, a+1, ..., T-1] of [c] documents, as in teste.py *)
Lemma consecutive_batches : forall {A} (l : list A) c T k a,
  0 < c -> 0 <= a -> Z.of_nat (length l) <= T * c -> (Z.to_nat (T - a) <= k)%nat ->
  concat (map (fun b => py_slice l (b * c) (b * c + c)) (py_range a T))
  = skipn (Z.to_nat (a * c)) l.
Proof.
  intros A l c T k. induction k as [|k IH]; intros a Hc Ha Hn Hk;
    (destruct (Z_lt_le_dec a T) as [Hlt|Hge];
     [|rewrite py_range_nil by exact Hge; rewrite skipn_all2; [reflexivity|nia]]).
  - lia.
  - rewrite py_range_cons by exact Hlt. cbn [map concat].
    rewrite (IH (a + 1)) by lia.
    replace ((a + 1) * c) with (a * c + c) by lia.
    apply slice_app_skipn_Z; nia.
Qed.

Lemma mult_skip : forall b a n (t : nat), 0 < b -> a mod b = 0 -> Z.of_nat t < b ->
  filter (fun i => i mod b =? 0) (py_range (a + b - Z.of_nat t) n)
  = filter (fun i => i mod b =? 0) (py_range (a + b) n).
Proof.
  intros b a n t Hb Ha. induction t as [|t IH]; intros Ht; [f_equal; f_equal; lia|].
  set (x := a + b - Z.of_nat (S t)).
  destruct (Z_lt_le_dec x n) as [Hlt|Hge].
  - rewrite py_range_cons by exact Hlt. cbn [filter].
    assert (Hx : (x mod b =? 0) = false).
    { apply Z.eqb_neq. unfold x.
      rewrite (Z.div_mod a b) by lia. rewrite Ha, Z.add_0_r.
      replace (b * (a / b) + b - Z.of_nat (S t)) with ((b - Z.of_nat (S t)) + (a / b) * b) by lia.
      rewrite Z.mod_add by lia. rewrite Z.mod_small by lia. lia. }
    rewrite Hx. rewrite <- IH by lia. f_equal. f_equal. unfold x. lia.
  - rewrite py_range_nil by exact Hge. rewrite py_range_nil by lia. reflexivity.
Qed.

(** batches at the multiples of [b] in [a, len(l)), as in rag.py and app.py *)
Lemma multiple_batches : forall {A} (l : list A) b k a,
  0 < b -> 0 <= a -> a mod b = 0 -> (Z.to_nat (Z.of_nat (length l) - a) <= k)%nat ->
  concat (map (fun i => py_slice l i (i + b))
            (filter (fun i => i mod b =? 0) (py_range a (Z.of_nat (length l)))))
  = skipn (Z.to_nat a) l.
Proof.
  intros A l b k. induction k as [|k IH]; intros a Hb Ha Hm Hk;
    (destruct (Z_lt_le_dec a (Z.of_nat (length l))) as [Hlt|Hge];
     [|rewrite py_range_nil by exact Hge; rewrite skipn_all2; [reflexivity|lia]]).
  - lia.
  - rewrite py_range_cons by exact Hlt. cbn [filter]. rewrite (proj2 (Z.eqb_eq _ 0) Hm).
    replace (a + 1) with (a + b - Z.of_nat (Z.to_nat (b - 1))) by lia.
    rewrite mult_skip by (first [exact Hb|exact Hm|lia]).
    cbn [map concat]. rewrite (IH (a + b)); [apply slice_app_skipn_Z; lia|lia|lia| |lia].
    replace (a + b) with (a + 1 * b) by lia. rewrite Z.mod_add by lia. exact Hm.
Qed.

Lemma app_batches_fold : forall {D} (fails : Z -> bool) (documents : list D) starts store errs,
  fold_left (fun (st : list D * list Z) (i : Z) =>
               let (store, errs) := st in
               if fails i then (store, errs ++ [i / 5 + 1])
               else (store ++ py_slice documents i (i + 5), errs))
    starts (store, errs)
  = (store ++ concat (map (fun i => if fails i then [] else py_slice documents i (i + 5)) starts),
     errs ++ map (fun i => i / 5 + 1) (filter fails starts)).
Proof.
  intros D fails documents starts. induction starts as [|i starts IH]; intros store errs;
    cbn [fold_left map concat filter]; [rewrite !app_nil_r; reflexivity|].
  destruct (fails i); rewrite IH; cbn [map]; rewrite <- !app_assoc; reflexivity.
Qed.

Lemma rag_batches_raise : forall {D} (fails : Z -> bool) (documents : list D) starts e,
  fold_left (fun (st : res (list D)) (i : Z) =>
               match st with
               | Raise e => Raise e
               | Ret store =>
                   if fails i then Raise StoreError
                   else Ret (store ++ py_slice documents i (i + 10))
               end) starts (Raise e) = Raise e.
Proof. intros D fails documents starts e. induction starts; [reflexivity|exact IHstarts]. Qed.

Lemma rag_batches_fold : forall {D} (fails : Z -> bool) (documents : list D) starts store,
  fold_left (fun (st : res (list D)) (i : Z) =>
               match st with
               | Raise e => Raise e
               | Ret store =>
                   if fails i then Raise StoreError
                   else Ret (store ++ py_slice documents i (i + 10))
               end) starts (Ret store)
  = if existsb fails starts then Raise StoreError
    else Ret (store ++ concat (map (fun i => py_slice documents i (i + 10)) starts)).
Proof.
  intros D fails documents starts. induction starts as [|i starts IH]; intros store;
    cbn [fold_left existsb map concat]; [rewrite app_nil_r; reflexivity|].
  destruct (fails i); cbn [orb]; [apply rag_batches_raise|].
  rewrite IH, app_assoc. reflexivity.
Qed.

Lemma ingest_store_all : forall {D} (fails : Z -> bool) (documents : list D),
  (forall b, 1 <= b <= Z.max 1 ((Z.of_nat (length documents) + 10 - 1) / 10) -> fails b = false) ->
  fst (ingest fails documents) = Some documents.
Proof.
  intros D fails documents. unfold ingest. cbv zeta.
  set (n := Z.of_nat (length documents)).
  set (T := (n + 10 - 1) / 10). intros Hf.
  assert (HT : 0 <= T) by (apply Z.div_pos; lia).
  rewrite (Hf 1) by lia.
  rewrite batch_fold. cbn [fst].
  assert (E : map (fun b => if fails (b + 1) then []
                            else py_slice documents (b * 10) (Z.min (b * 10 + 10) n))
                  (py_range 1 T)
              = map (fun b => py_slice documents (b * 10) (b * 10 + 10)) (py_range 1 T)).
  { apply map_ext_in. intros b Hb. apply py_range_In in Hb.
    rewrite (Hf (b + 1)) by lia. apply py_slice_min; lia. }
  fold n. rewrite E. f_equal.
  rewrite (consecutive_batches documents 10 T (Z.to_nat (T - 1))); [|lia|lia| |lia].
  - change (1 * 10) with 10.
    replace (py_slice documents 0 10) with (py_slice documents (Z.of_nat 0) (Z.of_nat 0 + Z.of_nat 10))
      by reflexivity.
    rewrite py_slice_nat. apply firstn_skipn.
  - unfold T. pose proof (Z.mul_div_le (n + 10 - 1) 10). pose proof (Z.mod_pos_bound (n + 10 - 1) 10).
    pose proof (Z.div_mod (n + 10 - 1) 10). lia.
Qed.

(** teste.py, [create_whatsapp_database] (stage 6): when no batch submission
    fails (batches [1 .. max(1, total_batches)]), the store that is returned
    holds every document exactly once, in the order given. *)
Theorem ingest_all_documents : forall {D} (fails : Z -> bool) (documents : list D),
  (forall b, 1 <= b <= Z.max 1 ((Z.of_nat (length documents) + 10 - 1) / 10) -> fails b = false) ->
  fst (ingest fails documents) = Some documents.
Proof. exact @ingest_store_all. Qed.

(** witness: 25 documents and a store that accepts everything *)
Lemma ingest_all_documents_witness :
  fst (ingest (fun _ => false) (seq 0 25)) = Some (seq 0 25).
Proof. apply (ingest_all_documents (fun _ => false) (seq 0 25)). intros b _. reflexivity. Defined.

(** app.py, [create_vector_database_with_logging]: when no batch submission
    fails (the batches starting at 0 and at the multiples of 5 below the
    number of documents), the store receives every document exactly once,
    in order, and no batch number is reported as failed. *)
Theorem app_vector_database_all : forall {D} (fails : Z -> bool) (documents : list D),
  (forall i, (i = 0 \/ (0 < i < Z.of_nat (length documents) /\ i mod 5 = 0)) -> fails i = false) ->
  create_vector_database_with_logging fails documents = Ret (documents, []).
Proof.
  intros D fails documents Hf. unfold create_vector_database_with_logging. cbv zeta.
  rewrite (Hf 0) by (left; reflexivity). rewrite app_batches_fold.
  set (starts := filter (fun i => i mod 5 =? 0) (py_range 5 (Z.of_nat (length documents)))).
  assert (Hs : forall i, In i starts -> fails i = false).
  { intros i Hi. unfold starts in Hi. apply filter_In in Hi as [H1 H2].
    apply py_range_In in H1. apply Z.eqb_eq in H2. apply Hf. right. lia. }
  rewrite (filter_all_false fails starts Hs).
  rewrite (map_ext_in _ (fun i => py_slice documents i (i + 5)) starts)
    by (intros i Hi; rewrite (Hs i Hi); reflexivity).
  unfold starts. rewrite (multiple_batches documents 5 (length documents) 5); [|lia|lia|reflexivity|lia].
  replace (py_slice documents 0 5) with (py_slice documents (Z.of_nat 0) (Z.of_nat 0 + Z.of_nat 5))
    by reflexivity.
  rewrite py_slice_nat. cbn [skipn]. rewrite firstn_skipn. reflexivity.
Qed.

(** witness: 12 documents and a store that accepts everything *)
Lemma app_vector_database_all_witness :
  create_vector_database_with_logging (fun _ => false) (seq 0 12) = Ret (seq 0 12, []).
Proof. apply (app_vector_database_all (fun _ => false) (seq 0 12)). intros i _. reflexivity. Defined.

(** rag.py, [create_vector_database_with_logging]: with no [try] around the
    store calls, the store is returned holding every document exactly once,
    in order, when none of the submitted batches (at 0 and at the multiples
    of 10 below the number of documents) fails; if any of them fails the
    exception propagates. *)
Theorem rag_vector_database_all_or_raise : forall {D} (fails : Z -> bool) (documents : list D),
  let attempted i := i = 0 \/ (0 < i < Z.of_nat (length documents) /\ i mod 10 = 0) in
  ((forall i, attempted i -> fails i = false) -> rag_create_vector_database fails documents = Ret documents)
  /\ ((exists i, attempted i /\ fails i = true) -> rag_create_vector_database fails documents = Raise StoreError).
Proof.
  intros D fails documents attempted.
  assert (Hin : forall i, In i (filter (fun i => i mod 10 =? 0) (py_range 10 (Z.of_nat (length documents))))
                  <-> (0 < i < Z.of_nat (length documents) /\ i mod 10 = 0)).
  { intros i. rewrite filter_In, py_range_In, Z.eqb_eq. split; [intros [H1 H2]; lia|].
    intros [H1 H2]. split; [|exact H2]. split; [|lia].
    destruct (Z_lt_le_dec i 10); [|lia]. rewrite Z.mod_small in H2; lia. }
  unfold rag_create_vector_database. cbv zeta. rewrite rag_batches_fold.
  set (starts := filter (fun i => i mod 10 =? 0) (py_range 10 (Z.of_nat (length documents)))) in *.
  split.
  - intros Hf. rewrite (Hf 0) by (left; reflexivity).
    destruct (existsb fails starts) eqn:E.
    + apply existsb_exists in E as [i [Hi Hfi]]. rewrite (Hf i) in Hfi; [discriminate|].
      right. apply Hin. exact Hi.
    + f_equal. unfold starts.
      rewrite (multiple_batches documents 10 (length documents) 10); [|lia|lia|reflexivity|lia].
      replace (py_slice documents 0 10) with (py_slice documents (Z.of_nat 0) (Z.of_nat 0 + Z.of_nat 10))
        by reflexivity.
      rewrite py_slice_nat. cbn [skipn]. apply firstn_skipn.
  - intros [i [[->|Hi] Hfi]]; [rewrite Hfi; reflexivity|].
    destruct (fails 0); [reflexivity|].
    replace (existsb fails starts) with true; [reflexivity|].
    symmetry. apply existsb_exists. exists i. split; [apply Hin; exact Hi|exact Hfi].
Qed.

(** witness: 25 documents; a store that accepts everything, and one that
    fails on the batch starting at 20 *)
Lemma rag_vector_database_all_or_raise_witness :
  rag_create_vector_database (fun _ => false) (seq 0 25) = Ret (seq 0 25)
  /\ rag_create_vector_database (fun i => i =? 20) (seq 0 25) = Raise StoreError.
Proof.
  split.
  - apply (proj1 (rag_vector_database_all_or_raise (fun _ => false) (seq 0 25))).
    intros i _. reflexivity.
  - apply (proj2 (rag_vector_database_all_or_raise (fun i => i =? 20) (seq 0 25))).
    exists 20. split; [right; split; [vm_compute; split; reflexivity|reflexivity]|reflexivity].
Defined.

(** ** The conversation windows of rag.py *)

Lemma py_range_snoc : forall a b, a <= b -> py_range a (b + 1) = py_range a b ++ [b].
Proof.
  intros a b H. unfold py_range.
  replace (Z.to_nat (b + 1 - a)) with (S (Z.to_nat (b - a))) by lia.
  rewrite seq_S, map_app. cbn [map seq]. f_equal. f_equal. lia.
Qed.

Lemma Forall_removelast : forall {A} (P : A -> Prop) l, Forall P l -> Forall P (removelast l).
Proof.
  intros A P l H. induction H as [|x l Hx H IH]; [constructor|].
  cbn [removelast]. destruct l; [constructor|constructor; assumption].
Qed.

Lemma ids_snoc : forall docs d,
  map rd_conversation_id docs = map py_str_int (py_range 0 (Z.of_nat (length docs))) ->
  rd_conversation_id d = py_str_int (Z.of_nat (length docs)) ->
  map rd_conversation_id (docs ++ [d]) = map py_str_int (py_range 0 (Z.of_nat (length (docs ++ [d])))).
Proof.
  intros docs d H1 H2. rewrite length_app. cbn [length].
  replace (Z.of_nat (length docs + 1)) with (Z.of_nat (length docs) + 1) by lia.
  rewrite py_range_snoc by lia. rewrite !map_app, H1. cbn [map]. rewrite H2. reflexivity.
Qed.

Lemma rag_step_cases : forall lset st i item,
  (rag_keeps item = false /\ rag_step lset st i item = st)
  \/ (rag_keeps item = true
      /\ rg_last (rag_step lset st i item) = r_timestamp (rag_msg i item)
      /\ ((rg_docs (rag_step lset st i item) = rg_docs st
           /\ rg_id (rag_step lset st i item) = rg_id st
           /\ rg_window (rag_step lset st i item) = rg_window st ++ [rag_msg i item]
           /\ (rg_last st = [] \/ (length (rg_window st) <= 20)%nat))
          \/ (rg_docs (rag_step lset st i item) = rg_docs st ++ [rag_doc lset (rg_id st) (rg_window st)]
              /\ rg_id (rag_step lset st i item) = rg_id st + 1
              /\ rg_window (rag_step lset st i item) = [rag_msg i item]
              /\ (20 < length (rg_window st))%nat))).
Proof.
  intros lset st i item. unfold rag_step.
  destruct (rag_keeps item) eqn:K; [right|left; split; reflexivity].
  cbn [negb]. cbv zeta. split; [reflexivity|].
  destruct (rg_last st) as [|c l] eqn:L.
  - split; [reflexivity|]. left. repeat split. left. reflexivity.
  - unfold should_start_new_conversation.
    destruct (20 <? length (rg_window st))%nat eqn:E.
    + apply Nat.ltb_lt in E.
      rewrite (proj2 (Nat.leb_le 3 (length (rg_window st)))) by lia.
      split; [reflexivity|]. right. repeat split. exact E.
    + apply Nat.ltb_ge in E.
      split; [reflexivity|]. left. repeat split. right. exact E.
Qed.

Lemma rag_loop_concat : forall lset data st i,
  concat (map rd_messages (rg_docs (rag_loop lset st i data))) ++ rg_window (rag_loop lset st i data)
  = concat (map rd_messages (rg_docs st)) ++ rg_window st ++ rag_kept i data.
Proof.
  intros lset data. induction data as [|item data IH]; intros st i; cbn [rag_loop rag_kept].
  - rewrite app_nil_r. reflexivity.
  - rewrite IH.
    destruct (rag_step_cases lset st i item) as [[K E]|[K [_ [[D [_ [W _]]]|[D [_ [W _]]]]]]];
      rewrite K.
    + rewrite E. reflexivity.
    + rewrite D, W, <- !app_assoc. reflexivity.
    + rewrite D, W, map_app, concat_app. cbn [map concat rd_messages rag_doc].
      rewrite app_nil_r, <- !app_assoc. reflexivity.
Qed.

Lemma rag_loop_inv : forall lset data st i, rag_inv st -> rag_inv (rag_loop lset st i data).
Proof.
  intros lset data. induction data as [|item data IH]; intros st i Hi; cbn [rag_loop]; [exact Hi|].
  apply IH. destruct Hi as [H1 [H2 H3]].
  destruct (rag_step_cases lset st i item) as [[_ E]|[_ [_ [[D [I _]]|[D [I [_ L]]]]]]].
  - rewrite E. split; [exact H1|split; assumption].
  - unfold rag_inv. rewrite D, I. split; [exact H1|split; assumption].
  - unfold rag_inv. rewrite D, I. split; [|split].
    + apply Forall_app. split; [exact H1|]. constructor; [|constructor].
      cbn [rd_messages rd_message_count rag_doc]. split; [lia|reflexivity].
    + apply ids_snoc; [exact H2|]. cbn [rd_conversation_id rag_doc]. rewrite H3. reflexivity.
    + rewrite length_app. cbn [length]. lia.
Qed.

(** rag.py, [preprocess_whatsapp_data]: the documents' messages, in order,
    followed by fewer than 3 left-over messages, are exactly the messages
    that pass the filter (none is lost or repeated); the conversation ids
    are "0", "1", ... in order; every document has at least 3 messages and
    its [message_count], and every document but the last has more than 20
    (a window is only closed once it exceeds 20 messages). *)
Theorem rag_preprocess_partition : forall lset data,
  (exists rest, concat (map rd_messages (rag_preprocess lset data)) ++ rest = rag_kept 0 data
                /\ (length rest < 3)%nat)
  /\ map rd_conversation_id (rag_preprocess lset data)
     = map py_str_int (py_range 0 (Z.of_nat (length (rag_preprocess lset data))))
  /\ Forall (fun d => (3 <= length (rd_messages d))%nat /\ rd_message_count d = length (rd_messages d))
       (rag_preprocess lset data)
  /\ Forall (fun d => (21 <= length (rd_messages d))%nat) (removelast (rag_preprocess lset data)).
Proof.
  intros lset data. unfold rag_preprocess.
  pose proof (rag_loop_concat lset data (mkrag [] [] [] 0) 0) as C.
  assert (I0 : rag_inv (mkrag [] [] [] 0)) by (split; [constructor|split; reflexivity]).
  destruct (rag_loop_inv lset data _ 0 I0) as [H1 [H2 H3]].
  set (st := rag_loop lset (mkrag [] [] [] 0) 0 data) in *.
  cbn [rg_docs rg_window map concat app] in C.
  assert (H1' : Forall (fun d => (3 <= length (rd_messages d))%nat
                                 /\ rd_message_count d = length (rd_messages d)) (rg_docs st)).
  { eapply Forall_impl; [|exact H1]. intros d [Ha Hb]. split; [lia|exact Hb]. }
  destruct (3 <=? length (rg_window st))%nat eqn:E.
  - apply Nat.leb_le in E. split; [|split; [|split]].
    + exists []. rewrite app_nil_r, map_app, concat_app. cbn [map concat rd_messages rag_doc].
      rewrite app_nil_r. split; [exact C|cbn; lia].
    + apply ids_snoc; [exact H2|]. cbn [rd_conversation_id rag_doc]. rewrite H3. reflexivity.
    + apply Forall_app. split; [exact H1'|]. constructor; [|constructor].
      cbn [rd_messages rd_message_count rag_doc]. split; [exact E|reflexivity].
    + rewrite removelast_last. eapply Forall_impl; [|exact H1]. intros d [Ha _]. exact Ha.
  - apply Nat.leb_gt in E. split; [|split; [exact H2|split; [exact H1'|]]].
    + exists (rg_window st). split; [exact C|exact E].
    + apply Forall_removelast. eapply Forall_impl; [|exact H1]. intros d [Ha _]. exact Ha.
Qed.

Lemma rag_kept_cons : forall i item data,
  rag_kept i (item :: data)
  = (if rag_keeps item then [rag_msg i item] else []) ++ rag_kept (i + 1) data.
Proof. intros. cbn [rag_kept]. destruct (rag_keeps item); reflexivity. Qed.

Lemma rag_loop_inv21 : forall lset data st i,
  Forall (fun m => r_timestamp m <> []) (rag_kept i data) ->
  rag_inv21 st -> rag_inv21 (rag_loop lset st i data).
Proof.
  intros lset data. induction data as [|item data IH]; intros st i Ht Hi; cbn [rag_loop]; [exact Hi|].
  rewrite rag_kept_cons in Ht. apply Forall_app in Ht as [Ht1 Ht2].
  apply (IH _ _ Ht2). destruct Hi as [H1 [H2 H3]].
  destruct (rag_step_cases lset st i item) as [[_ E]|[K [L [[D [_ [W C]]]|[D [_ [W _]]]]]]].
  - rewrite E. split; [exact H1|split; assumption].
  - rewrite K in Ht1. inversion Ht1 as [|? ? Hts _]; subst.
    unfold rag_inv21. rewrite D, W, L. split; [exact H1|split].
    + rewrite length_app. cbn [length].
      destruct C as [C|C]; [rewrite (H3 C); cbn [length]; lia|lia].
    + intros Hn. contradiction.
  - rewrite K in Ht1. inversion Ht1 as [|? ? Hts _]; subst.
    unfold rag_inv21. rewrite D, W, L. split; [|split].
    + apply Forall_app. split; [exact H1|]. constructor; [|constructor]. exact H2.
    + cbn [length]. lia.
    + intros Hn. contradiction.
Qed.

(** rag.py, [preprocess_whatsapp_data]: when every message that passes the
    filter carries a nonempty timestamp, the window test runs at every
    message after the first, and no document has more than 21 messages
    (with the theorem above: all but the last have exactly 21). *)
Theorem rag_preprocess_at_most_21 : forall lset data,
  Forall (fun m => r_timestamp m <> []) (rag_kept 0 data) ->
  Forall (fun d => (length (rd_messages d) <= 21)%nat) (rag_preprocess lset data).
Proof.
  intros lset data Ht. unfold rag_preprocess.
  assert (I0 : rag_inv21 (mkrag [] [] [] 0)) by (split; [constructor|split; [cbn; lia|reflexivity]]).
  destruct (rag_loop_inv21 lset data _ 0 Ht I0) as [H1 [H2 _]].
  destruct (3 <=? length (rg_window (rag_loop lset (mkrag [] [] [] 0) 0 data)))%nat; [|exact H1].
  apply Forall_app. split; [exact H1|constructor; [exact H2|constructor]].
Qed.

(** witness: 23 kept messages with timestamps give documents of 21 and 2
    left over *)
Lemma rag_preprocess_at_most_21_witness :
  Forall (fun d => (length (rd_messages d) <= 21)%nat)
    (rag_preprocess (fun l => l) (repeat (mkraw (Some (u "Ana")) (Some (u "bom dia")) (Some (u "t"))) 23)).
Proof.
  apply rag_preprocess_at_most_21. vm_compute. repeat (constructor || discriminate).
Defined.

(** ** The fixed windows of app.py *)

Lemma app_step_cases : forall lset st i item,
  ap_participants (app_step lset st i item)
    = ap_participants st
      ++ (if negb (ustr_eqb (get_or (ri_author item) (u "Desconhecido")) (u "Desconhecido"))
          then [get_or (ri_author item) (u "Desconhecido")] else [])
  /\ ((rag_keeps item = false /\ ap_docs (app_step lset st i item) = ap_docs st
       /\ ap_window (app_step lset st i item) = ap_window st /\ ap_id (app_step lset st i item) = ap_id st)
      \/ (rag_keeps item = true /\ (length (ap_window st ++ [rag_msg i item]) < 10)%nat
          /\ ap_docs (app_step lset st i item) = ap_docs st
          /\ ap_window (app_step lset st i item) = ap_window st ++ [rag_msg i item]
          /\ ap_id (app_step lset st i item) = ap_id st)
      \/ (rag_keeps item = true /\ (10 <= length (ap_window st ++ [rag_msg i item]))%nat
          /\ ap_docs (app_step lset st i item)
             = ap_docs st ++ [rag_doc lset (ap_id st) (ap_window st ++ [rag_msg i item])]
          /\ ap_window (app_step lset st i item) = []
          /\ ap_id (app_step lset st i item) = ap_id st + 1)).
Proof.
  intros lset st i item. unfold app_step. cbv zeta.
  set (a := get_or (ri_author item) (u "Desconhecido")).
  set (ps := if negb (ustr_eqb a (u "Desconhecido")) then ap_participants st ++ [a]
             else ap_participants st).
  assert (Hps : ps = ap_participants st ++ (if negb (ustr_eqb a (u "Desconhecido")) then [a] else []))
    by (unfold ps; destruct (negb _); [reflexivity|rewrite app_nil_r; reflexivity]).
  destruct (rag_keeps item) eqn:K; cbn [negb].
  - destruct (10 <=? length (ap_window st ++ [rag_msg i item]))%nat eqn:E.
    + apply Nat.leb_le in E. split; [exact Hps|right; right]. repeat split. exact E.
    + apply Nat.leb_gt in E. split; [exact Hps|right; left]. repeat split. exact E.
  - split; [exact Hps|left]. repeat split.
Qed.

Lemma app_loop_spec : forall lset data st i,
  app_inv st ->
  app_inv (app_loop lset st i data)
  /\ concat (map rd_messages (ap_docs (app_loop lset st i data))) ++ ap_window (app_loop lset st i data)
     = concat (map rd_messages (ap_docs st)) ++ ap_window st ++ rag_kept i data
  /\ ap_participants (app_loop lset st i data)
     = ap_participants st
       ++ filter (fun a => negb (ustr_eqb a (u "Desconhecido")))
            (map (fun item => get_or (ri_author item) (u "Desconhecido")) data).
Proof.
  intros lset data. induction data as [|item data IH]; intros st i Hi; cbn [app_loop rag_kept map filter].
  - split; [exact Hi|]. rewrite !app_nil_r. split; reflexivity.
  - destruct (app_step_cases lset st i item) as [P C].
    assert (Hi' : app_inv (app_step lset st i item)
                  /\ concat (map rd_messages (ap_docs (app_step lset st i item)))
                       ++ ap_window (app_step lset st i item)
                     = concat (map rd_messages (ap_docs st)) ++ ap_window st
                       ++ (if rag_keeps item then [rag_msg i item] else [])).
    { destruct Hi as [H1 [H2 [H3 H4]]].
      destruct C as [[K [D [W I]]]|[[K [L [D [W I]]]]|[K [L [D [W I]]]]]]; rewrite K.
      - unfold app_inv. rewrite D, W, I. rewrite app_nil_r. split; [split; [exact H1|split; [exact H2|split; assumption]]|reflexivity].
      - unfold app_inv. rewrite D, W, I. split; [split; [exact H1|split; [exact L|split; assumption]]|].
        reflexivity.
      - unfold app_inv. rewrite D, W, I. split; [split; [|split; [cbn; lia|split]]|].
        + apply Forall_app. split; [exact H1|]. constructor; [|constructor].
          cbn [rd_messages rd_message_count rag_doc]. rewrite length_app in *. cbn [length] in *.
          split; [lia|reflexivity].
        + apply ids_snoc; [exact H3|]. cbn [rd_conversation_id rag_doc]. rewrite H4. reflexivity.
        + rewrite length_app. cbn [length]. lia.
        + rewrite map_app, concat_app. cbn [map concat rd_messages rag_doc].
          rewrite !app_nil_r. reflexivity. }
    destruct Hi' as [Hi' Hc].
    destruct (IH _ (i + 1) Hi') as [J1 [J2 J3]].
    split; [exact J1|split].
    + rewrite J2, app_assoc, Hc. destruct (rag_keeps item); rewrite <- !app_assoc; reflexivity.
    + rewrite J3, P, <- app_assoc. f_equal.
      destruct (negb _); reflexivity.
Qed.

(** app.py, [preprocess_whatsapp_data]: the documents' messages, in order,
    followed by fewer than 3 left-over messages, are exactly the messages
    that pass the filter; the ids are "0", "1", ... in order; every document
    has 3 to 10 messages and that [message_count], every document but the
    last exactly 10; and the returned participants are [list(set(...))] of
    the authors of all items, skipped ones included, except
    ["Desconhecido"]. *)
Theorem app_preprocess_spec : forall lset data,
  (exists rest, concat (map rd_messages (fst (app_preprocess lset data))) ++ rest = rag_kept 0 data
                /\ (length rest < 3)%nat)
  /\ map rd_conversation_id (fst (app_preprocess lset data))
     = map py_str_int (py_range 0 (Z.of_nat (length (fst (app_preprocess lset data)))))
  /\ Forall (fun d => (3 <= length (rd_messages d) <= 10)%nat
                      /\ rd_message_count d = length (rd_messages d)) (fst (app_preprocess lset data))
  /\ Forall (fun d => length (rd_messages d) = 10%nat) (removelast (fst (app_preprocess lset data)))
  /\ snd (app_preprocess lset data)
     = lset (filter (fun a => negb (ustr_eqb a (u "Desconhecido")))
               (map (fun item => get_or (ri_author item) (u "Desconhecido")) data)).
Proof.
  intros lset data. unfold app_preprocess. cbv zeta.
  assert (I0 : app_inv (mkapp [] [] [] 0)) by (split; [constructor|split; [cbn; lia|split; reflexivity]]).
  destruct (app_loop_spec lset data _ 0 I0) as [[H1 [H2 [H3 H4]]] [C P]].
  set (st := app_loop lset (mkapp [] [] [] 0) 0 data) in *.
  cbn [ap_docs ap_window ap_participants map concat app] in C, P.
  assert (H1' : Forall (fun d => (3 <= length (rd_messages d) <= 10)%nat
                                 /\ rd_message_count d = length (rd_messages d)) (ap_docs st)).
  { eapply Forall_impl; [|exact H1]. intros d [Ha Hb]. split; [lia|exact Hb]. }
  assert (H1'' : Forall (fun d => length (rd_messages d) = 10%nat) (ap_docs st)).
  { eapply Forall_impl; [|exact H1]. intros d [Ha _]. exact Ha. }
  destruct (3 <=? length (ap_window st))%nat eqn:E; cbn [fst snd].
  - apply Nat.leb_le in E. split; [|split; [|split; [|split]]].
    + exists []. rewrite app_nil_r, map_app, concat_app. cbn [map concat rd_messages rag_doc].
      rewrite app_nil_r. split; [exact C|cbn; lia].
    + apply ids_snoc; [exact H3|]. cbn [rd_conversation_id rag_doc]. rewrite H4. reflexivity.
    + apply Forall_app. split; [exact H1'|]. constructor; [|constructor].
      cbn [rd_messages rd_message_count rag_doc]. split; [lia|reflexivity].
    + rewrite removelast_last. exact H1''.
    + rewrite P. reflexivity.
  - apply Nat.leb_gt in E. split; [|split; [exact H3|split; [exact H1'|split]]].
    + exists (ap_window st). split; [exact C|exact E].
    + apply Forall_removelast. exact H1''.
    + rewrite P. reflexivity.
Qed.

(** ** Document numbering and the whole pipeline of teste.py *)

Lemma py_range_app : forall (k : nat) a b c, Z.to_nat (b - a) = k -> a <= b <= c ->
  py_range a c = py_range a b ++ py_range b c.
Proof.
  induction k as [|k IH]; intros a b c Hk H.
  - replace b with a by lia. rewrite (py_range_nil a a) by lia. reflexivity.
  - rewrite (py_range_cons a c) by lia. rewrite (py_range_cons a b) by lia.
    rewrite (IH (a + 1) b c) by lia. reflexivity.
Qed.

Lemma conv_docs_spec : forall lset cs k,
  let kept := filter (fun c => (5 <=? length c)%nat) cs in
  map md_doc_id (fst (conv_docs lset k cs)) = map py_str_int (py_range k (k + Z.of_nat (length kept)))
  /\ snd (conv_docs lset k cs) = k + Z.of_nat (length kept)
  /\ map md_type (fst (conv_docs lset k cs)) = repeat (u "conversation") (length kept)
  /\ map md_message_count (fst (conv_docs lset k cs)) = map (@length vmsg) kept.
Proof.
  intros lset cs. induction cs as [|c cs IH]; intros k kept; unfold kept; cbn [conv_docs filter].
  - cbn [fst snd length map repeat]. rewrite Z.add_0_r, py_range_nil by lia. repeat split.
  - rewrite Nat.leb_antisym. destruct (length c <? 5)%nat; cbn [negb].
    + apply IH.
    + destruct (IH (k + 1)) as [I1 [I2 [I3 I4]]].
      destruct (conv_docs lset (k + 1) cs) as [ds n]. cbn [fst snd map length repeat] in *.
      cbn [doc_metadata md_doc_id md_type md_message_count].
      rewrite (py_range_cons k) by lia. cbn [map]. rewrite I1, I3, I4.
      split; [do 3 f_equal; lia|split; [lia|split; reflexivity]].
Qed.

Lemma chunk_docs_spec : forall lset cs k,
  map md_doc_id (chunk_docs lset k cs) = map py_str_int (py_range k (k + Z.of_nat (length cs)))
  /\ map md_type (chunk_docs lset k cs) = repeat (u "chunk") (length cs)
  /\ map md_message_count (chunk_docs lset k cs) = map (@length vmsg) cs.
Proof.
  intros lset cs. induction cs as [|c cs IH]; intros k; cbn [chunk_docs map length repeat].
  - rewrite Z.add_0_r, py_range_nil by lia. repeat split.
  - destruct (IH (k + 1)) as [I1 [I2 I3]].
    cbn [doc_metadata md_doc_id md_type md_message_count].
    rewrite (py_range_cons k) by lia. rewrite I2, I3. cbn [map].
    replace (k + 1 + Z.of_nat (length cs)) with (k + Z.of_nat (S (length cs))) in I1 by lia.
    rewrite I1. repeat split.
Qed.

(** teste.py, stage 4 of [create_whatsapp_database]: the documents are one
    per conversation of at least 5 messages, then one per chunk, with
    [doc_id]s "0", "1", ... in that order across both kinds, the type
    "conversation" or "chunk", and each one's [message_count] the size of
    its conversation or chunk. *)
Theorem build_documents_numbering : forall lset conversations chunks,
  let convs := filter (fun c => (5 <=? length c)%nat) conversations in
  map md_doc_id (build_documents lset conversations chunks)
    = map py_str_int (py_range 0 (Z.of_nat (length convs + length chunks)))
  /\ map md_type (build_documents lset conversations chunks)
     = repeat (u "conversation") (length convs) ++ repeat (u "chunk") (length chunks)
  /\ map md_message_count (build_documents lset conversations chunks)
     = map (@length vmsg) (convs ++ chunks).
Proof.
  intros lset conversations chunks convs. unfold build_documents.
  destruct (conv_docs_spec lset conversations 0) as [C1 [C2 [C3 C4]]].
  destruct (conv_docs lset 0 conversations) as [ds n]. cbn [fst snd] in *. fold convs in C1, C2, C3, C4.
  destruct (chunk_docs_spec lset chunks n) as [K1 [K2 K3]].
  rewrite !map_app, C1, C3, C4, K1, K2, K3. split; [|split; reflexivity].
  rewrite C2, Z.add_0_l, Nat2Z.inj_add.
  rewrite (py_range_app (length convs) 0 (Z.of_nat (length convs))
             (Z.of_nat (length convs) + Z.of_nat (length chunks))) by lia.
  rewrite map_app. reflexivity.
Qed.

(** teste.py, [create_whatsapp_database]: an empty export ends in the
    [ZeroDivisionError] of the statistics line; otherwise the windowing
    never raises, and with a store that accepts every batch the result is
    the store of all documents built from the detected conversations and
    the 40/15 chunks of the valid messages. *)
Theorem create_whatsapp_database_result : forall lset (fails : Z -> bool) data,
  (data = [] -> create_whatsapp_database lset fails data = inl ZeroDivisionError)
  /\ (data <> [] ->
      exists chunks, create_overlapping_chunks (valid_messages data) 40 15 = Ret chunks
        /\ ((forall b, fails b = false) ->
            create_whatsapp_database lset fails data
            = inr (Some (build_documents lset
                           (detect_conversation_boundaries_conservative (valid_messages data))
                           chunks)))).
Proof.
  intros lset fails data. split; [intros ->; reflexivity|].
  intros Hne. destruct (create_chunks_ret (valid_messages data)) as [chunks Hc].
  exists chunks. split; [exact Hc|]. intros Hf.
  unfold create_whatsapp_database. destruct data as [|it data]; [contradiction|].
  cbv zeta. rewrite Hc. f_equal. apply ingest_store_all. intros b _. apply Hf.
Qed.

(** witness: an export of 45 messages of one author, stored by a store that
    never fails: one conversation of 45 messages and two chunks, of 40 and
    20 messages, give three documents *)
Lemma create_whatsapp_database_result_witness :
  exists chunks,
    map (@length vmsg) chunks = [40%nat; 20%nat]
    /\ create_whatsapp_database (fun l => l) (fun _ => false)
         (repeat (mkraw (Some (u "Ana")) (Some (u "bom dia")) None) 45)
       = inr (Some (build_documents (fun l => l)
                      (detect_conversation_boundaries_conservative
                         (valid_messages (repeat (mkraw (Some (u "Ana")) (Some (u "bom dia")) None) 45)))
                      chunks))
    /\ length (build_documents (fun l => l)
                 (detect_conversation_boundaries_conservative
                    (valid_messages (repeat (mkraw (Some (u "Ana")) (Some (u "bom dia")) None) 45)))
                 chunks) = 3%nat.
Proof.
  destruct (proj2 (create_whatsapp_database_result (fun l => l) (fun _ => false)
                     (repeat (mkraw (Some (u "Ana")) (Some (u "bom dia")) None) 45))
              ltac:(cbn; discriminate)) as [chunks [Hc Hr]].
  exists chunks.
  assert (Hl : map (@length vmsg) chunks = [40%nat; 20%nat]).
  { vm_compute in Hc. injection Hc as Hc. rewrite <- Hc. reflexivity. }
  split; [exact Hl|].
  split; [exact (Hr (fun _ => eq_refl))|].
  vm_compute in Hc. injection Hc as Hc. rewrite <- Hc. vm_compute. reflexivity.
Defined.

(** ** format_response *)

Lemma replace_empty_in : forall f p s c, In c (replace_empty_aux f p s) -> In c s.
Proof.
  induction f as [|f IHf]; intros p s c H; cbn [replace_empty_aux] in H; [exact H|].
  destruct s as [|d s']; [exact H|].
  destruct (startswith (d :: s') p).
  - apply IHf in H. rewrite <- (firstn_skipn (length p) (d :: s')).
    apply in_or_app; right; exact H.
  - destruct H as [<-|H]; [left; reflexivity|right; eapply IHf; exact H].
Qed.

Lemma replace_star : forall f s, (length s <= f)%nat -> ~ In 42 (replace_empty_aux f [42] s).
Proof.
  induction f as [|f IHf]; intros s Hl H.
  - destruct s; [exact H|cbn in Hl; lia].
  - destruct s as [|d s']; cbn [replace_empty_aux] in H; [exact H|].
    replace (startswith (d :: s') [42]) with (d =? 42) in H
      by (destruct s'; cbn [startswith]; rewrite andb_true_r; reflexivity).
    cbn [length] in Hl.
    destruct (Z.eqb_spec d 42) as [E|E].
    + cbn [length skipn] in H. exact (IHf s' ltac:(lia) H).
    + destruct H as [H|H]; [congruence|exact (IHf s' ltac:(lia) H)].
Qed.

Lemma fold_replace_in : forall phs r c,
  In c (fold_left (fun r ph => py_replace_empty ph r) phs r) -> In c r.
Proof.
  induction phs as [|ph phs IH]; cbn [fold_left]; intros r c H; [exact H|].
  apply IH in H. eapply replace_empty_in; exact H.
Qed.

(** the text after the literal replacements *)
Lemma fr_pre_spec : forall raw c,
  In c (fold_left (fun r ph => py_replace_empty ph r) technical_phrases
          (py_replace_empty (u "**") (py_replace_empty (u "*") raw))) ->
  In c raw /\ c <> 42.
Proof.
  intros raw c H. apply fold_replace_in in H. unfold py_replace_empty at 1 in H.
  apply replace_empty_in in H.
  assert (E : u "*" = [42]) by reflexivity. rewrite E in H. unfold py_replace_empty in H.
  split; [eapply replace_empty_in; exact H|].
  intros ->. exact (replace_star _ _ (le_n _) H).
Qed.

Lemma strip_all_space : forall s, Forall (fun c => is_space c = true) s -> strip s = [].
Proof.
  assert (L : forall s, Forall (fun c => is_space c = true) s -> lstrip s = []).
  { induction s as [|c s IH]; intros H; [reflexivity|].
    inversion H; subst. cbn [lstrip]. rewrite H2. exact (IH H3). }
  intros s H. unfold strip. rewrite (L s H). reflexivity.
Qed.

Lemma nds_all_ns : forall a, Forall (fun c => is_space c = false) a -> no_double_space a.
Proof.
  induction a as [|x a IH]; intros H; [exact I|].
  inversion H; subst. apply (proj2 (no_double_space_cons x a)).
  split; [intros; left; assumption|apply IH; assumption].
Qed.

Lemma capitalize_in : forall il up r d,
  In d (capitalize_first il up r) -> In d r \/ exists c, il c = true /\ In d (up c).
Proof.
  intros il up [|c r'] d H; cbn [capitalize_first] in H; [destruct H|].
  destruct (il c) eqn:E; [|left; exact H].
  apply in_app_or in H as [H|H]; [right; exists c; split; assumption|left; right; exact H].
Qed.

Lemma capitalize_normal : forall il up r,
  (forall c, il c = true -> up c <> [] /\ Forall (fun d => is_space d = false) (up c)) ->
  ws_normal r -> ws_normal (capitalize_first il up r).
Proof.
  intros il up r Hup Hr. destruct r as [|c r']; [exact Hr|].
  cbn [capitalize_first]. destruct (il c) eqn:E; [|exact Hr].
  destruct (Hup c E) as [Hne Hns]. destruct Hr as [H1 [H2 [H3 H4]]].
  split; [|split; [|split]].
  - intros d Hd Hs. apply in_app_or in Hd as [Hd|Hd].
    + rewrite Forall_forall in Hns. rewrite (Hns d Hd) in Hs. discriminate.
    + apply H1; [right; exact Hd|exact Hs].
  - apply no_double_space_app_ns; [apply nds_all_ns; exact Hns| |exact Hns].
    exact (proj2 (proj1 (no_double_space_cons c r') H2)).
  - intros d t Ht. destruct (up c) as [|x U]; [congruence|].
    cbn [app] in Ht. injection Ht as -> _. exact (Forall_inv Hns).
  - intros d t Ht. destruct r' as [|x y].
    + rewrite app_nil_r in Ht. rewrite Forall_forall in Hns. apply Hns.
      rewrite Ht. apply in_or_app; right; left; reflexivity.
    + destruct (exists_last (l := x :: y) ltac:(discriminate)) as [r0 [e Er]].
      rewrite Er in Ht. rewrite app_assoc in Ht. apply app_inj_tail in Ht as [_ <-].
      apply (H4 e (c :: r0)). rewrite Er. reflexivity.
Qed.

Lemma fr_clean_normal : forall il up raw,
  (forall c, il c = true -> up c <> [] /\ Forall (fun d => is_space d = false /\ d <> 42) (up c)) ->
  ws_normal (fr_clean il up raw) /\ ~ In 42 (fr_clean il up raw).
Proof.
  intros il up raw Hup. unfold fr_clean.
  set (r := fold_left _ _ _).
  assert (Hr : forall c, In c r -> In c raw /\ c <> 42) by (intros c; apply fr_pre_spec).
  destruct (collapse_ws_spec r false) as [C1 [C2 _]].
  split.
  - apply capitalize_normal.
    + intros c Hc. destruct (Hup c Hc) as [Hn Hf]. split; [exact Hn|].
      eapply Forall_impl; [|exact Hf]. intros d [Hd _]; exact Hd.
    + apply ws_normal_strip; [|exact C2].
      intros c Hc Hs. destruct (C1 c Hc) as [->|[_ Hc']]; [reflexivity|congruence].
  - intros H. apply capitalize_in in H as [H|[c [Hc H]]].
    + apply in_strip in H. destruct (C1 42 H) as [E|[H' _]]; [discriminate|].
      exact (proj2 (Hr 42 H') eq_refl).
    + destruct (Hup c Hc) as [_ Hf]. rewrite Forall_forall in Hf.
      exact (proj2 (Hf 42 H) eq_refl).
Qed.

Lemma py_join_cons_ne : forall sep x l, l <> [] -> py_join sep (x :: l) = x ++ sep ++ py_join sep l.
Proof. intros sep x [|y l] H; [congruence|reflexivity]. Qed.

Lemma py_join_hd : forall sep x l, exists X, py_join sep (x :: l) = x ++ X.
Proof.
  intros sep x [|y l]; [exists []; rewrite app_nil_r; reflexivity|].
  exists (sep ++ py_join sep (y :: l)); reflexivity.
Qed.

Lemma py_join_last : forall sep l x, exists X, py_join sep (l ++ [x]) = X ++ x.
Proof.
  induction l as [|y l IH]; intros x; [exists []; reflexivity|].
  destruct (IH x) as [X EX]. exists (y ++ sep ++ X).
  rewrite <- app_comm_cons, py_join_cons_ne, EX, !app_assoc; [reflexivity|].
  intro E; apply app_eq_nil in E as [_ E]; discriminate.
Qed.

Lemma py_join_app : forall sep l1 l2, l1 <> [] -> l2 <> [] ->
  py_join sep (l1 ++ l2) = py_join sep l1 ++ sep ++ py_join sep l2.
Proof.
  induction l1 as [|x l1 IH]; intros l2 H1 H2; [congruence|].
  destruct l1 as [|y l1'].
  - cbn [app]. rewrite py_join_cons_ne by exact H2. reflexivity.
  - rewrite <- app_comm_cons.
    rewrite (py_join_cons_ne sep x ((y :: l1') ++ l2)) by (rewrite <- app_comm_cons; discriminate).
    rewrite IH by (discriminate || exact H2).
    rewrite (py_join_cons_ne sep x (y :: l1')) by discriminate.
    rewrite !app_assoc. reflexivity.
Qed.

Lemma py_join_concat : forall sep gs, Forall (fun g => g <> []) gs ->
  py_join sep (map (py_join sep) gs) = py_join sep (concat gs).
Proof.
  induction gs as [|g gs IH]; intros H; [reflexivity|].
  inversion H as [|? ? Hg Hgs]; subst. destruct gs as [|g' gs'].
  - cbn [map concat py_join]. rewrite app_nil_r. reflexivity.
  - change (py_join sep (py_join sep g :: map (py_join sep) (g' :: gs'))
            = py_join sep (g ++ concat (g' :: gs'))).
    rewrite py_join_cons_ne by discriminate. rewrite IH by exact Hgs.
    rewrite py_join_app; [reflexivity|exact Hg|].
    cbn [concat]. intro E. apply app_eq_nil in E as [E _].
    inversion Hgs; contradiction.
Qed.

Lemma py_join_sub : forall sep ps p, In p ps -> exists A B, py_join sep ps = A ++ p ++ B.
Proof.
  induction ps as [|q ps IH]; intros p H; [destruct H|].
  destruct ps as [|q' ps'].
  - destruct H as [<-|[]]. exists [], []. cbn. rewrite app_nil_r; reflexivity.
  - rewrite py_join_cons_ne by discriminate. destruct H as [<-|H].
    + exists [], (sep ++ py_join sep (q' :: ps')). reflexivity.
    + destruct (IH p H) as [A [B E]]. exists (q ++ sep ++ A), B.
      rewrite E, !app_assoc. reflexivity.
Qed.

Lemma py_join_in : forall sep ps c, In c (py_join sep ps) -> In c sep \/ exists p, In p ps /\ In c p.
Proof.
  induction ps as [|q ps IH]; intros c H; [destruct H|].
  destruct ps as [|q' ps'].
  - right; exists q; split; [left; reflexivity|exact H].
  - rewrite py_join_cons_ne in H by discriminate.
    apply in_app_or in H as [H|H]; [right; exists q; split; [left; reflexivity|exact H]|].
    apply in_app_or in H as [H|H]; [left; exact H|].
    destruct (IH c H) as [H'|[p [Hp Hc]]]; [left; exact H'|].
    right; exists p; split; [right; exact Hp|exact Hc].
Qed.

Lemma split_sent_ne : forall s prev skip cur, split_sent prev skip cur s <> [].
Proof.
  induction s as [|c s IH]; intros prev skip cur; cbn [split_sent]; [discriminate|].
  destruct (skip && is_space c); [apply IH|].
  destruct (negb skip && (prev =? 46) && is_space c && run_then_upper (c :: s));
    [discriminate|apply IH].
Qed.

Lemma split_sent_skip : forall prev c d s, is_space d = false ->
  split_sent prev true [] (d :: s) = split_sent c false [] (d :: s).
Proof.
  intros prev c d s H. cbn [split_sent]. rewrite H. cbn [andb negb].
  rewrite andb_false_r. reflexivity.
Qed.

(** [re.split] on whitespace-normal text: the pieces, joined back with a
    blank, give the text, and none of them is empty or has whitespace at an
    end *)
Lemma split_sent_spec : forall s prev cur,
  (forall c, In c s -> is_space c = true -> c = 32) ->
  no_double_space s ->
  rev cur ++ s <> [] ->
  (forall c t, rev cur ++ s = c :: t -> is_space c = false) ->
  (forall c t, rev cur ++ s = t ++ [c] -> is_space c = false) ->
  match cur with [] => prev <> 46 | x :: _ => prev = x end ->
  py_join [32] (split_sent prev false cur s) = rev cur ++ s
  /\ Forall sent_ok (split_sent prev false cur s).
Proof.
  induction s as [|c s IH]; intros prev cur Hsp Hnd Hne Hhd Htl Hpc.
  - cbn [split_sent py_join]. rewrite app_nil_r in Hne, Hhd, Htl |- *.
    split; [reflexivity|]. constructor; [|constructor]. split; [exact Hne|split; assumption].
  - cbn [split_sent andb negb].
    destruct ((prev =? 46) && is_space c && run_then_upper (c :: s)) eqn:E.
    + apply andb_prop in E as [E Er]. apply andb_prop in E as [Ep Ec].
      apply Z.eqb_eq in Ep. subst prev.
      cbn [run_then_upper] in Er. rewrite Ec in Er.
      assert (c = 32) by (apply Hsp; [left; reflexivity|exact Ec]). subst c.
      destruct s as [|d s']; [discriminate Er|].
      cbn [no_double_space] in Hnd. destruct Hnd as [[Hd|Hd] Hnd'];
        [rewrite Ec in Hd; discriminate|].
      destruct cur as [|x cur']; [contradiction Hpc; reflexivity|]. subst x.
      destruct (IH 32 []) as [J F].
      * intros c Hc; apply Hsp; right; exact Hc.
      * exact Hnd'.
      * discriminate.
      * intros c t Ht. cbn [rev app] in Ht. injection Ht as -> _. exact Hd.
      * intros c t Ht. cbn [rev app] in Ht.
        apply (Htl c (rev (46 :: cur') ++ 32 :: t)).
        rewrite <- app_assoc. cbn [app]. rewrite <- Ht. reflexivity.
      * lia.
      * rewrite (split_sent_skip 32 32 d s' Hd).
        rewrite py_join_cons_ne by apply split_sent_ne. rewrite J.
        split; [reflexivity|]. constructor; [|exact F].
        split; [|split].
        -- cbn [rev]. intro Hx. apply app_eq_nil in Hx as [_ Hx]. discriminate.
        -- intros c t Ht. apply (Hhd c (t ++ 32 :: d :: s')).
           rewrite Ht. reflexivity.
        -- intros c t Ht. cbn [rev] in Ht. apply app_inj_tail in Ht as [_ <-].
           reflexivity.
    + assert (R : rev (c :: cur) ++ s = rev cur ++ c :: s)
        by (cbn [rev]; rewrite <- app_assoc; reflexivity).
      destruct (IH c (c :: cur)) as [J F].
      * intros d Hd; apply Hsp; right; exact Hd.
      * exact (proj2 (proj1 (no_double_space_cons c s) Hnd)).
      * rewrite R; exact Hne.
      * rewrite R; exact Hhd.
      * rewrite R; exact Htl.
      * reflexivity.
      * rewrite R in J. split; assumption.
Qed.

Lemma removelast_map : forall (A B : Type) (f : A -> B) l,
  removelast (map f l) = map f (removelast l).
Proof.
  induction l as [|x l IH]; [reflexivity|].
  destruct l as [|y l']; [reflexivity|].
  change (f x :: removelast (map f (y :: l')) = f x :: map f (removelast (y :: l'))).
  rewrite IH. reflexivity.
Qed.

(** the paragraph loop groups the sentences in order; a group closed inside
    the loop ends with a sentence ending in '.', '!' or '?' *)
Lemma para_loop_spec : forall ss cur, Forall sent_ok ss ->
  exists gs, para_loop ss cur = map (py_join [32]) gs /\ concat gs = cur ++ ss
    /\ Forall (fun g => g <> []) gs
    /\ Forall (fun g => exists g0 s, g = g0 ++ [s] /\ ends_punct s = true) (removelast gs).
Proof.
  induction ss as [|s ss IH]; intros cur Hs.
  - destruct cur as [|x cur']; cbn [para_loop].
    + exists []. split; [reflexivity|split; [reflexivity|split; constructor]].
    + exists [x :: cur']. split; [reflexivity|split; [reflexivity|split]].
      * constructor; [discriminate|constructor].
      * constructor.
  - inversion Hs as [|? ? [Hne [Hhd Htl]] Hss]; subst.
    cbn [para_loop]. rewrite (strip_id s Hhd Htl).
    destruct s as [|c t]; [congruence|]. cbn beta iota zeta.
    destruct ((2 <=? length (cur ++ [c :: t]))%nat && ends_punct (c :: t)) eqn:Ec.
    + destruct (IH [] Hss) as [gs [E1 [E2 [E3 E4]]]].
      exists ((cur ++ [c :: t]) :: gs). split; [cbn [map]; rewrite E1; reflexivity|].
      split; [cbn [concat]; rewrite E2, <- app_assoc; reflexivity|split].
      * constructor; [|exact E3].
        intro E. apply app_eq_nil in E as [_ E]. discriminate.
      * destruct gs as [|g gs']; [constructor|].
        change (Forall (fun g0 => exists g1 s, g0 = g1 ++ [s] /\ ends_punct s = true)
                  ((cur ++ [c :: t]) :: removelast (g :: gs'))).
        constructor; [|exact E4].
        exists cur, (c :: t). split; [reflexivity|].
        apply andb_prop in Ec as [_ Ec]. exact Ec.
    + destruct (IH (cur ++ [c :: t]) Hss) as [gs [E1 [E2 [E3 E4]]]].
      exists gs. split; [exact E1|split; [rewrite E2, <- app_assoc; reflexivity|split; assumption]].
Qed.

Lemma ends_punct_join : forall (g0 : list ustr) (s : ustr), s <> [] ->
  ends_punct (py_join [32] (g0 ++ [s])) = ends_punct s.
Proof.
  intros g0 s Hs. destruct (py_join_last [32] g0 s) as [X EX]. rewrite EX.
  unfold ends_punct. rewrite rev_app_distr.
  destruct (rev s) eqn:R; [|reflexivity].
  apply (f_equal (@rev Z)) in R. rewrite rev_involutive in R. contradiction.
Qed.

Lemma Forall_concat_inv : forall (A : Type) (P : A -> Prop) gs,
  Forall P (concat gs) -> Forall (Forall P) gs.
Proof.
  induction gs as [|g gs IH]; intros H; [constructor|].
  cbn [concat] in H. apply Forall_app in H as [H1 H2]. constructor; [exact H1|exact (IH H2)].
Qed.

Lemma ws_normal_piece : forall A p B,
  ws_normal (A ++ p ++ B) ->
  (forall c t, p = c :: t -> is_space c = false) ->
  (forall c t, p = t ++ [c] -> is_space c = false) -> ws_normal p.
Proof.
  intros A p B [H1 [H2 _]] Hh Ht. split; [|split; [|split; assumption]].
  - intros c Hc. apply H1. apply in_or_app; right; apply in_or_app; left; exact Hc.
  - apply no_double_space_app in H2 as [_ H2]. apply no_double_space_app in H2 as [H2 _].
    exact H2.
Qed.

Lemma squeeze_plain : forall p rest, Forall (fun c => c <> 10) p ->
  squeeze_nl 0 (p ++ rest) = p ++ squeeze_nl 0 rest.
Proof.
  induction p as [|c p IH]; intros rest H; [reflexivity|].
  inversion H; subst. cbn [app squeeze_nl].
  destruct (Z.eqb_spec c 10); [contradiction|]. cbn [Nat.leb repeat app].
  rewrite IH by assumption. reflexivity.
Qed.

Lemma squeeze_join : forall ps : list ustr, Forall (fun p => p <> [] /\ Forall (fun c => c <> 10) p) ps ->
  squeeze_nl 0 (py_join [10; 10] ps) = py_join [10; 10] ps.
Proof.
  induction ps as [|p ps IH]; intros H; [reflexivity|].
  inversion H as [|? ? [Hp Hpn] Hps]; subst. destruct ps as [|q ps'].
  - cbn [py_join]. rewrite <- (app_nil_r p) at 1. rewrite squeeze_plain by exact Hpn.
    rewrite app_nil_r. reflexivity.
  - rewrite py_join_cons_ne by discriminate. rewrite squeeze_plain by exact Hpn.
    f_equal. assert (IH' := IH Hps).
    inversion Hps as [|? ? [Hq Hqn] _]; subst. destruct q as [|d q']; [congruence|].
    inversion Hqn; subst.
    destruct (py_join_hd [10; 10] (d :: q') ps') as [X EX]. rewrite EX in IH' |- *.
    simpl in IH' |- *.
    destruct (Z.eqb_spec d 10); [contradiction|]. rewrite IH'. reflexivity.
Qed.

(** [format_response] on a non-empty response made only of asterisks and
    whitespace returns the empty string, not the fallback sentence: the
    test [if not raw_response] comes before the cleaning. *)
Theorem format_response_blank : forall (is_lower : Z -> bool) (upper : Z -> ustr) (raw : ustr),
  raw <> [] -> Forall (fun c => c = 42 \/ is_space c = true) raw ->
  format_response is_lower upper raw = [].
Proof.
  intros il up raw Hne Hb.
  assert (E : fr_clean il up raw = []).
  { unfold fr_clean. set (r := fold_left _ _ _).
    rewrite strip_all_space; [reflexivity|].
    destruct (collapse_ws_spec r false) as [C1 _].
    apply Forall_forall. intros d Hd.
    destruct (C1 d Hd) as [->|[Hd' _]]; [reflexivity|].
    apply fr_pre_spec in Hd' as [Hin Hn]. rewrite Forall_forall in Hb.
    destruct (Hb d Hin) as [E|E]; [contradiction|exact E]. }
  destruct raw as [|c raw']; [congruence|].
  change (strip (squeeze_nl 0 (py_join [10; 10]
            (para_loop (split_sent (-1) false [] (fr_clean il up (c :: raw'))) []))) = []).
  rewrite E. reflexivity.
Qed.

Lemma format_response_blank_witness :
  format_response (fun _ => false) (fun c => [c]) (u "* *") = [].
Proof.
  change (u "* *") with [42; 32; 42].
  apply format_response_blank; [discriminate|].
  constructor; [left; reflexivity|constructor; [right; reflexivity|
    constructor; [left; reflexivity|constructor]]].
Defined.

(** For a non-empty response, and [str.upper] giving a non-empty text
    without whitespace or asterisk for a lowercase character, the cleaned
    response has normalised whitespace; the result has no asterisk; and
    the result is the cleaned response with some of its blanks turned into
    the paragraph break ["\n\n"]: it is ["\n\n".join(ps)] for paragraphs
    [ps] that give the cleaned response when joined with a blank, each
    non-empty and with normalised whitespace, every one but the last ending
    with '.', '!' or '?'. *)
Theorem format_response_layout : forall (is_lower : Z -> bool) (upper : Z -> ustr) (raw : ustr),
  (forall c, is_lower c = true ->
     upper c <> [] /\ Forall (fun d => is_space d = false /\ d <> 42) (upper c)) ->
  raw <> [] ->
  ws_normal (fr_clean is_lower upper raw)
  /\ ~ In 42 (format_response is_lower upper raw)
  /\ exists ps : list ustr,
       format_response is_lower upper raw = py_join [10; 10] ps
       /\ py_join [32] ps = fr_clean is_lower upper raw
       /\ Forall (fun p => p <> [] /\ ws_normal p) ps
       /\ Forall (fun p => ends_punct p = true) (removelast ps).
Proof.
  intros il up raw Hup Hraw.
  destruct (fr_clean_normal il up raw Hup) as [Wt Nt].
  assert (E : format_response il up raw = strip (squeeze_nl 0 (py_join [10; 10]
                (para_loop (split_sent (-1) false [] (fr_clean il up raw)) [])))).
  { destruct raw; [congruence|reflexivity]. }
  rewrite E. clear E.
  remember (fr_clean il up raw) as t eqn:Et. clear Et.
  assert (Main : exists ps : list ustr,
    strip (squeeze_nl 0 (py_join [10; 10] (para_loop (split_sent (-1) false [] t) [])))
      = py_join [10; 10] ps
    /\ py_join [32] ps = t
    /\ Forall (fun p => p <> [] /\ ws_normal p) ps
    /\ Forall (fun p => ends_punct p = true) (removelast ps)).
  { destruct (list_eq_dec Z.eq_dec t []) as [->|Hne].
    { exists []. split; [reflexivity|split; [reflexivity|split; constructor]]. }
    pose proof Wt as [W1 [W2 [W3 W4]]].
    destruct (split_sent_spec t (-1) [] W1 W2 Hne W3 W4 ltac:(cbv beta iota; lia)) as [J F].
    cbn [rev app] in J.
    destruct (para_loop_spec (split_sent (-1) false [] t) [] F) as [gs [P1 [P2 [P3 P4]]]].
    rewrite P1. cbn [app] in P2.
    assert (Jps : py_join [32] (map (py_join [32]) gs) = t)
      by (rewrite py_join_concat by exact P3; rewrite P2; exact J).
    assert (Fps : Forall (fun p => p <> [] /\ ws_normal p) (map (py_join [32]) gs)).
    { apply Forall_forall. intros p Hp. pose proof Hp as Hp'.
      apply in_map_iff in Hp as [g [<- Hg]].
      assert (Hgne : g <> []) by (rewrite Forall_forall in P3; apply P3; exact Hg).
      assert (Fg : forall s, In s g -> sent_ok s).
      { rewrite <- P2 in F. apply Forall_concat_inv in F. rewrite Forall_forall in F.
        apply Forall_forall. apply F. exact Hg. }
      destruct g as [|s g']; [congruence|].
      destruct (Fg s (or_introl eq_refl)) as [Hs [Hsh _]].
      destruct (py_join_hd [32] s g') as [X EX].
      split.
      - rewrite EX. intro E. apply app_eq_nil in E as [E _]. contradiction.
      - destruct (py_join_sub [32] _ _ Hp') as [A [B EAB]].
        apply (ws_normal_piece A _ B); [rewrite <- EAB, Jps; exact Wt| |].
        + intros c0 t0 E. rewrite EX in E. destruct s as [|c1 s']; [congruence|].
          cbn [app] in E. injection E as <- _. exact (Hsh _ _ eq_refl).
        + intros c0 t0 E.
          destruct (exists_last (l := s :: g') ltac:(discriminate)) as [g0 [sl Eg]].
          assert (Hsl : sent_ok sl) by (apply Fg; rewrite Eg; apply in_or_app; right; left; reflexivity).
          destruct Hsl as [Hsl [_ Hst]].
          rewrite Eg in E. destruct (py_join_last [32] g0 sl) as [X' EX']. rewrite EX' in E.
          destruct (exists_last Hsl) as [s0 [e Es]]. rewrite Es, app_assoc in E.
          apply app_inj_tail in E as [_ <-]. exact (Hst _ _ Es). }
    assert (Pps : Forall (fun p => ends_punct p = true) (removelast (map (py_join [32]) gs))).
    { rewrite removelast_map. apply Forall_forall. intros p Hp.
      apply in_map_iff in Hp as [g [<- Hg]]. rewrite Forall_forall in P4.
      destruct (P4 g Hg) as [g0 [s [-> Hs]]].
      rewrite ends_punct_join; [exact Hs|]. intros ->. discriminate. }
    clear P1. generalize dependent (map (py_join [32]) gs). intros ps Jps Fps Pps.
    exists ps. split; [|split; [exact Jps|split; assumption]].
    rewrite squeeze_join.
    2: { eapply Forall_impl; [|exact Fps]. intros p [Hp Wp]. split; [exact Hp|].
         apply Forall_forall. intros c Hc ->. destruct Wp as [Wp _].
         specialize (Wp 10 Hc eq_refl). discriminate. }
    apply strip_id.
    - intros c t0 E. destruct ps as [|p ps']; [discriminate|].
      inversion Fps as [|? ? [Hp [_ [_ [Wh _]]]] _].
      destruct (py_join_hd [10; 10] p ps') as [X EX]. rewrite EX in E.
      destruct p as [|c1 p']; [congruence|]. cbn [app] in E. injection E as <- _.
      exact (Wh _ _ eq_refl).
    - intros c t0 E. destruct ps as [|p0 ps']; [exfalso; exact (app_cons_not_nil _ _ _ E)|].
      destruct (exists_last (l := p0 :: ps') ltac:(discriminate)) as [ps0 [pl Ep]].
      assert (Wpl : pl <> [] /\ ws_normal pl).
      { rewrite Forall_forall in Fps. apply Fps. rewrite Ep. apply in_or_app; right; left; reflexivity. }
      destruct Wpl as [Hpl [_ [_ [_ Wl]]]].
      rewrite Ep in E. destruct (py_join_last [10; 10] ps0 pl) as [X EX]. rewrite EX in E.
      destruct (exists_last Hpl) as [s0 [e Es]]. rewrite Es, app_assoc in E.
      apply app_inj_tail in E as [_ <-]. exact (Wl _ _ Es). }
  destruct Main as [ps [M1 [M2 [M3 M4]]]].
  split; [exact Wt|split].
  - rewrite M1. intro H. apply py_join_in in H as [H|[p [Hp Hc]]].
    { destruct H as [H|[H|[]]]; discriminate. }
    apply Nt. rewrite <- M2. destruct (py_join_sub [32] ps p Hp) as [A [B EAB]].
    rewrite EAB. apply in_or_app; right; apply in_or_app; left; exact Hc.
  - exists ps. split; [exact M1|split; [exact M2|split; assumption]].
Qed.

Lemma format_response_layout_witness :
  exists ps : list ustr,
    format_response (fun c => (97 <=? c) && (c <=? 122)) (fun c => [c - 32])
      (u "ola. Tudo bem. Sim, claro.") = py_join [10; 10] ps
    /\ Forall (fun p => p <> [] /\ ws_normal p) ps.
Proof.
  destruct (format_response_layout (fun c => (97 <=? c) && (c <=? 122)) (fun c => [c - 32])
              (u "ola. Tudo bem. Sim, claro.")) as [_ [_ [ps [E1 [_ [E3 _]]]]]].
  - intros c Hc. apply andb_prop in Hc as [H1 H2]. apply Z.leb_le in H1, H2.
    split; [discriminate|]. constructor; [|constructor]. split; [|lia].
    unfold is_space.
    repeat first [ rewrite (proj2 (Z.leb_gt _ _)) by lia
                 | rewrite (proj2 (Z.eqb_neq _ _)) by lia
                 | rewrite (proj2 (Z.leb_le _ _)) by lia ].
    reflexivity.
  - vm_compute. discriminate.
  - exists ps. split; assumption.
Defined.
